(** * LabJack T7 firmware upgrade: a shallow embedding of
      [labjack_t7_upgrade.js] and the properties of its flash pipeline.

    The embedding follows the current version of the module (the one whose
    flash engine is [createFlashOperation]).  JavaScript integers are [Z],
    [Buffer]s are lists of bytes, promises are modelled by the state they
    end in ([Outcome]), and the device is a deterministic function of the
    history of calls made on its handle: every call is appended to a log and
    the reply is computed from that log, so the log is the only state that is
    threaded through the operations. *)

From Stdlib Require Import ZArith List String Ascii Bool Lia.
From Stdlib Require Import Strings.Byte.
From Stdlib Require Import QArith Qabs Qround Qreduction DecimalString.
Import ListNotations.
Open Scope Z_scope.

(* ------------------------------------------------------------------ *)
(** ** Constants of the driver package *)

(** [driver_const] belongs to the labjack-nodejs package, so its values are
    parameters of the development. *)
Record DriverConst := {
  T7_MA_EXF_KEY : Z;
  T7_MA_EXF_ERASE : Z;
  T7_MA_EXF_pWRITE : Z;
  T7_MA_EXF_WRITE : Z;
  T7_MA_EXF_pREAD : Z;
  T7_MA_EXF_READ : Z;
  T7_FLASH_PAGE_SIZE : Z;
  T7_FLASH_BLOCK_WRITE_SIZE : Z;
  T7_EFAdd_ExtFirmwareImage : Z;
  T7_EFAdd_ExtFirmwareImgInfo : Z;
  T7_EFkey_ExtFirmwareImage : Z;
  T7_EFkey_ExtFirmwareImgInfo : Z;
  T7_IMG_FLASH_PAGE_ERASE : Z;
  T7_HDR_FLASH_PAGE_ERASE : Z;
  T7_HEAD_FIRST_FOUR_BYTES : Z;
  T7_TARGET_OLD : Z;
  T7_TARGET : Z;
  HEADER_CODE : Z;
  HEADER_TARGET : Z;
  HEADER_VERSION : Z;
  HEADER_REQ_LJSU : Z;
  HEADER_IMAGE_NUM : Z;
  HEADER_NUM_IMAGES : Z;
  HEADER_NEXT_IMG : Z;
  HEADER_IMG_LEN : Z;
  HEADER_IMG_OFFSET : Z;
  HEADER_SHA_BYTE_COUNT : Z;
  HEADER_ENC_SHA1 : Z;
  HEADER_SHA1 : Z;
  HEADER_CHECKSUM : Z
}.

(* ------------------------------------------------------------------ *)
(** ** The device link *)

Inductive Direction := LJM_READ | LJM_WRITE.

(** An entry of the [values] array of [rwMany]: a number, or the [null]
    placeholder of a read slot. *)
Inductive Value := VNum (n : Z) | VNull.

(** The four arrays handed to [device.rwMany]. *)
Record Frames := {
  addresses : list Z;
  directions : list Direction;
  numValues : list Z;
  values : list Value
}.

Inductive Call :=
| CWriteMany (addrs : list Z) (vals : list Z)
| CRwMany (f : Frames).

(** A call is answered through [onSuccess] ([Ack], with the values read) or
    through [onError] ([Nak]).  Link errors are the driver's nonzero error
    numbers. *)
Inductive Reply := Ack (results : list Z) | Nak (err : positive).

Definition Log := list Call.

(** The device answers the last call of the log it is given. *)
Definition Device := Log -> Reply.

Inductive JsError :=
| LinkError (code : positive)
| Error (message : string)
| TypeError
| RangeError
| IOError (code : string).

(** How a call that returns a promise ends: the promise is resolved,
    rejected, or never settled; or the call throws before it returns a
    promise; or it never returns. *)
Inductive Outcome (A : Type) :=
| Resolved (a : A)
| Rejected (e : JsError)
| Pending
| Thrown (e : JsError)
| Diverged.
Arguments Resolved {A} a.
Arguments Rejected {A} e.
Arguments Pending {A}.
Arguments Thrown {A} e.
Arguments Diverged {A}.

(** What one step of an [async] iteration reports to its callback. *)
Inductive Step (A : Type) :=
| Next (a : A)
| Failed (err : positive)
| Raised (e : JsError).
Arguments Next {A} a.
Arguments Failed {A} err.
Arguments Raised {A} e.

(** [async.eachSeries]: the iterator runs on one element after the other
    and the first error ends the iteration. *)
Fixpoint eachSeries {A : Type} (arr : list A)
    (iterator : A -> Log -> Step unit * Log) (log : Log) : Step unit * Log :=
  match arr with
  | [] => (Next tt, log)
  | x :: rest =>
      match iterator x log with
      | (Next _, log') => eachSeries rest iterator log'
      | (Failed err, log') => (Failed err, log')
      | (Raised e, log') => (Raised e, log')
      end
  end.

(** [async.reduce]: as [eachSeries], with a memo handed from step to step. *)
Fixpoint reduce {A M : Type} (arr : list A) (memo : M)
    (iterator : M -> A -> Log -> Step M * Log) (log : Log) : Step M * Log :=
  match arr with
  | [] => (Next memo, log)
  | x :: rest =>
      match iterator memo x log with
      | (Next memo', log') => reduce rest memo' iterator log'
      | (Failed err, log') => (Failed err, log')
      | (Raised e, log') => (Raised e, log')
      end
  end.

(* ------------------------------------------------------------------ *)
(** ** [range] *)

(** The [for] loop of [range]; [None] when the fuel runs out. *)
Fixpoint range_loop (fuel : nat) (i stop step : Z) (result : list Z)
  : option (list Z) :=
  if (if step >? 0 then i <? stop else i >? stop) then
    match fuel with
    | O => None
    | S fuel' => range_loop fuel' (i + step) stop step (result ++ [i])
    end
  else Some result.

(** [range(start, stop, step)], the last two arguments optional.  The
    result is [None] when the loop does not terminate (a zero step with
    [start > stop]). *)
Definition range (start : Z) (stop step : option Z) : option (list Z) :=
  let '(start, stop) :=
    match stop with
    | None => (0, start)
    | Some s => (start, s)
    end in
  let step := match step with None => 1 | Some s => s end in
  if ((step >? 0) && (start >=? stop)) || ((step <? 0) && (start <=? stop))
  then Some []
  else range_loop (Z.abs_nat (stop - start)) start stop step [].

(* ------------------------------------------------------------------ *)
(** ** Numbers and numeric strings *)

(** A JavaScript number is modelled by the value it denotes; the two
    zeros are not told apart.  Finite values are kept in lowest terms, so
    that equal numbers are equal terms.  The results of [Number], of a
    division and of the conversion of a numeric string are rounded to
    binary64 by [binary64]. *)
Inductive JsNum := NaN | Inf (negative : bool) | Fin (q : Q).

Definition fin (q : Q) : JsNum := Fin (Qred q).

(** The integer nearest to a rational that is not negative, the even one
    of two. *)
Definition roundHalfEven (q : Q) : Z :=
  let n := Qnum q in
  let d := Zpos (Qden q) in
  let below := n / d in
  let twice := 2 * (n mod d) in
  if twice <? d then below
  else if d <? twice then below + 1
  else if Z.even below then below else below + 1.

(** The exponent [e] with [2 ^ e <= a < 2 ^ (e + 1)], for a positive
    rational. *)
Definition binade (a : Q) : Z :=
  let e := Z.log2 (Qnum a) - Z.log2 (Zpos (Qden a)) in
  if Qle_bool (Qpower 2 e) a then e else e - 1.

(** The binary64 number nearest to a rational, the one with an even
    significand of two (IEEE 754 round to nearest, ties to even): 53 bits
    of significand from the exponent -1022 on, fewer below it, and an
    infinity from [2 ^ 1024] on. *)
Definition binary64 (q : Q) : JsNum :=
  let q := Qred q in
  let a := Qabs q in
  if Qeq_bool a 0 then Fin 0
  else
    let e := Z.max (binade a) (-1022) in
    let ulp := Qpower 2 (e - 52) in
    let r := (inject_Z (roundHalfEven (a / ulp)) * ulp)%Q in
    if Qle_bool (Qpower 2 1024) r then Inf (negb (Qle_bool 0 q))
    else fin (if Qle_bool 0 q then r else (- r)%Q).

(** A number that is the result of an operation, rounded. *)
Definition rounded (x : JsNum) : JsNum :=
  match x with
  | Fin q => binary64 q
  | other => other
  end.

(** [x == y] on numbers. *)
Definition num_eqb (x y : JsNum) : bool :=
  match x, y with
  | Fin p, Fin q => Qeq_bool p q
  | Inf a, Inf b => Bool.eqb a b
  | _, _ => false
  end.

(** [x / d] for a positive integer [d]. *)
Definition num_div (x : JsNum) (d : positive) : JsNum :=
  match x with
  | Fin q => binary64 (q / inject_Z (Zpos d))
  | other => other
  end.

(** The decimal that the string [x.toFixed(4)] shows: the nearest
    multiple of 1/10000 (of two, the one further from zero) below 10^21 in
    absolute value, and [x] itself from there on. *)
Definition roundFixed4 (x : JsNum) : JsNum :=
  match x with
  | Fin q =>
      let a := Qabs q in
      let r :=
        if Qle_bool (inject_Z (10 ^ 21)) a then a
        else (inject_Z (Qfloor (a * inject_Z 10000 + (1 # 2)))
              / inject_Z 10000)%Q
      in
      fin (if Qle_bool 0 q then r else (- r)%Q)
  | other => other
  end.

(** The value of the IEEE 754 single with the given 32 bits. *)
Definition decodeFloat32 (bits : Z) : JsNum :=
  let sign := Z.testbit bits 31 in
  let e := Z.land (Z.shiftr bits 23) 255 in
  let m := Z.land bits (2 ^ 23 - 1) in
  if e =? 255 then (if m =? 0 then Inf sign else NaN)
  else
    let mantissa := if e =? 0 then m else m + 2 ^ 23 in
    let exponent := (if e =? 0 then 1 else e) - 150 in
    let magnitude :=
      if 0 <=? exponent then inject_Z (mantissa * 2 ^ exponent)
      else (mantissa # Z.to_pos (2 ^ (- exponent))) in
    fin (if sign then (- magnitude)%Q else magnitude).

(** *** [Number(string)]

    Strings are sequences of code units below 256.  The grammar is the
    one of ECMAScript 5: white space around an optionally signed decimal
    literal (or [Infinity]), or around an unsigned hexadecimal literal. *)

Definition isWhiteSpace (c : ascii) : bool :=
  let n := nat_of_ascii c in
  ((n =? 9) || (n =? 10) || (n =? 11) || (n =? 12) || (n =? 13)
   || (n =? 32) || (n =? 160))%nat.

Fixpoint trimLeft (l : list ascii) : list ascii :=
  match l with
  | c :: rest => if isWhiteSpace c then trimLeft rest else l
  | [] => []
  end.

Definition trim (l : list ascii) : list ascii :=
  rev (trimLeft (rev (trimLeft l))).

Definition digitValue (c : ascii) : option Z :=
  let n := Z.of_nat (nat_of_ascii c) in
  if (48 <=? n) && (n <=? 57) then Some (n - 48) else None.

Definition hexDigitValue (c : ascii) : option Z :=
  let n := Z.of_nat (nat_of_ascii c) in
  if (48 <=? n) && (n <=? 57) then Some (n - 48)
  else if (65 <=? n) && (n <=? 70) then Some (n - 55)
  else if (97 <=? n) && (n <=? 102) then Some (n - 87)
  else None.

(** The longest prefix of digits, as their values, and what follows it. *)
Fixpoint takeDigits (l : list ascii) : list Z * list ascii :=
  match l with
  | c :: rest =>
      match digitValue c with
      | Some d => let '(ds, r) := takeDigits rest in (d :: ds, r)
      | None => ([], l)
      end
  | [] => ([], [])
  end.

Definition digitsValue (base : Z) (ds : list Z) : Z :=
  fold_left (fun acc d => acc * base + d) ds 0.

Fixpoint allHexDigits (l : list ascii) : option (list Z) :=
  match l with
  | [] => Some []
  | c :: rest =>
      match hexDigitValue c, allHexDigits rest with
      | Some d, Some ds => Some (d :: ds)
      | _, _ => None
      end
  end.

Definition parseHex (l : list ascii) : option Z :=
  match l with
  | "0"%char :: x :: ((_ :: _) as digits) =>
      if (Ascii.eqb x "x" || Ascii.eqb x "X")%char then
        option_map (digitsValue 16) (allHexDigits digits)
      else None
  | _ => None
  end.

(** An exponent part that ends the literal (or nothing at all). *)
Definition parseExponent (l : list ascii) : option Z :=
  match l with
  | [] => Some 0
  | c :: rest =>
      if (Ascii.eqb c "e" || Ascii.eqb c "E")%char then
        let '(negative, rest1) :=
          match rest with
          | "+"%char :: r => (false, r)
          | "-"%char :: r => (true, r)
          | _ => (false, rest)
          end in
        match takeDigits rest1 with
        | ((_ :: _) as ds, []) =>
            Some (if negative then - digitsValue 10 ds else digitsValue 10 ds)
        | _ => None
        end
      else None
  end.

Definition parseUnsignedDecimal (l : list ascii) : option JsNum :=
  if list_eq_dec ascii_dec l (list_ascii_of_string "Infinity") then
    Some (Inf false)
  else
    let '(ds1, rest1) := takeDigits l in
    let '(ds2, rest2) :=
      match rest1 with
      | "."%char :: r => takeDigits r
      | _ => ([], rest1)
      end in
    match ds1 ++ ds2 with
    | [] => None
    | ds =>
        match parseExponent rest2 with
        | None => None
        | Some ex =>
            Some (Fin (inject_Z (digitsValue 10 ds)
                       * Qpower (inject_Z 10)
                           (ex - Z.of_nat (List.length ds2))))
        end
    end.

Definition negate (x : JsNum) : JsNum :=
  match x with
  | NaN => NaN
  | Inf s => Inf (negb s)
  | Fin q => Fin (- q)
  end.

Definition Number (s : string) : JsNum :=
  match trim (list_ascii_of_string s) with
  | [] => fin 0
  | l =>
      match parseHex l with
      | Some n => binary64 (inject_Z n)
      | None =>
          let '(negative, rest) :=
            match l with
            | "+"%char :: r => (false, r)
            | "-"%char :: r => (true, r)
            | _ => (false, l)
            end in
          match parseUnsignedDecimal rest with
          | Some x => rounded (if negative then negate x else x)
          | None => NaN
          end
      end
  end.

(** [s.split(separator)] for a one-character separator. *)
Fixpoint split (separator : ascii) (s : string) : list string :=
  match s with
  | EmptyString => [EmptyString]
  | String c rest =>
      if Ascii.eqb c separator then EmptyString :: split separator rest
      else
        match split separator rest with
        | first :: others => String c first :: others
        | [] => [String c EmptyString]
        end
  end.

(* ------------------------------------------------------------------ *)
(** ** The bundle *)

(** A string that spells a number, as [toFixed] returns it, kept as the
    number it spells (what [Number] gives back for it). *)
Record NumericString := { spelled : JsNum }.

Record ImageInformation := {
  rawImageInfo : list byte;
  headerCode : Z;
  intendedDevice : Z;
  containedVersion : NumericString;
  requiredUpgraderVersion : NumericString;
  imageNumber : Z;
  numImgInFile : Z;
  startNextImg : Z;
  lenOfImg : Z;
  imgOffset : Z;
  numBytesInSHA : Z;
  options : Z;
  encryptedSHA : Z;
  unencryptedSHA : Z;
  headerChecksum : Z
}.

(** [DeviceFirmwareBundle]; every field starts as [null]. *)
Record Bundle := {
  firmwareImageInformation : option ImageInformation;
  firmwareImage : option (list byte);
  device : option Device;
  version : option JsNum;
  serial : option Z
}.

(** What a promise of the module can be resolved with. *)
Inductive JsVal :=
| VBundle (b : Bundle)
| VArray (l : list Z).

Definition decimal (n : Z) : string := NilZero.string_of_int (Z.to_int n).

Section Upgrade.

Context (driver_const : DriverConst).

(* ------------------------------------------------------------------ *)
(** ** [eraseFlash] *)

Definition eraseFlash (bundle : Bundle) (startAddress numPages key : Z)
    (log : Log) : Outcome Bundle * Log :=
  match range numPages None None with
  | None => (Diverged, log)
  | Some pages =>
      match
        eachSeries pages
          (fun page log =>
             match device bundle with
             | None => (Raised TypeError, log)
             | Some dev =>
                 let log' :=
                   log ++ [CWriteMany
                             [T7_MA_EXF_KEY driver_const;
                              T7_MA_EXF_ERASE driver_const]
                             [key;
                              startAddress
                              + page * T7_FLASH_PAGE_SIZE driver_const]] in
                 match dev log' with
                 | Nak err => (Failed err, log')
                 | Ack _ => (Next tt, log')
                 end
             end)
          log
      with
      | (Next _, log') => (Resolved bundle, log')
      | (Failed err, log') =>
          (Rejected (Error (decimal (Zpos err))), log')
      | (Raised e, log') => (Thrown e, log')
      end
  end.

(* ------------------------------------------------------------------ *)
(** ** The flash operation engine *)

Definition byteValue (b : byte) : Z := Z.of_N (Byte.to_N b).

(** [buffer.readUInt32BE(offset)]; [None] when the four bytes are not all
    inside the buffer (the call throws). *)
Definition readUInt32BE (buffer : list byte) (offset : Z) : option Z :=
  if offset <? 0 then None
  else
    match skipn (Z.to_nat offset) buffer with
    | b0 :: b1 :: b2 :: b3 :: _ =>
        Some (((byteValue b0 * 256 + byteValue b1) * 256 + byteValue b2) * 256
              + byteValue b3)
    | _ => None
    end.

Fixpoint getdata_loop (imageBuffer : option (list byte)) (n : nat)
    (i offset : Z) (retArray : list Z) : JsError + list Z :=
  match n with
  | O => inr retArray
  | S n' =>
      match imageBuffer with
      | None => inl TypeError
      | Some buffer =>
          match readUInt32BE buffer (i * 4 + offset) with
          | None => inl RangeError
          | Some word =>
              getdata_loop imageBuffer n' (i + 1) offset (retArray ++ [word])
          end
      end
  end.

(** [getdata(imageBuffer, numIntegers, offset)]: [numIntegers] big-endian
    words from byte [offset] on. *)
Definition getdata (imageBuffer : option (list byte)) (numIntegers offset : Z)
  : JsError + list Z :=
  getdata_loop imageBuffer (Z.to_nat numIntegers) 0 offset [].

(** The closure returned by [createExecution]: the variables it captures. *)
Record Execution := {
  exAddress : Z;
  exInnerSize : Z;
  exWriteValues : option (list Z)
}.

Definition createExecution (address innerSize : Z)
    (writeValues : option (list Z)) : Execution :=
  {| exAddress := address;
     exInnerSize := innerSize;
     exWriteValues := writeValues |}.

(** The arrays such a closure builds when it runs. *)
Definition executionFrames (key : option Z) (isReadOp : bool)
    (ptrAddress flashAddress : Z) (e : Execution) : Frames :=
  let directions0 := [LJM_WRITE] in
  let '(directions1, addresses1, values1, numValues1) :=
    match key with
    | None => (directions0, [], [], [1])
    | Some k =>
        (directions0 ++ [LJM_WRITE],
         [T7_MA_EXF_KEY driver_const], [VNum k], [1; 1])
    end in
  let directions2 :=
    directions1 ++ [if isReadOp then LJM_READ else LJM_WRITE] in
  let addresses2 := addresses1 ++ [ptrAddress] in
  let values2 := values1 ++ [VNum (exAddress e)] in
  let addresses3 := addresses2 ++ [flashAddress] in
  let values3 :=
    if isReadOp then values2 ++ repeat VNull (Z.to_nat (exInnerSize e))
    else values2 ++ match exWriteValues e with
                    | Some ws => map VNum ws
                    | None => []
                    end in
  {| addresses := addresses3;
     directions := directions2;
     numValues := numValues1 ++ [exInnerSize e];
     values := values3 |}.

(** Running the closure on the results gathered so far. *)
Definition runExecution (bundle : Bundle) (key : option Z) (isReadOp : bool)
    (ptrAddress flashAddress : Z) (e : Execution) (lastResults : list Z)
    (log : Log) : Step (list Z) * Log :=
  match device bundle with
  | None => (Raised TypeError, log)
  | Some dev =>
      let log' :=
        log
        ++ [CRwMany (executionFrames key isReadOp ptrAddress flashAddress e)]
      in
      match dev log' with
      | Nak err => (Failed err, log')
      | Ack newResults => (Next (lastResults ++ newResults), log')
      end
  end.

(** The first loop of [createFlashOperation]: [n] full chunks. *)
Fixpoint fullChunks (n : nat) (isReadOp : bool) (size : Z)
    (data : option (list byte)) (executeOperations : list Execution)
    (currentAddress offset : Z) : JsError + (list Execution * Z * Z) :=
  match n with
  | O => inr (executeOperations, currentAddress, offset)
  | S n' =>
      match
        (if isReadOp then inr (createExecution currentAddress size None)
         else
           match getdata data 8 offset with
           | inl e => inl e
           | inr ws => inr (createExecution currentAddress size (Some ws))
           end)
      with
      | inl e => inl e
      | inr execution =>
          fullChunks n' isReadOp size data (executeOperations ++ [execution])
            (currentAddress + size * 4) (offset + 32)
      end
  end.

(** The list [executeOperations] that [createFlashOperation] builds before
    it runs anything; [inl] when building it throws.  The quotient and the
    remainder are those of the code unless the chunk size is zero and the
    length positive, which [createFlashOperation] treats apart. *)
Definition executeOperations (startAddress lengthInts sizeInts : Z)
    (isReadOp : bool) (data : option (list byte)) : JsError + list Execution :=
  let size := sizeInts in
  let length := lengthInts in
  let numIterations := length / size in
  let remainder := Z.rem length size in
  let shouldAugment := remainder >? 0 in
  match fullChunks (Z.to_nat numIterations) isReadOp size data [] startAddress 0
  with
  | inl e => inl e
  | inr (operations, currentAddress, offset) =>
      if shouldAugment && (remainder >? 0) then
        match
          (if isReadOp then inr (createExecution currentAddress remainder None)
           else
             match getdata data remainder offset with
             | inl e => inl e
             | inr ws =>
                 inr (createExecution currentAddress remainder (Some ws))
             end)
        with
        | inl e => inl e
        | inr execution => inr (operations ++ [execution])
        end
      else inr operations
  end.

(** The [async.reduce] of [createFlashOperation], from a given memo, with
    the memory it gathers. *)
Definition reduceFrom (bundle : Bundle) (key : option Z)
    (isReadOp : bool) (ptrAddress flashAddress : Z)
    (operations : list Execution) (memo : list Z) (log : Log)
  : Step (list Z) * Log :=
  reduce operations memo
    (fun lastMemoryResult currentExecution =>
       runExecution bundle key isReadOp ptrAddress flashAddress
         currentExecution lastMemoryResult)
    log.

Definition reduceOperations (bundle : Bundle) (key : option Z)
    (isReadOp : bool) (ptrAddress flashAddress : Z)
    (operations : list Execution) (log : Log) : Step (list Z) * Log :=
  reduceFrom bundle key isReadOp ptrAddress flashAddress operations [] log.

(** With a zero chunk size and a positive length [numIterations] is
    [Infinity], and the first loop has no end of its own.  For a read it
    goes on for ever.  For a write [getdata] throws in it, in the first
    turn whose 32 bytes are not all inside the data: one turn more than
    the data have blocks of 32 bytes is enough to get there.  The quotient
    and the remainder of [executeOperations] are those of the code in all
    other cases. *)
Definition createFlashOperation (bundle : Bundle)
    (startAddress lengthInts sizeInts ptrAddress flashAddress : Z)
    (isReadOp : bool) (key : option Z) (data : option (list byte))
    (log : Log) : Outcome JsVal * Log :=
  if (sizeInts =? 0) && (0 <? lengthInts) then
    if isReadOp then (Diverged, log)
    else
      let blocks :=
        match data with
        | Some buffer => (List.length buffer / 32)%nat
        | None => O
        end in
      match
        fullChunks (S blocks) false sizeInts data [] startAddress 0
      with
      | inl e => (Thrown e, log)
      | inr _ => (Diverged, log)
      end
  else
    match executeOperations startAddress lengthInts sizeInts isReadOp data with
    | inl e => (Thrown e, log)
    | inr operations =>
        match
          reduceOperations bundle key isReadOp ptrAddress flashAddress
            operations log
        with
        | (Next allMemoryRead, log') => (Resolved (VBundle bundle), log')
        | (Failed err, log') => (Rejected (LinkError err), log')
        | (Raised e, log') => (Thrown e, log')
        end
    end.

Definition readFlash (bundle : Bundle) (startAddress length size : Z)
    (log : Log) : Outcome JsVal * Log :=
  createFlashOperation bundle startAddress length size
    (T7_MA_EXF_pREAD driver_const) (T7_MA_EXF_READ driver_const)
    true None None log.

Definition writeFlash (bundle : Bundle) (startAddress length size : Z)
    (key : option Z) (data : option (list byte)) (log : Log)
  : Outcome JsVal * Log :=
  createFlashOperation bundle startAddress length size
    (T7_MA_EXF_pWRITE driver_const) (T7_MA_EXF_WRITE driver_const)
    false key data log.

(* ------------------------------------------------------------------ *)
(** ** Reading the regions back, and the checks *)

(** The byte counts of the regions and of the image are taken to be
    multiples of four, so that [/ 4] is the integer quotient.  With
    another byte count the code works with a count that is no integer,
    which ends up in a frame for the driver or makes [getdata] read past
    the data; the properties of the writes below are stated for whole
    words. *)
Definition readImage (bundle : Bundle) (log : Log) : Outcome JsVal * Log :=
  let numberOfIntegers :=
    T7_IMG_FLASH_PAGE_ERASE driver_const * T7_FLASH_PAGE_SIZE driver_const / 4
  in
  match
    readFlash bundle (T7_EFAdd_ExtFirmwareImage driver_const) numberOfIntegers
      (T7_FLASH_BLOCK_WRITE_SIZE driver_const) log
  with
  | (Resolved memoryContents, log') => (Resolved (VBundle bundle), log')
  | (Rejected err, log') => (Rejected err, log')
  | other => other
  end.

Definition readImageInformation (bundle : Bundle) (log : Log)
  : Outcome JsVal * Log :=
  let numberOfIntegers :=
    T7_HDR_FLASH_PAGE_ERASE driver_const * T7_FLASH_PAGE_SIZE driver_const / 4
  in
  match
    readFlash bundle (T7_EFAdd_ExtFirmwareImgInfo driver_const)
      numberOfIntegers (T7_FLASH_BLOCK_WRITE_SIZE driver_const) log
  with
  | (Resolved memoryContents, log') => (Resolved (VBundle bundle), log')
  | (Rejected err, log') => (Rejected err, log')
  | other => other
  end.

Definition EXPECTED_ZEROED_MEM_VAL : Z := 4294967295.

(** [memory.length] is [undefined] on a bundle, and then the loop of
    [isAllZeroed] has no iteration. *)
Definition isAllZeroed (memory : JsVal) : bool :=
  match memory with
  | VArray words => forallb (fun w => w =? EXPECTED_ZEROED_MEM_VAL) words
  | VBundle _ => true
  end.

(** A deferred is settled once: later calls of [resolve] and [reject] are
    ignored. *)
Definition settle {A : Type} (deferred : option (Outcome A)) (o : Outcome A)
  : option (Outcome A) :=
  match deferred with
  | Some s => Some s
  | None => Some o
  end.

Definition promise {A : Type} (deferred : option (Outcome A)) : Outcome A :=
  match deferred with
  | Some s => s
  | None => Pending
  end.

(** [checkIfZeroedThenContinue] settles a deferred of its own, which
    nobody holds, and returns nothing: this is how that deferred ends. *)
Definition checkIfZeroedThenContinue (memory : JsVal) : Outcome unit :=
  if isAllZeroed memory then Resolved tt else Rejected (Error "Not zeroed").

(** [checkErase].  After the first handler, and also after
    [deferred.reject] as an error handler (it returns nothing either), the
    chain goes on to [checkMemory(exports.readImage)].  Inside
    [checkMemory] a rejected read and a failed check leave [innerDeferred]
    unsettled, which stops the chain there. *)
Definition checkErase (bundle : Bundle) (log : Log) : Outcome JsVal * Log :=
  match readImageInformation bundle log with
  | (Thrown e, log1) => (Thrown e, log1)
  | (Diverged, log1) => (Diverged, log1)
  | (Pending, log1) => (Pending, log1)
  | (first, log1) =>
      let deferred1 :=
        match first with
        | Resolved memory =>
            let innerDeferred := checkIfZeroedThenContinue memory in None
        | Rejected err => settle None (Rejected err)
        | _ => None
        end in
      match readImage bundle log1 with
      | (Diverged, log2) => (Diverged, log2)
      | (Thrown e, log2) => (promise (settle deferred1 (Rejected e)), log2)
      | (Resolved memory, log2) =>
          if negb (isAllZeroed memory) then
            (promise (settle deferred1 (Rejected (Error "Memory not zeroed."))),
             log2)
          else (promise (settle deferred1 (Resolved (VBundle bundle))), log2)
      | (_, log2) => (promise deferred1, log2)
      end
  end.

Definition writeImage (bundle : Bundle) (log : Log) : Outcome JsVal * Log :=
  match firmwareImage bundle with
  | None => (Thrown TypeError, log)
  | Some image =>
      let numberOfIntegers := Z.of_nat (List.length image) / 4 in
      match
        writeFlash bundle (T7_EFAdd_ExtFirmwareImage driver_const)
          numberOfIntegers (T7_FLASH_BLOCK_WRITE_SIZE driver_const)
          (Some (T7_EFkey_ExtFirmwareImage driver_const)) (Some image) log
      with
      | (Resolved memoryContents, log') => (Resolved (VBundle bundle), log')
      | other => other
      end
  end.

(** The first index at which [bundleImage[i] != readImage[i]]; past the
    end of the buffer [bundleImage[i]] is [undefined], which differs from
    every number. *)
Fixpoint firstMismatch (bundleImage : list byte) (words : list Z) (i : nat)
  : option nat :=
  match words with
  | [] => None
  | w :: words' =>
      match bundleImage with
      | b :: rest =>
          if byteValue b =? w then firstMismatch rest words' (S i) else Some i
      | [] => Some i
      end
  end.

(** [checkImageWrite].  On a bundle [readImage.length] is [undefined] and
    the loop has no iteration.  With no image in the bundle the first
    iteration throws inside the handler and the deferred stays unsettled. *)
Definition checkImageWrite (bundle : Bundle) (log : Log)
  : Outcome JsVal * Log :=
  match readImage bundle log with
  | (Resolved (VBundle _), log') => (Resolved (VBundle bundle), log')
  | (Resolved (VArray words), log') =>
      match firmwareImage bundle, words with
      | None, _ :: _ => (Pending, log')
      | None, [] => (Resolved (VBundle bundle), log')
      | Some bundleImage, _ =>
          match firstMismatch bundleImage words 0 with
          | Some i =>
              (Rejected
                 (Error ("Unexpected image data at "
                         ++ decimal (Z.of_nat i))),
               log')
          | None => (Resolved (VBundle bundle), log')
          end
      end
  | (Rejected err, log') => (Rejected err, log')
  | other => other
  end.

(* ------------------------------------------------------------------ *)
(** ** [checkCompatibility] *)

Definition ALLOWED_IMAGE_INFO_DEVICE_TYPES : list Z :=
  [T7_TARGET_OLD driver_const; T7_TARGET driver_const].

(** [array.indexOf(x)]: the first index of [x], or [-1]. *)
Fixpoint indexOf (array : list Z) (x : Z) : Z :=
  match array with
  | [] => -1
  | y :: rest =>
      if y =? x then 0
      else let i := indexOf rest x in if i =? -1 then -1 else i + 1
  end.

(** The contained version is a string, and [==] turns it into the number
    it spells; no string equals [null]. *)
Definition checkCompatibility (bundle : Bundle) (log : Log)
  : Outcome JsVal * Log :=
  match firmwareImageInformation bundle with
  | None => (Thrown TypeError, log)
  | Some imageInformation =>
      let expectedHeaderCode := T7_HEAD_FIRST_FOUR_BYTES driver_const in
      let firmwareVersion := version bundle in
      let headerCodeCorrect :=
        headerCode imageInformation =? expectedHeaderCode in
      let intendedDeviceCorrect :=
        negb (indexOf ALLOWED_IMAGE_INFO_DEVICE_TYPES
                (intendedDevice imageInformation) =? -1) in
      let versionCorrect :=
        match firmwareVersion with
        | Some v => num_eqb (spelled (containedVersion imageInformation)) v
        | None => false
        end in
      if headerCodeCorrect && intendedDeviceCorrect && versionCorrect then
        (Resolved (VBundle bundle), log)
      else if negb headerCodeCorrect then
        (Rejected (Error "Invalid header code."), log)
      else if negb intendedDeviceCorrect then
        (Rejected (Error "Incorrect device type."), log)
      else (Rejected (Error "Incorrect version."), log)
  end.

(* ------------------------------------------------------------------ *)
(** ** [readFirmwareFile] *)

Definition readUInt16BE (buffer : list byte) (offset : Z) : option Z :=
  if offset <? 0 then None
  else
    match skipn (Z.to_nat offset) buffer with
    | b0 :: b1 :: _ => Some (byteValue b0 * 256 + byteValue b1)
    | _ => None
    end.

Definition readFloatBE (buffer : list byte) (offset : Z) : option JsNum :=
  option_map decodeFloat32 (readUInt32BE buffer offset).

Definition toFixed4 (x : JsNum) : NumericString :=
  {| spelled := rounded (roundFixed4 x) |}.

Definition bindOption {A B : Type} (o : option A) (f : A -> option B)
  : option B :=
  match o with
  | Some a => f a
  | None => None
  end.

Notation "'do' x <- o ; k" := (bindOption o (fun x => k))
  (at level 10, x name, o at level 100, k at level 200).

(** The object literal of [readFirmwareFile]; [None] when one of the reads
    runs past the end of the file. *)
Definition parseImageInformation (imageFile : list byte)
  : option ImageInformation :=
  do code <- readUInt32BE imageFile (HEADER_CODE driver_const);
  do target <- readUInt32BE imageFile (HEADER_TARGET driver_const);
  do contained <- readFloatBE imageFile (HEADER_VERSION driver_const);
  do required <- readFloatBE imageFile (HEADER_REQ_LJSU driver_const);
  do number <- readUInt16BE imageFile (HEADER_IMAGE_NUM driver_const);
  do count <- readUInt16BE imageFile (HEADER_NUM_IMAGES driver_const);
  do next <- readUInt32BE imageFile (HEADER_NEXT_IMG driver_const);
  do len <- readUInt32BE imageFile (HEADER_IMG_LEN driver_const);
  do offset <- readUInt32BE imageFile (HEADER_IMG_OFFSET driver_const);
  do shaBytes <- readUInt32BE imageFile (HEADER_SHA_BYTE_COUNT driver_const);
  do opts <- readUInt32BE imageFile 72;
  do encrypted <- readUInt32BE imageFile (HEADER_ENC_SHA1 driver_const);
  do unencrypted <- readUInt32BE imageFile (HEADER_SHA1 driver_const);
  do checksum <- readUInt32BE imageFile (HEADER_CHECKSUM driver_const);
  Some {| rawImageInfo := firstn 128 imageFile;
          headerCode := code;
          intendedDevice := target;
          containedVersion := toFixed4 contained;
          requiredUpgraderVersion := toFixed4 required;
          imageNumber := number;
          numImgInFile := count;
          startNextImg := next;
          lenOfImg := len;
          imgOffset := offset;
          numBytesInSHA := shaBytes;
          options := opts;
          encryptedSHA := encrypted;
          unencryptedSHA := unencrypted;
          headerChecksum := checksum |}.

(** The version that [readFirmwareFile] takes from the path. *)
Definition versionOfPath (fileSrc : string) : JsNum :=
  let versionStr := nth_error (split "_" fileSrc) 1 in
  num_div
    (match versionStr with
     | Some str => Number str
     | None => NaN
     end)
    10000.

(** [readFirmwareFile], given what [fs.readFile] hands to its callback: an
    error, or the contents of the file.  The callback does not look at
    the error; [new Buffer(undefined)] throws in the callback, and so does
    a read past the end of the file: the deferred is then never
    settled. *)
Definition readFirmwareFile (fileSrc : string) (file : JsError + list byte)
  : Outcome Bundle :=
  match file with
  | inl err => Pending
  | inr imageFile =>
      match parseImageInformation imageFile with
      | None => Pending
      | Some imageInformation =>
          Resolved
            {| firmwareImageInformation := Some imageInformation;
               firmwareImage := Some (skipn 128 imageFile);
               device := None;
               version := Some (versionOfPath fileSrc);
               serial := None |}
      end
  end.

End Upgrade.

(* ------------------------------------------------------------------ *)
(** ** What the transactions say *)

(** Every frame before the window frame carries one value, so the value
    written to the pointer register sits at the index of its frame. *)
Definition pointerValue (f : Frames) : option Value :=
  nth_error (values f) (List.length (numValues f) - 2).

(** The count of the window frame, the last one. *)
Definition windowCount (f : Frames) : Z := last (numValues f) 0.

Definition acknowledges (dev : Device) : Prop :=
  forall log, exists results, dev log = Ack results.

(* ------------------------------------------------------------------ *)
(** ** Devices, constants and files to run the model on *)

(** A small flash: one header page and two image pages of 32 bytes.  The
    register numbers, keys and tags are arbitrary. *)
Definition testConst : DriverConst :=
  {| T7_MA_EXF_KEY := 61800;
     T7_MA_EXF_ERASE := 61820;
     T7_MA_EXF_pWRITE := 61830;
     T7_MA_EXF_WRITE := 61832;
     T7_MA_EXF_pREAD := 61810;
     T7_MA_EXF_READ := 61812;
     T7_FLASH_PAGE_SIZE := 32;
     T7_FLASH_BLOCK_WRITE_SIZE := 8;
     T7_EFAdd_ExtFirmwareImage := 4096;
     T7_EFAdd_ExtFirmwareImgInfo := 8192;
     T7_EFkey_ExtFirmwareImage := 1001;
     T7_EFkey_ExtFirmwareImgInfo := 1002;
     T7_IMG_FLASH_PAGE_ERASE := 2;
     T7_HDR_FLASH_PAGE_ERASE := 1;
     T7_HEAD_FIRST_FOUR_BYTES := 1279936088;
     T7_TARGET_OLD := 100017001;
     T7_TARGET := 100007001;
     HEADER_CODE := 0;
     HEADER_TARGET := 4;
     HEADER_VERSION := 8;
     HEADER_REQ_LJSU := 12;
     HEADER_IMAGE_NUM := 16;
     HEADER_NUM_IMAGES := 18;
     HEADER_NEXT_IMG := 20;
     HEADER_IMG_LEN := 24;
     HEADER_IMG_OFFSET := 28;
     HEADER_SHA_BYTE_COUNT := 32;
     HEADER_ENC_SHA1 := 76;
     HEADER_SHA1 := 96;
     HEADER_CHECKSUM := 124 |}.

(** The values an [rwMany] call asks to read. *)
Fixpoint readCount (dirs : list Direction) (counts : list Z) : Z :=
  match dirs, counts with
  | LJM_READ :: dirs', n :: counts' => n + readCount dirs' counts'
  | LJM_WRITE :: dirs', _ :: counts' => readCount dirs' counts'
  | _, _ => 0
  end.

(** A device that acknowledges everything and reads [word] everywhere. *)
Definition constantDevice (word : Z) : Device :=
  fun log =>
    match last log (CWriteMany [] []) with
    | CRwMany f =>
        Ack (repeat word (Z.to_nat (readCount (directions f) (numValues f))))
    | CWriteMany _ _ => Ack []
    end.

(** A device that answers its n-th call with the n-th reply of a script,
    and acknowledges with nothing after that. *)
Definition scriptedDevice (script : list Reply) : Device :=
  fun log => nth (List.length log - 1) script (Ack []).

Definition bundleWith (dev : Device) : Bundle :=
  {| firmwareImageInformation := None;
     firmwareImage := None;
     device := Some dev;
     version := None;
     serial := None |}.

Definition bundleWithImage (dev : Device) (image : list byte) : Bundle :=
  {| firmwareImageInformation := None;
     firmwareImage := Some image;
     device := Some dev;
     version := None;
     serial := None |}.

(** [n] bytes counting up from [from]. *)
Fixpoint countingBytes (n : nat) (from : nat) : list byte :=
  match n with
  | O => []
  | S n' =>
      match Byte.of_nat (from mod 256) with
      | Some b => b :: countingBytes n' (S from)
      | None => countingBytes n' (S from)
      end
  end.

(** Image information with the three fields the gate looks at. *)
Definition informationWith (code target : Z) (contained : JsNum)
  : ImageInformation :=
  {| rawImageInfo := [];
     headerCode := code;
     intendedDevice := target;
     containedVersion := {| spelled := contained |};
     requiredUpgraderVersion := {| spelled := fin 0 |};
     imageNumber := 0;
     numImgInFile := 1;
     startNextImg := 0;
     lenOfImg := 0;
     imgOffset := 128;
     numBytesInSHA := 0;
     options := 0;
     encryptedSHA := 0;
     unencryptedSHA := 0;
     headerChecksum := 0 |}.

(** A firmware file: a header that starts with the code and the tag of
    [testConst] and the single 1.0067 (0x3F80DB8C), followed by one word
    of image. *)
Definition sampleFile : list byte :=
  [x4c; x4a; x46; x58; x05; xf5; xfc; x59; x3f; x80; xdb; x8c]
  ++ repeat x00 116 ++ [xde; xad; xbe; xef].

(** What [readFirmwareFile] reads in the header of [sampleFile]. *)
Definition sampleInformation : ImageInformation :=
  {| rawImageInfo := firstn 128 sampleFile;
     headerCode := 1279936088;
     intendedDevice := 100007001;
     containedVersion := {| spelled := binary64 (10067 # 10000) |};
     requiredUpgraderVersion := {| spelled := fin 0 |};
     imageNumber := 0;
     numImgInFile := 0;
     startNextImg := 0;
     lenOfImg := 0;
     imgOffset := 0;
     numBytesInSHA := 0;
     options := 0;
     encryptedSHA := 0;
     unencryptedSHA := 0;
     headerChecksum := 0 |}.

(* ------------------------------------------------------------------ *)
(** ** Decimal integers, as the file name convention has them *)

Definition isDigit (c : ascii) : bool :=
  let n := nat_of_ascii c in ((48 <=? n) && (n <=? 57))%nat.

(** A non-empty string of decimal digits. *)
Definition decimalInteger (s : string) : Prop :=
  s <> EmptyString
  /\ forallb isDigit (list_ascii_of_string s) = true.

(** The integer such a string spells. *)
Definition decimalValue (s : string) : Z :=
  fold_left (fun acc c => acc * 10 + (Z.of_nat (nat_of_ascii c) - 48))
    (list_ascii_of_string s) 0.

(* ------------------------------------------------------------------ *)
(** ** Describing the chunk list *)

(** The call a closure of the chunk list makes when it runs. *)
Definition rwManyCall (dc : DriverConst) (key : option Z) (isReadOp : bool)
    (ptrAddress flashAddress : Z) (e : Execution) : Call :=
  CRwMany (executionFrames dc key isReadOp ptrAddress flashAddress e).

(** What the i-th closure of a run of full chunks captured, the run
    starting at flash address [addr] and at byte [offset] of the data. *)
Definition fullChunkAt (isReadOp : bool) (size : Z)
    (data : option (list byte)) (addr offset : Z) (i : nat) (e : Execution)
  : Prop :=
  exAddress e = addr + Z.of_nat i * (size * 4)
  /\ exInnerSize e = size
  /\ (if isReadOp then exWriteValues e = None
      else exists ws, getdata data 8 (offset + 32 * Z.of_nat i) = inr ws
                      /\ exWriteValues e = Some ws).

(** What the i-th closure of the whole list captured: its address and
    size, and for a write the words that [getdata] cut out for it. *)
Definition chunkAt (start len size : Z) (isReadOp : bool)
    (data : option (list byte)) (i : nat) (e : Execution) : Prop :=
  exAddress e = start + Z.of_nat i * (size * 4)
  /\ exInnerSize e = (if Z.of_nat i <? len / size then size else len mod size)
  /\ (if isReadOp then exWriteValues e = None
      else exists ws,
          exWriteValues e = Some ws
          /\ (if Z.of_nat i <? len / size
              then getdata data 8 (32 * Z.of_nat i)
              else getdata data (len mod size) (32 * (len / size))) = inr ws).

(* ------------------------------------------------------------------ *)
(** ** Describing the erase and the words written *)

(** The call that erases the page [page] of a region. *)
Definition pageWrite (dc : DriverConst) (key startAddress : Z) (page : nat)
  : Call :=
  CWriteMany [T7_MA_EXF_KEY dc; T7_MA_EXF_ERASE dc]
    [key; startAddress + Z.of_nat page * T7_FLASH_PAGE_SIZE dc].

(** The calls that erase the first [numPages] pages of a region. *)
Definition pageWrites (dc : DriverConst) (key startAddress : Z)
    (numPages : nat) : list Call :=
  map (pageWrite dc key startAddress) (seq 0 numPages).

(** The values of the window frame: every frame before it carries one
    value. *)
Definition windowValues (f : Frames) : list Value :=
  skipn (List.length (numValues f) - 1) (values f).

(** The values a call hands to the window register. *)
Definition wordsWritten (c : Call) : list Value :=
  match c with
  | CRwMany f => windowValues f
  | CWriteMany _ _ => []
  end.

(** The big-endian words of a buffer, a rest of fewer than four bytes left
    out. *)
Fixpoint words (buffer : list byte) : list Z :=
  match buffer with
  | b0 :: b1 :: b2 :: b3 :: rest =>
      (((byteValue b0 * 256 + byteValue b1) * 256 + byteValue b2) * 256
       + byteValue b3)
      :: words rest
  | _ => []
  end.

(* ------------------------------------------------------------------ *)
(** ** The stages that erase and write the two regions *)

Section Regions.

Context (driver_const : DriverConst).

Definition eraseImage (bundle : Bundle) (log : Log) : Outcome JsVal * Log :=
  match
    eraseFlash driver_const bundle (T7_EFAdd_ExtFirmwareImage driver_const)
      (T7_IMG_FLASH_PAGE_ERASE driver_const)
      (T7_EFkey_ExtFirmwareImage driver_const) log
  with
  | (Resolved _, log') => (Resolved (VBundle bundle), log')
  | (Rejected err, log') => (Rejected err, log')
  | (Pending, log') => (Pending, log')
  | (Thrown e, log') => (Thrown e, log')
  | (Diverged, log') => (Diverged, log')
  end.

Definition eraseImageInformation (bundle : Bundle) (log : Log)
  : Outcome JsVal * Log :=
  match
    eraseFlash driver_const bundle (T7_EFAdd_ExtFirmwareImgInfo driver_const)
      (T7_HDR_FLASH_PAGE_ERASE driver_const)
      (T7_EFkey_ExtFirmwareImgInfo driver_const) log
  with
  | (Resolved _, log') => (Resolved (VBundle bundle), log')
  | (Rejected err, log') => (Rejected err, log')
  | (Pending, log') => (Pending, log')
  | (Thrown e, log') => (Thrown e, log')
  | (Diverged, log') => (Diverged, log')
  end.

(** The byte count of the header is taken to be a multiple of four, as
    that of the image in [writeImage]. *)
Definition writeImageInformation (bundle : Bundle) (log : Log)
  : Outcome JsVal * Log :=
  match firmwareImageInformation bundle with
  | None => (Thrown TypeError, log)
  | Some information =>
      let rawImageInfo := rawImageInfo information in
      let numberOfIntegers := Z.of_nat (List.length rawImageInfo) / 4 in
      match
        writeFlash driver_const bundle
          (T7_EFAdd_ExtFirmwareImgInfo driver_const) numberOfIntegers
          (T7_FLASH_BLOCK_WRITE_SIZE driver_const)
          (Some (T7_EFkey_ExtFirmwareImgInfo driver_const))
          (Some rawImageInfo) log
      with
      | (Resolved memoryContents, log') => (Resolved (VBundle bundle), log')
      | other => other
      end
  end.

End Regions.

(* ------------------------------------------------------------------ *)
(** ** Restart, re-enumeration and the check of the new firmware *)

(** The two further constants of [driver_const] that [restartAndUpgrade]
    uses. *)
Record RestartConst := {
  T7_MA_REQ_FWUPG : Z;
  T7_REQUEST_FW_UPGRADE : Z
}.

(** The calls of the pipeline that are no flash calls, in the order in
    which they are made. *)
Inductive HostEvent :=
| DeviceReadSync (name : string)
| DeviceWrite (address value : Z)
| DeviceCloseSync
| TimerSet (delay : Z)
| DriverListAll (deviceType connectionType : string)
| DeviceOpenSync (deviceType connectionType : string) (identifier : Z)
| DeviceRead (name : string).

Definition Trace := list HostEvent.

(** What those calls answer.  Each of them is made at most once in a run of
    the pipeline, but for [listAll], which is made once per poll: its
    answers are listed in order, and the list ends where the observation
    of the run ends. *)
Record Host := {
  serialNumberRead : JsError + Z;
  upgradeRequest : option positive;
  closing : option JsError;
  listings : list (positive + list Z);
  opening : JsError + Device;
  firmwareVersionRead : positive + JsNum
}.

Definition EXPECTED_REBOOT_WAIT : Z := 5000.

Definition setDevice (bundle : Bundle) (newDevice : Device) : Bundle :=
  {| firmwareImageInformation := firmwareImageInformation bundle;
     firmwareImage := firmwareImage bundle;
     device := Some newDevice;
     version := version bundle;
     serial := serial bundle |}.

Definition setSerialNumber (bundle : Bundle) (newSerial : Z) : Bundle :=
  {| firmwareImageInformation := firmwareImageInformation bundle;
     firmwareImage := firmwareImage bundle;
     device := device bundle;
     version := version bundle;
     serial := Some newSerial |}.

Section Restart.

Context (driver_const : RestartConst) (host : Host).

(** [restartAndUpgrade].  An exception of [closeSync] is thrown inside the
    callback of [write], and the deferred stays unsettled. *)
Definition restartAndUpgrade (bundle : Bundle) (trace : Trace)
  : Outcome JsVal * Trace :=
  match device bundle with
  | None => (Thrown TypeError, trace)
  | Some device =>
      let trace1 :=
        trace ++ [DeviceWrite (T7_MA_REQ_FWUPG driver_const)
                    (T7_REQUEST_FW_UPGRADE driver_const)] in
      match upgradeRequest host with
      | Some err => (Rejected (LinkError err), trace1)
      | None =>
          let trace2 := trace1 ++ [DeviceCloseSync] in
          match closing host with
          | Some e => (Pending, trace2)
          | None => (Resolved (VBundle bundle), trace2)
          end
      end
  end.

(** [serialNumbers.indexOf(targetSerial) != -1]; no serial number is
    [null]. *)
Definition listed (targetSerial : option Z) (serialNumbers : list Z) : bool :=
  match targetSerial with
  | Some target => negb (indexOf serialNumbers target =? -1)
  | None => false
  end.

(** [checkForDevice], run when its timer fires, on the answers of
    [listAll] still to come.  The promise of [getAllConnectedSerials] has
    no handler for a rejection, and an exception of [openSync] is thrown
    inside the handler of that promise: in both cases nothing happens any
    more. *)
Fixpoint checkForDevice (bundle : Bundle) (targetSerial : option Z)
    (answers : list (positive + list Z)) (trace : Trace)
  : Outcome JsVal * Trace :=
  match answers with
  | [] => (Pending, trace)
  | answer :: later =>
      let trace1 := trace ++ [DriverListAll "LJM_dtT7" "LJM_ctUSB"] in
      match answer with
      | inl err => (Pending, trace1)
      | inr serialNumbers =>
          if listed targetSerial serialNumbers then
            let trace2 :=
              trace1
              ++ match targetSerial with
                 | Some target =>
                     [DeviceOpenSync "LJM_dtT7" "LJM_ctUSB" target]
                 | None => []
                 end in
            match opening host with
            | inl e => (Pending, trace2)
            | inr newDevice =>
                (Resolved (VBundle (setDevice bundle newDevice)), trace2)
            end
          else
            checkForDevice bundle targetSerial later
              (trace1 ++ [TimerSet EXPECTED_REBOOT_WAIT])
      end
  end.

Definition waitForEnumeration (bundle : Bundle) (trace : Trace)
  : Outcome JsVal * Trace :=
  let targetSerial := serial bundle in
  checkForDevice bundle targetSerial (listings host)
    (trace ++ [TimerSet EXPECTED_REBOOT_WAIT]).

(** [checkNewFirmware]; [!=] on a version that is [null] holds for every
    number. *)
Definition checkNewFirmware (bundle : Bundle) (trace : Trace)
  : Outcome JsVal * Trace :=
  match device bundle with
  | None => (Thrown TypeError, trace)
  | Some device =>
      let trace1 := trace ++ [DeviceRead "FIRMWARE_VERSION"] in
      match firmwareVersionRead host with
      | inl err => (Rejected (LinkError err), trace1)
      | inr firmwareVersion =>
          if negb match version bundle with
                  | Some v => num_eqb v firmwareVersion
                  | None => false
                  end
          then
            (Rejected
               (Error "New firmware version does not reflect upgrade."),
             trace1)
          else (Resolved (VBundle bundle), trace1)
      end
  end.

End Restart.

(** What [n] polls that do not find the device leave in the trace. *)
Definition polls (n : nat) : Trace :=
  List.concat
    (repeat [DriverListAll "LJM_dtT7" "LJM_ctUSB";
             TimerSet EXPECTED_REBOOT_WAIT] n).

(* ------------------------------------------------------------------ *)
(** ** [updateFirmware] *)

(** The flash calls and the other calls made so far. *)
Record World := {
  flashLog : Log;
  hostTrace : Trace
}.

Definition Stage := Bundle -> World -> Outcome JsVal * World.

Definition onFlash (stage : Bundle -> Log -> Outcome JsVal * Log) : Stage :=
  fun bundle w =>
    let '(outcome, log) := stage bundle (flashLog w) in
    (outcome, {| flashLog := log; hostTrace := hostTrace w |}).

Definition onHost (stage : Bundle -> Trace -> Outcome JsVal * Trace) : Stage :=
  fun bundle w =>
    let '(outcome, trace) := stage bundle (hostTrace w) in
    (outcome, {| flashLog := flashLog w; hostTrace := trace |}).

(** A point of the chain of [updateFirmware]: the promise the chain has
    reached, the deferred of [updateFirmware] itself, and the calls made. *)
Record Chain := {
  reached : Outcome JsVal;
  answer : option (Outcome JsError);
  world : World
}.

(** [promise.then(stage, reportError)].  A stage that throws rejects the
    promise that [then] returns; [reportError] rejects the deferred of
    [updateFirmware] and throws the error on. *)
Definition thenStage (chain : Chain) (stage : Stage) : Chain :=
  match reached chain with
  | Resolved (VBundle bundle) =>
      match stage bundle (world chain) with
      | (Thrown e, w) =>
          {| reached := Rejected e; answer := answer chain; world := w |}
      | (outcome, w) =>
          {| reached := outcome; answer := answer chain; world := w |}
      end
  | Resolved (VArray _) =>
      {| reached := Rejected TypeError;
         answer := answer chain;
         world := world chain |}
  | Rejected error =>
      {| reached := Rejected error;
         answer := settle (answer chain) (Rejected error);
         world := world chain |}
  | _ => chain
  end.

Section Pipeline.

Context (driver_const : DriverConst) (restart_const : RestartConst)
        (host : Host).

(** [injectDevice]: an exception of [readSync] is thrown inside the
    handler. *)
Definition injectDevice (device : Device) (bundle : Bundle) (trace : Trace)
  : Outcome JsVal * Trace :=
  let trace1 := trace ++ [DeviceReadSync "SERIAL_NUMBER"] in
  match serialNumberRead host with
  | inl e => (Thrown e, trace1)
  | inr serialNumber =>
      (Resolved (VBundle (setDevice (setSerialNumber bundle serialNumber)
                            device)),
       trace1)
  end.

(** The stages of the chain, in order. *)
Definition stages (device : Device) : list Stage :=
  [onHost (injectDevice device);
   onFlash (checkCompatibility driver_const);
   onFlash (eraseImage driver_const);
   onFlash (eraseImageInformation driver_const);
   onFlash (checkErase driver_const);
   onFlash (writeImage driver_const);
   onFlash (writeImageInformation driver_const);
   onFlash (checkImageWrite driver_const);
   onHost (restartAndUpgrade restart_const host);
   onHost (waitForEnumeration host);
   onHost (checkNewFirmware host)].

(** [updateFirmware], given what [fs.readFile] hands to the callback of
    [readFirmwareFile].  The last link of the chain is
    [fail(deferred.resolve, reportError)], and [fail] takes one handler:
    the deferred is resolved with the error the chain ends with, unless it
    was rejected before, and nothing settles it when the chain ends
    well. *)
Definition updateFirmware (device : Device) (firmwareFileLocation : string)
    (file : JsError + list byte) (w : World) : Outcome JsError * World :=
  let first :=
    match readFirmwareFile driver_const firmwareFileLocation file with
    | Resolved bundle => Resolved (VBundle bundle)
    | Rejected err => Rejected err
    | Pending => Pending
    | Thrown e => Thrown e
    | Diverged => Diverged
    end in
  let chain :=
    fold_left thenStage (stages device)
      {| reached := first; answer := None; world := w |} in
  match reached chain with
  | Rejected error =>
      (promise (settle (answer chain) (Resolved error)), world chain)
  | Diverged => (Diverged, world chain)
  | Thrown e => (Thrown e, world chain)
  | _ => (promise (answer chain), world chain)
  end.

End Pipeline.

(** A deferred that has not been resolved: it is unsettled or
    rejected. *)
Definition unresolved (deferred : option (Outcome JsError)) : Prop :=
  deferred = None \/ exists e, deferred = Some (Rejected e).

(* ------------------------------------------------------------------ *)
(** ** A host to run the pipeline on *)

Definition testRestartConst : RestartConst :=
  {| T7_MA_REQ_FWUPG := 61996;
     T7_REQUEST_FW_UPGRADE := 1279869267 |}.

(** A host on which everything goes well for the device with the serial
    number 470010001, given the answers of [listAll]; the device comes
    back as one that reads 1 everywhere, with the firmware 1.0067. *)
Definition testHost (answers : list (positive + list Z)) : Host :=
  {| serialNumberRead := inr 470010001;
     upgradeRequest := None;
     closing := None;
     listings := answers;
     opening := inr (constantDevice 1);
     firmwareVersionRead := inr (binary64 (10067 # 10000)) |}.

(** A bundle with a device and a serial number, and nothing else. *)
Definition bundleOf (dev : Device) (serialNumber : Z) : Bundle :=
  {| firmwareImageInformation := None;
     firmwareImage := None;
     device := Some dev;
     version := None;
     serial := Some serialNumber |}.

(* ================================================================== *)
(** * Properties *)

(** ** [range] and [eraseFlash] *)

(** Counting up by one, the fuel [stop - i] is enough. *)
Lemma range_loop_up :
  forall fuel i stop result,
    Z.of_nat fuel = stop - i ->
    range_loop fuel i stop 1 result
    = Some (result ++ map (fun k => i + Z.of_nat k) (seq 0 fuel)).
Proof.
  induction fuel as [| fuel IH]; intros i stop result Hfuel;
    cbn [range_loop].
  - replace (i <? stop) with false by (symmetry; apply Z.ltb_ge; lia).
    cbn. rewrite app_nil_r. reflexivity.
  - replace (i <? stop) with true by (symmetry; apply Z.ltb_lt; lia).
    cbn [Z.gtb Z.compare]. rewrite (IH (i + 1) stop) by lia.
    rewrite <- app_assoc. cbn [seq map app].
    rewrite <- seq_shift, map_map. do 3 f_equal.
    + lia.
    + apply map_ext. intros k. lia.
Qed.

(** [range(n)] is [0, 1, ..., n - 1]: the loop always ends. *)
Lemma range_pages :
  forall n, range n None None = Some (map Z.of_nat (seq 0 (Z.to_nat n))).
Proof.
  intros n. unfold range. cbn [Z.gtb Z.ltb Z.compare andb orb].
  destruct (Z.geb_spec 0 n) as [Hle | Hgt].
  - replace (Z.to_nat n) with 0%nat by lia. reflexivity.
  - rewrite (range_loop_up (Z.abs_nat (n - 0)) 0 n []) by lia.
    cbn [app]. replace (Z.abs_nat (n - 0)) with (Z.to_nat n) by lia.
    reflexivity.
Qed.

(** With a step that is not zero the loop of [range] ends. *)
Lemma range_loop_terminates :
  forall fuel i stop step result,
    step <> 0 ->
    (if step >? 0 then stop - i else i - stop) <= Z.of_nat fuel ->
    exists l, range_loop fuel i stop step result = Some l.
Proof.
  induction fuel as [| fuel IH]; intros i stop step result Hstep Hfuel;
    cbn [range_loop]; rewrite Z.gtb_ltb in *.
  - destruct (Z.ltb_spec 0 step).
    + replace (i <? stop) with false by (symmetry; apply Z.ltb_ge; lia).
      eauto.
    + rewrite Z.gtb_ltb.
      replace (stop <? i) with false by (symmetry; apply Z.ltb_ge; lia).
      eauto.
  - destruct (if (if 0 <? step then i <? stop else i >? stop) then true
              else false) eqn:Hcond.
    + destruct (if 0 <? step then i <? stop else i >? stop); [| discriminate].
      apply IH; [assumption |]. rewrite Z.gtb_ltb.
      destruct (Z.ltb_spec 0 step); lia.
    + destruct (if 0 <? step then i <? stop else i >? stop); [discriminate |].
      eauto.
Qed.

Lemma range_terminates :
  forall start stop step,
    step <> 0 -> exists l, range start (Some stop) (Some step) = Some l.
Proof.
  intros start stop step Hstep. unfold range.
  destruct (_ || _); [eauto |].
  apply range_loop_terminates; [assumption |].
  destruct (step >? 0); lia.
Qed.

(** On a device that acknowledges, [eraseFlash] writes the key and the
    address of one page after the other, and resolves with the bundle. *)
Lemma eraseFlash_pages :
  forall dc bundle dev startAddress numPages key log,
    device bundle = Some dev -> acknowledges dev ->
    eraseFlash dc bundle startAddress numPages key log
    = (Resolved bundle,
       log ++ map (fun page =>
                     CWriteMany [T7_MA_EXF_KEY dc; T7_MA_EXF_ERASE dc]
                       [key;
                        startAddress
                        + Z.of_nat page * T7_FLASH_PAGE_SIZE dc])
                (seq 0 (Z.to_nat numPages))).
Proof.
  intros dc bundle dev startAddress numPages key log Hdev Hack.
  unfold eraseFlash. rewrite range_pages, Hdev.
  generalize (seq 0 (Z.to_nat numPages)) as pages. intros pages.
  revert log. induction pages as [| page pages IH]; intros log.
  - cbn. rewrite app_nil_r. reflexivity.
  - cbn [map eachSeries].
    destruct (Hack (log ++ [CWriteMany [T7_MA_EXF_KEY dc; T7_MA_EXF_ERASE dc]
                              [key;
                               startAddress
                               + Z.of_nat page * T7_FLASH_PAGE_SIZE dc]]))
      as [results ->].
    rewrite IH, <- app_assoc. reflexivity.
Qed.

(** Two pages of the test flash. *)
Example eraseFlash_two_pages :
  eraseFlash testConst (bundleWith (constantDevice 0)) 4096 2 1001 []
  = (Resolved (bundleWith (constantDevice 0)),
     [CWriteMany [61800; 61820] [1001; 4096];
      CWriteMany [61800; 61820] [1001; 4128]]).
Proof. reflexivity. Qed.

(** C10.  Erasing zero pages: [eraseFlash] with [numPages = 0] makes no
    call on the device (the log is left as it was) and resolves with the
    bundle it was given. *)
Theorem eraseFlash_zero_pages :
  forall dc bundle startAddress key log,
    eraseFlash dc bundle startAddress 0 key log = (Resolved bundle, log).
Proof. reflexivity. Qed.

(** ** The chunk list *)

Lemma ceil_div (len size : Z) :
  0 <= len -> 1 <= size ->
  (len + size - 1) / size = len / size + (if len mod size =? 0 then 0 else 1).
Proof.
  intros Hlen Hsize.
  pose proof (Z.div_mod len size ltac:(lia)) as Hdm.
  pose proof (Z.mod_pos_bound len size ltac:(lia)) as Hb.
  destruct (Z.eqb_spec (len mod size) 0) as [Hz | Hnz].
  - symmetry; apply Z.div_unique with (r := size - 1); [lia | nia].
  - symmetry; apply Z.div_unique with (r := len mod size - 1); [lia | nia].
Qed.

Section Chunks.

Variables (isReadOp : bool) (size : Z) (data : option (list byte)).

Lemma fullChunks_spec :
  forall n ops addr offset ops' addr' offset',
    fullChunks n isReadOp size data ops addr offset
    = inr (ops', addr', offset') ->
    exists chunks,
      ops' = ops ++ chunks
      /\ List.length chunks = n
      /\ addr' = addr + Z.of_nat n * (size * 4)
      /\ offset' = offset + 32 * Z.of_nat n
      /\ forall i e,
          nth_error chunks i = Some e ->
          fullChunkAt isReadOp size data addr offset i e.
Proof.
  induction n as [| n IH]; intros ops addr offset ops' addr' offset' H.
  - cbn in H. inversion H; subst. exists []. rewrite app_nil_r.
    repeat apply conj; try reflexivity; try (cbn; lia).
    intros [| i] e Hi; discriminate.
  - cbn [fullChunks] in H.
    destruct (if isReadOp then _ else _) as [err | execution] eqn:Hex in H;
      [discriminate |].
    apply IH in H. destruct H as (chunks & -> & Hlen & -> & -> & Hnth).
    exists (execution :: chunks). rewrite <- app_assoc. cbn [app List.length].
    repeat apply conj; try reflexivity; try lia.
    intros [| i] e Hi.
    + cbn in Hi. inversion Hi; subst e. unfold fullChunkAt.
      destruct isReadOp.
      * inversion Hex; subst.
        cbn [exAddress exInnerSize exWriteValues createExecution].
        repeat apply conj; try reflexivity; lia.
      * destruct (getdata data 8 offset) as [err | ws] eqn:Hg; [discriminate |].
        inversion Hex; subst.
        cbn [exAddress exInnerSize exWriteValues createExecution].
        repeat apply conj; try reflexivity; try lia.
        exists ws. split; [| reflexivity].
        rewrite <- Hg. f_equal. lia.
    + cbn in Hi. apply Hnth in Hi. unfold fullChunkAt in *.
      destruct Hi as (Ha & Hs & Hw). repeat apply conj; try lia.
      destruct isReadOp; [assumption |].
      destruct Hw as (ws & Hg & Hw). exists ws. split; [| assumption].
      rewrite <- Hg. f_equal. lia.
Qed.

Lemma fullChunks_read_total :
  isReadOp = true ->
  forall n ops addr offset,
    exists r, fullChunks n isReadOp size data ops addr offset = inr r.
Proof.
  intros ->. induction n as [| n IH]; intros ops addr offset; cbn.
  - eauto.
  - apply IH.
Qed.

End Chunks.

Lemma executeOperations_spec :
  forall start len size isReadOp data ops,
    1 <= len -> 1 <= size ->
    executeOperations start len size isReadOp data = inr ops ->
    Z.of_nat (List.length ops) = (len + size - 1) / size
    /\ forall i e, nth_error ops i = Some e ->
                   chunkAt start len size isReadOp data i e.
Proof.
  intros start len size isReadOp data ops Hlen Hsize H.
  unfold executeOperations in H.
  rewrite Z.rem_mod_nonneg in H by lia.
  pose proof (Z.div_pos len size ltac:(lia) ltac:(lia)) as Hq.
  pose proof (Z.mod_pos_bound len size ltac:(lia)) as Hr.
  destruct (fullChunks _ _ _ _ _ _ _) as [err | [[full addr] offset]] eqn:Hfull;
    [discriminate |].
  apply fullChunks_spec in Hfull.
  destruct Hfull as (chunks & -> & Hn & -> & -> & Hnth).
  cbn [app] in H. rewrite Z2Nat.id in * by lia.
  rewrite ceil_div by lia.
  assert (Hfullchunk : forall i e, nth_error chunks i = Some e ->
            chunkAt start len size isReadOp data i e).
  { intros i e Hi.
    assert (Hi' : (i < List.length chunks)%nat)
      by (apply nth_error_Some; congruence).
    apply Hnth in Hi. destruct Hi as (Ha & Hs & Hw).
    unfold chunkAt.
    replace (Z.of_nat i <? len / size) with true
      by (symmetry; apply Z.ltb_lt; lia).
    repeat apply conj; try assumption.
    destruct isReadOp; [assumption |].
    destruct Hw as (ws & Hg & Hw). exists ws. split; [assumption |].
    rewrite <- Hg. f_equal. }
  rewrite !Z.gtb_ltb in H.
  destruct (Z.eqb_spec (len mod size) 0) as [Hz | Hnz];
    destruct (Z.ltb_spec 0 (len mod size)) as [Hpos | Hnpos]; try lia.
  - cbn [andb] in H. inversion H; subst ops.
    split; [lia | assumption].
  - cbn [andb] in H.
    destruct (if isReadOp then _ else _) as [err | execution] eqn:Hex in H;
      [discriminate |].
    inversion H; subst ops. rewrite length_app. cbn [List.length].
    split; [lia |].
    intros i e Hi.
    destruct (Nat.lt_ge_cases i (List.length chunks)) as [Hlt | Hge].
    + rewrite nth_error_app1 in Hi by assumption. auto.
    + rewrite nth_error_app2 in Hi by assumption.
      destruct (i - List.length chunks)%nat as [| k] eqn:Hk;
        [| destruct k; discriminate].
      cbn in Hi. inversion Hi; subst e.
      assert (i = List.length chunks) by lia. subst i.
      unfold chunkAt.
      replace (Z.of_nat (List.length chunks) <? len / size) with false
        by (symmetry; apply Z.ltb_ge; lia).
      destruct isReadOp.
      * inversion Hex; subst.
        cbn [exAddress exInnerSize exWriteValues createExecution].
        repeat apply conj; try reflexivity; lia.
      * destruct (getdata data (len mod size) _) as [err | ws] eqn:Hg in Hex;
          [discriminate |].
        inversion Hex; subst.
        cbn [exAddress exInnerSize exWriteValues createExecution].
        repeat apply conj; try reflexivity; try lia.
        exists ws. split; [reflexivity |].
        rewrite <- Hg. f_equal; lia.
Qed.

Lemma executeOperations_read_total :
  forall start len size data,
    exists ops, executeOperations start len size true data = inr ops.
Proof.
  intros start len size data. unfold executeOperations.
  destruct (fullChunks_read_total true size data eq_refl
              (Z.to_nat (len / size)) [] start 0) as [[[full addr] offset] ->].
  destruct (_ && _); eauto.
Qed.

Lemma fullChunkAt_forall isReadOp size data addr offset chunks :
  (forall i e, nth_error chunks i = Some e ->
               fullChunkAt isReadOp size data addr offset i e) ->
  Forall (fun e => exInnerSize e = size) chunks.
Proof.
  intros H. apply Forall_forall. intros e He.
  apply In_nth_error in He. destruct He as [i Hi].
  apply H in Hi. apply Hi.
Qed.

(** Every closure of the list has the chunk size or the remainder as its
    size. *)
Lemma executeOperations_sizes :
  forall start len size isReadOp data ops,
    executeOperations start len size isReadOp data = inr ops ->
    Forall (fun e => exInnerSize e = size \/ exInnerSize e = Z.rem len size)
      ops.
Proof.
  intros start len size isReadOp data ops H. unfold executeOperations in H.
  destruct (fullChunks _ _ _ _ _ _ _) as [err | [[full addr] offset]] eqn:Hfull;
    [discriminate |].
  apply fullChunks_spec in Hfull.
  destruct Hfull as (chunks & -> & _ & _ & _ & Hnth). cbn [app] in H.
  apply fullChunkAt_forall in Hnth.
  assert (Hfullsizes :
            Forall (fun e => exInnerSize e = size
                             \/ exInnerSize e = Z.rem len size) chunks).
  { eapply Forall_impl; [| exact Hnth]. cbn. auto. }
  destruct (_ && _).
  - destruct (if isReadOp then _ else _) as [err | execution] eqn:Hex in H;
      [discriminate |].
    inversion H; subst ops. apply Forall_app. split; [assumption |].
    constructor; [| constructor]. right.
    destruct isReadOp.
    + inversion Hex; subst. reflexivity.
    + destruct (getdata data _ _) as [err | ws]; [discriminate |].
      inversion Hex; subst. reflexivity.
  - inversion H; subst ops. assumption.
Qed.

(** ** Slicing the data *)

Lemma readUInt32BE_inside :
  forall buffer offset,
    0 <= offset -> offset + 4 <= Z.of_nat (List.length buffer) ->
    exists word, readUInt32BE buffer offset = Some word.
Proof.
  intros buffer offset Hlo Hhi. unfold readUInt32BE.
  replace (offset <? 0) with false by (symmetry; apply Z.ltb_ge; lia).
  pose proof (length_skipn (Z.to_nat offset) buffer) as Hlen.
  destruct (skipn (Z.to_nat offset) buffer) as [| b0 [| b1 [| b2 [| b3 rest]]]];
    cbn [List.length] in Hlen; try lia.
  eauto.
Qed.

Lemma getdata_loop_inside :
  forall buffer n i offset retArray,
    0 <= i * 4 + offset ->
    (i + Z.of_nat n) * 4 + offset <= Z.of_nat (List.length buffer) ->
    exists ws, getdata_loop (Some buffer) n i offset retArray = inr ws.
Proof.
  intros buffer. induction n as [| n IH]; intros i offset retArray Hlo Hhi;
    cbn [getdata_loop].
  - eauto.
  - destruct (readUInt32BE_inside buffer (i * 4 + offset) Hlo ltac:(lia))
      as [word ->].
    apply IH; lia.
Qed.

Lemma getdata_inside :
  forall buffer numIntegers offset,
    0 <= offset -> 0 <= numIntegers ->
    offset + numIntegers * 4 <= Z.of_nat (List.length buffer) ->
    exists ws, getdata (Some buffer) numIntegers offset = inr ws.
Proof.
  intros buffer numIntegers offset Hoff Hnum Hhi. unfold getdata.
  apply getdata_loop_inside; lia.
Qed.

Lemma fullChunks_write_built :
  forall buffer size n ops addr offset,
    0 <= offset ->
    offset + 32 * Z.of_nat n <= Z.of_nat (List.length buffer) ->
    exists r, fullChunks n false size (Some buffer) ops addr offset = inr r.
Proof.
  intros buffer size. induction n as [| n IH]; intros ops addr offset Hlo Hhi;
    cbn [fullChunks].
  - eauto.
  - destruct (getdata_inside buffer 8 offset Hlo ltac:(lia) ltac:(lia))
      as [ws ->].
    apply IH; lia.
Qed.

(** A write gets its chunk list built when the data hold 32 bytes for
    every full chunk and 4 bytes for every word of the tail. *)
Lemma executeOperations_write_built :
  forall start len size buffer,
    1 <= len -> 1 <= size ->
    32 * (len / size) + 4 * (len mod size) <= Z.of_nat (List.length buffer) ->
    exists ops, executeOperations start len size false (Some buffer) = inr ops.
Proof.
  intros start len size buffer Hlen Hsize Hdata. unfold executeOperations.
  rewrite Z.rem_mod_nonneg by lia.
  pose proof (Z.div_pos len size ltac:(lia) ltac:(lia)) as Hq.
  pose proof (Z.mod_pos_bound len size ltac:(lia)) as Hr.
  destruct (fullChunks_write_built buffer size (Z.to_nat (len / size)) []
              start 0 ltac:(lia) ltac:(lia)) as [[[full addr] offset] Hfull].
  rewrite Hfull.
  apply fullChunks_spec in Hfull.
  destruct Hfull as (chunks & _ & _ & _ & -> & _).
  destruct (_ && _); [| eauto].
  destruct (getdata_inside buffer (len mod size)
              (0 + 32 * Z.of_nat (Z.to_nat (len / size)))
              ltac:(lia) ltac:(lia) ltac:(lia)) as [ws ->].
  eauto.
Qed.

(** With the chunk size 8 it is enough that the data hold the [len]
    words. *)
Lemma executeOperations_write_built_eight :
  forall start len buffer,
    1 <= len -> 4 * len <= Z.of_nat (List.length buffer) ->
    exists ops, executeOperations start len 8 false (Some buffer) = inr ops.
Proof.
  intros start len buffer Hlen Hdata.
  apply executeOperations_write_built; try lia.
  pose proof (Z.div_mod len 8 ltac:(lia)). lia.
Qed.

(** ** Running the chunk list *)

Section Running.

Variables (dc : DriverConst) (bundle : Bundle) (key : option Z)
          (isReadOp : bool) (ptrAddress flashAddress : Z).

#[local] Abbreviation call :=
  (rwManyCall dc key isReadOp ptrAddress flashAddress).
#[local] Abbreviation run :=
  (reduceFrom dc bundle key isReadOp ptrAddress flashAddress).

Lemma reduceFrom_cons :
  forall e ops memo log,
    run (e :: ops) memo log
    = match
        runExecution dc bundle key isReadOp ptrAddress flashAddress e memo log
      with
      | (Next memo', log') => run ops memo' log'
      | (Failed err, log') => (Failed err, log')
      | (Raised x, log') => (Raised x, log')
      end.
Proof. reflexivity. Qed.

(** Whatever the device answers, the transactions issued are the first
    ones of the list, in its order; all of them when the run succeeds. *)
Lemma reduce_issues_prefix :
  forall ops memo log st log',
    run ops memo log = (st, log') ->
    exists k, log' = log ++ map call (firstn k ops)
              /\ (forall memory, st = Next memory -> firstn k ops = ops).
Proof.
  induction ops as [| e ops IH]; intros memo log st log' H.
  - cbn in H. inversion H; subst. exists 0%nat. cbn. rewrite app_nil_r. auto.
  - rewrite reduceFrom_cons in H. unfold runExecution in H.
    destruct (device bundle) as [dev |].
    + destruct (dev _) as [results | err] eqn:Hr.
      * apply IH in H. destruct H as (k & -> & Hall).
        exists (S k). cbn [firstn map]. rewrite <- app_assoc. cbn [app].
        split; [reflexivity |]. intros memory Hm. f_equal. eauto.
      * inversion H; subst. exists 1%nat. cbn. split; [reflexivity |].
        discriminate.
    + inversion H; subst. exists 0%nat. cbn. rewrite app_nil_r.
      split; [reflexivity |]. discriminate.
Qed.

Lemma reduce_acknowledged :
  forall dev,
    device bundle = Some dev -> acknowledges dev ->
    forall ops memo log,
      exists memory,
        run ops memo log = (Next memory, log ++ map call ops).
Proof.
  intros dev Hdev Hack.
  induction ops as [| e ops IH]; intros memo log.
  - cbn. rewrite app_nil_r. eauto.
  - rewrite reduceFrom_cons. cbn [map]. unfold runExecution. rewrite Hdev.
    destruct (Hack (log ++ [call e])) as [results Hr].
    change (CRwMany
              (executionFrames dc key isReadOp ptrAddress flashAddress e))
      with (call e).
    rewrite Hr.
    destruct (IH (memo ++ results) (log ++ [call e])) as [memory ->].
    exists memory. rewrite <- app_assoc. reflexivity.
Qed.

End Running.

Lemma pointerValue_executionFrames dc key isReadOp ptr flash e :
  pointerValue (executionFrames dc key isReadOp ptr flash e)
  = Some (VNum (exAddress e)).
Proof. destruct key, isReadOp; reflexivity. Qed.

Lemma windowCount_executionFrames dc key isReadOp ptr flash e :
  windowCount (executionFrames dc key isReadOp ptr flash e) = exInnerSize e.
Proof. destruct key, isReadOp; reflexivity. Qed.

(** On a device that acknowledges every transaction, and for a write
    when building the chunk list does not throw, a flash
    operation with [len >= 1] and [size >= 1] resolves after exactly
    [ceil(len / size)] transactions, appended to the log one after the
    other; the i-th writes [start + i * size * 4] to the pointer register;
    the first [len / size] of them have the window count [size], and when
    [len mod size] is not zero the last one has the window count
    [len mod size]. *)
Theorem flash_operation_chunks :
  forall dc bundle dev start len size ptr flash isReadOp key data log,
    device bundle = Some dev ->
    acknowledges dev ->
    1 <= len -> 1 <= size ->
    (isReadOp = false ->
     exists ops, executeOperations start len size false data = inr ops) ->
    exists calls,
      createFlashOperation dc bundle start len size ptr flash isReadOp key
        data log
      = (Resolved (VBundle bundle), log ++ map CRwMany calls)
      /\ Z.of_nat (List.length calls) = (len + size - 1) / size
      /\ forall i f,
          nth_error calls i = Some f ->
          pointerValue f = Some (VNum (start + Z.of_nat i * size * 4))
          /\ windowCount f
             = (if Z.of_nat i <? len / size then size else len mod size).
Proof.
  intros dc bundle dev start len size ptr flash isReadOp key data log
         Hdev Hack Hlen Hsize Hbuilt.
  assert (Hops : exists ops,
             executeOperations start len size isReadOp data = inr ops).
  { destruct isReadOp; [apply executeOperations_read_total | auto]. }
  destruct Hops as [ops Hops].
  destruct (executeOperations_spec _ _ _ _ _ _ Hlen Hsize Hops) as [Hcount Hat].
  destruct (reduce_acknowledged dc bundle key isReadOp ptr flash dev Hdev Hack
              ops [] log) as [memory Hrun].
  unfold rwManyCall in Hrun.
  exists (map (executionFrames dc key isReadOp ptr flash) ops).
  repeat apply conj.
  - unfold createFlashOperation.
    replace (size =? 0) with false by (symmetry; apply Z.eqb_neq; lia).
    cbn [andb]. rewrite Hops. unfold reduceOperations. rewrite Hrun.
    rewrite map_map. reflexivity.
  - rewrite length_map. assumption.
  - intros i f Hi.
    rewrite nth_error_map in Hi.
    destruct (nth_error ops i) as [e |] eqn:He; [| discriminate].
    cbn in Hi. inversion Hi; subst f.
    destruct (Hat i e He) as (Ha & Hs & _).
    rewrite pointerValue_executionFrames, windowCount_executionFrames.
    split; [f_equal; f_equal; lia | assumption].
Qed.


(** ** The flash engine *)

(** Whatever the device does, the calls of a flash operation are the
    calls of the first closures of its chunk list. *)
Lemma createFlashOperation_log :
  forall dc bundle start len size ptr flash isReadOp key data log,
    exists chunks,
      snd (createFlashOperation dc bundle start len size ptr flash isReadOp
             key data log)
      = log ++ map (rwManyCall dc key isReadOp ptr flash) chunks
      /\ Forall (fun c => exInnerSize c = size
                          \/ exInnerSize c = Z.rem len size) chunks.
Proof.
  intros dc bundle start len size ptr flash isReadOp key data log.
  unfold createFlashOperation.
  destruct (_ && _).
  { exists [].
    destruct isReadOp; [| destruct (fullChunks _ _ _ _ _ _ _)];
      cbn; rewrite app_nil_r; auto. }
  destruct (executeOperations _ _ _ _ _) as [err | ops] eqn:Hops.
  { exists []. cbn. rewrite app_nil_r. auto. }
  apply executeOperations_sizes in Hops.
  unfold reduceOperations.
  destruct (reduceFrom _ _ _ _ _ _ _ _ _) as [st log'] eqn:Hrun.
  apply reduce_issues_prefix in Hrun. destruct Hrun as (k & -> & _).
  exists (firstn k ops). split; [destruct st; reflexivity |].
  rewrite <- (firstn_skipn k ops) in Hops.
  apply Forall_app in Hops. apply Hops.
Qed.

(** The frames of the calls.  Every call of a read is one [rwMany] of
    two frames, with the addresses of the pointer and of the window
    register, the directions write and read and the counts [1; n]; every
    call of a write with a key is one [rwMany] of three frames, with the
    addresses of the key, the pointer and the window register, all
    written, and the counts [1; 1; n]; [n] is the chunk size, or the
    remainder for the tail. *)
Theorem transaction_frames :
  forall dc bundle start len size log,
    (exists chunks,
        snd (readFlash dc bundle start len size log)
        = log ++ map (fun c =>
                        CRwMany
                          {| addresses :=
                               [T7_MA_EXF_pREAD dc; T7_MA_EXF_READ dc];
                             directions := [LJM_WRITE; LJM_READ];
                             numValues := [1; exInnerSize c];
                             values :=
                               VNum (exAddress c)
                               :: repeat VNull (Z.to_nat (exInnerSize c)) |})
                     chunks
        /\ Forall (fun c => exInnerSize c = size
                            \/ exInnerSize c = Z.rem len size) chunks)
    /\ (forall key data,
          exists chunks,
            snd (writeFlash dc bundle start len size (Some key) data log)
            = log ++ map (fun c =>
                            CRwMany
                              {| addresses :=
                                   [T7_MA_EXF_KEY dc; T7_MA_EXF_pWRITE dc;
                                    T7_MA_EXF_WRITE dc];
                                 directions :=
                                   [LJM_WRITE; LJM_WRITE; LJM_WRITE];
                                 numValues := [1; 1; exInnerSize c];
                                 values :=
                                   VNum key :: VNum (exAddress c)
                                   :: match exWriteValues c with
                                      | Some ws => map VNum ws
                                      | None => []
                                      end |})
                         chunks
            /\ Forall (fun c => exInnerSize c = size
                                \/ exInnerSize c = Z.rem len size) chunks).
Proof.
  intros dc bundle start len size log. split.
  - destruct (createFlashOperation_log dc bundle start len size
                (T7_MA_EXF_pREAD dc) (T7_MA_EXF_READ dc) true None None log)
      as [chunks H].
    exists chunks. exact H.
  - intros key data.
    destruct (createFlashOperation_log dc bundle start len size
                (T7_MA_EXF_pWRITE dc) (T7_MA_EXF_WRITE dc) false (Some key)
                data log)
      as [chunks H].
    exists chunks. exact H.
Qed.

(** A rejected transaction ends the operation, so a device that rejects
    the first of two chunks sees one transaction. *)
Lemma rejected_chunk_ends_operation :
  ~ (forall dev start len size log,
        1 <= len -> 1 <= size ->
        Z.of_nat (List.length
                    (snd (readFlash testConst (bundleWith dev) start len size
                            log)))
        = Z.of_nat (List.length log) + (len + size - 1) / size).
Proof.
  intros H.
  specialize (H (scriptedDevice [Nak 5]) 0 3 2 [] ltac:(lia) ltac:(lia)).
  vm_compute in H. discriminate H.
Qed.

Lemma constantDevice_acknowledges word : acknowledges (constantDevice word).
Proof.
  intros log. unfold constantDevice.
  destruct (last log _); eexists; reflexivity.
Qed.

Lemma flash_operation_chunks_witness :
  let dev := constantDevice 0 in
  let bundle := bundleWith dev in
  let data := Some (countingBytes 48 0) in
  device bundle = Some dev
  /\ acknowledges dev
  /\ 1 <= 12
  /\ 1 <= 8
  /\ (false = false ->
      exists ops, executeOperations 0 12 8 false data = inr ops)
  /\ exists calls,
      createFlashOperation testConst bundle 0 12 8 61830 61832 false
        (Some 1001) data []
      = (Resolved (VBundle bundle), [] ++ map CRwMany calls)
      /\ Z.of_nat (List.length calls) = (12 + 8 - 1) / 8
      /\ forall i f,
          nth_error calls i = Some f ->
          pointerValue f = Some (VNum (0 + Z.of_nat i * 8 * 4))
          /\ windowCount f = (if Z.of_nat i <? 12 / 8 then 8 else 12 mod 8).
Proof.
  intros dev bundle data.
  assert (Hack : acknowledges dev).
  { intros log. unfold dev, constantDevice.
    destruct (last log _); eexists; reflexivity. }
  assert (Hbuilt : false = false ->
                   exists ops, executeOperations 0 12 8 false data = inr ops).
  { intros _. eexists. vm_compute. reflexivity. }
  assert (H1 : 1 <= 12) by lia.
  assert (H2 : 1 <= 8) by lia.
  exact (conj eq_refl
           (conj Hack
              (conj H1
                 (conj H2
                    (conj Hbuilt
                       (flash_operation_chunks testConst bundle dev 0 12 8
                          61830 61832 false (Some 1001) data [] eq_refl Hack
                          H1 H2 Hbuilt)))))).
Defined.

(** A read resolves with the bundle whenever the device acknowledges. *)
Lemma readFlash_acknowledged :
  forall dc bundle dev start len size log,
    device bundle = Some dev -> acknowledges dev -> 1 <= size ->
    exists log',
      readFlash dc bundle start len size log
      = (Resolved (VBundle bundle), log').
Proof.
  intros dc bundle dev start len size log Hdev Hack Hsize.
  unfold readFlash, createFlashOperation.
  replace (size =? 0) with false by (symmetry; apply Z.eqb_neq; lia).
  cbn [andb].
  destruct (executeOperations_read_total start len size None) as [ops ->].
  unfold reduceOperations.
  destruct (reduce_acknowledged dc bundle None true (T7_MA_EXF_pREAD dc)
              (T7_MA_EXF_READ dc) dev Hdev Hack ops [] log) as [memory ->].
  eauto.
Qed.

(** No read ever resolves with the words it gathered. *)
Lemma readFlash_resolution :
  forall dc bundle start len size log v,
    fst (readFlash dc bundle start len size log) = Resolved v ->
    v = VBundle bundle.
Proof.
  intros dc bundle start len size log v.
  unfold readFlash, createFlashOperation.
  destruct (_ && _); [discriminate |].
  destruct (executeOperations _ _ _ _ _); [discriminate |].
  destruct (reduceOperations _ _ _ _ _ _ _ _) as [[memory | err | e] log'];
    cbn; intros H; inversion H; reflexivity.
Qed.

(** C2 at [readFlash(start = 0, length = 3, size = 2)] on a device that
    answers [[1, 2]] and then [[3]]: two transactions are made and the
    words gathered are [[1, 2, 3]], but the promise is resolved with the
    bundle, not with those words. *)
Theorem readFlash_resolves_with_bundle :
  let bundle := bundleWith (scriptedDevice [Ack [1; 2]; Ack [3]]) in
  fst (readFlash testConst bundle 0 3 2 []) = Resolved (VBundle bundle)
  /\ List.length (snd (readFlash testConst bundle 0 3 2 [])) = 2%nat
  /\ fst (reduceOperations testConst bundle None true
            (T7_MA_EXF_pREAD testConst) (T7_MA_EXF_READ testConst)
            [createExecution 0 2 None; createExecution 8 1 None] [])
     = Next [1; 2; 3]
  /\ executeOperations 0 3 2 true None
     = inr [createExecution 0 2 None; createExecution 8 1 None].
Proof. repeat split. Qed.

(** The slices of a write with chunk size 8 are the ones its addresses
    call for: the i-th chunk takes its words from byte [i * 8 * 4]. *)
Lemma write_chunks_of_eight :
  forall start len data ops i e,
    1 <= len ->
    executeOperations start len 8 false data = inr ops ->
    nth_error ops i = Some e ->
    exists ws,
      exWriteValues e = Some ws
      /\ getdata data (exInnerSize e) (Z.of_nat i * 8 * 4) = inr ws.
Proof.
  intros start len data ops i e Hlen Hops Hi.
  assert (Hsize : 1 <= 8) by lia.
  destruct (executeOperations_spec _ _ _ _ _ _ Hlen Hsize Hops)
    as [Hcount Hat].
  destruct (Hat i e Hi) as (_ & Hs & ws & Hw & Hg).
  exists ws. split; [assumption |]. rewrite Hs.
  destruct (Z.ltb_spec (Z.of_nat i) (len / 8)) as [Hlt | Hge].
  - rewrite <- Hg. f_equal. lia.
  - assert (Hlast : Z.of_nat i = len / 8).
    { assert (Hbound : (i < List.length ops)%nat)
        by (apply nth_error_Some; congruence).
      rewrite ceil_div in Hcount by lia.
      destruct (len mod 8 =? 0); lia. }
    rewrite <- Hg. f_equal. lia.
Qed.

(** C5 at [writeFlash(start = 0, length = 3, size = 2, key = 5)].  With
    the 12 bytes of the three words the engine throws while it builds the
    first chunk, because it cuts 8 words out of the data; with 40 bytes it
    sends those 8 words with the first chunk (whose count is 2), and the
    tail chunk, written at flash address 8, takes its word from byte 32
    of the data and not from byte 8. *)
Theorem writeFlash_slices_by_eight :
  let bundle := bundleWith (constantDevice 0) in
  writeFlash testConst bundle 0 3 2 (Some 5) (Some (countingBytes 12 0)) []
  = (Thrown RangeError, [])
  /\ snd (writeFlash testConst bundle 0 3 2 (Some 5)
            (Some (countingBytes 40 0)) [])
     = [CRwMany
          {| addresses := [61800; 61830; 61832];
             directions := [LJM_WRITE; LJM_WRITE; LJM_WRITE];
             numValues := [1; 1; 2];
             values :=
               [VNum 5; VNum 0; VNum 66051; VNum 67438087; VNum 134810123;
                VNum 202182159; VNum 269554195; VNum 336926231;
                VNum 404298267; VNum 471670303] |};
        CRwMany
          {| addresses := [61800; 61830; 61832];
             directions := [LJM_WRITE; LJM_WRITE; LJM_WRITE];
             numValues := [1; 1; 1];
             values := [VNum 5; VNum 8; VNum 539042339] |}]
  /\ getdata (Some (countingBytes 40 0)) 2 0 = inr [66051; 67438087]
  /\ getdata (Some (countingBytes 40 0)) 1 8 = inr [134810123]
  /\ getdata (Some (countingBytes 40 0)) 1 32 = inr [539042339].
Proof. repeat split. Qed.

(** A write of two words in chunks of one word, with exactly the eight
    bytes of the two words: the engine throws while it builds the first
    chunk and nothing is sent. *)
Example write_with_small_chunks_throws :
  writeFlash testConst (bundleWith (constantDevice 0)) 0 2 1 (Some 5)
    (Some (countingBytes 8 0)) []
  = (Thrown RangeError, []).
Proof. reflexivity. Qed.

(** C3 at a write of four words in chunks of two words, at flash address
    4096, on a device that acknowledges everything: [ceil(4 / 2)] is 2,
    and a read with these parameters makes the two transactions, with the
    pointer values 4096 and 4104 and the count 2; the write, given the
    sixteen bytes of the four words, throws while it builds its first
    chunk, because it cuts eight words out of the data, and makes no
    transaction at all. *)
Theorem chunked_write_makes_no_transaction :
  let bundle := bundleWith (constantDevice 0) in
  (4 + 2 - 1) / 2 = 2
  /\ snd (readFlash testConst bundle 4096 4 2 [])
     = [CRwMany
          {| addresses := [61810; 61812];
             directions := [LJM_WRITE; LJM_READ];
             numValues := [1; 2];
             values := [VNum 4096; VNull; VNull] |};
        CRwMany
          {| addresses := [61810; 61812];
             directions := [LJM_WRITE; LJM_READ];
             numValues := [1; 2];
             values := [VNum 4104; VNull; VNull] |}]
  /\ List.length (countingBytes 16 0) = 16%nat
  /\ writeFlash testConst bundle 4096 4 2 (Some 1001)
       (Some (countingBytes 16 0)) []
     = (Thrown RangeError, []).
Proof. repeat split. Qed.

(** C4 at a write of two words in one chunk of two words, at flash
    address 4096 with the key 1001, from a buffer of 32 bytes: the one
    transaction has the three frames of a write and the counts
    [[1, 1, 2]], but the values that follow the key and the address, for
    the window register, are the eight words of the buffer and not two:
    the call hands over ten values where its counts add up to four. *)
Theorem write_frame_carries_eight_values :
  let bundle := bundleWith (constantDevice 0) in
  writeFlash testConst bundle 4096 2 2 (Some 1001)
    (Some (countingBytes 32 0)) []
  = (Resolved (VBundle bundle),
     [CRwMany
        {| addresses := [61800; 61830; 61832];
           directions := [LJM_WRITE; LJM_WRITE; LJM_WRITE];
           numValues := [1; 1; 2];
           values :=
             [VNum 1001; VNum 4096; VNum 66051; VNum 67438087;
              VNum 134810123; VNum 202182159; VNum 269554195;
              VNum 336926231; VNum 404298267; VNum 471670303] |}])
  /\ getdata (Some (countingBytes 32 0)) 2 0 = inr [66051; 67438087].
Proof. repeat split. Qed.

(** ** The checks *)

Lemma readImageInformation_acknowledged :
  forall dc bundle dev log,
    device bundle = Some dev -> acknowledges dev ->
    1 <= T7_FLASH_BLOCK_WRITE_SIZE dc ->
    exists log',
      readImageInformation dc bundle log = (Resolved (VBundle bundle), log').
Proof.
  intros dc bundle dev log Hdev Hack Hsize. unfold readImageInformation.
  destruct (readFlash_acknowledged dc bundle dev
              (T7_EFAdd_ExtFirmwareImgInfo dc)
              (T7_HDR_FLASH_PAGE_ERASE dc * T7_FLASH_PAGE_SIZE dc / 4)
              (T7_FLASH_BLOCK_WRITE_SIZE dc) log Hdev Hack Hsize)
    as [log' ->].
  eauto.
Qed.

Lemma readImage_acknowledged :
  forall dc bundle dev log,
    device bundle = Some dev -> acknowledges dev ->
    1 <= T7_FLASH_BLOCK_WRITE_SIZE dc ->
    exists log', readImage dc bundle log = (Resolved (VBundle bundle), log').
Proof.
  intros dc bundle dev log Hdev Hack Hsize. unfold readImage.
  destruct (readFlash_acknowledged dc bundle dev
              (T7_EFAdd_ExtFirmwareImage dc)
              (T7_IMG_FLASH_PAGE_ERASE dc * T7_FLASH_PAGE_SIZE dc / 4)
              (T7_FLASH_BLOCK_WRITE_SIZE dc) log Hdev Hack Hsize)
    as [log' ->].
  eauto.
Qed.

(** On a device that acknowledges, [checkErase] resolves whatever words
    the device reads back. *)
Lemma checkErase_ignores_readback :
  forall dc bundle dev log,
    device bundle = Some dev -> acknowledges dev ->
    1 <= T7_FLASH_BLOCK_WRITE_SIZE dc ->
    fst (checkErase dc bundle log) = Resolved (VBundle bundle).
Proof.
  intros dc bundle dev log Hdev Hack Hsize. unfold checkErase.
  destruct (readImageInformation_acknowledged dc bundle dev log Hdev Hack Hsize)
    as [log1 ->].
  destruct (readImage_acknowledged dc bundle dev log1 Hdev Hack Hsize)
    as [log2 ->].
  reflexivity.
Qed.

(** And so does [checkImageWrite]. *)
Lemma checkImageWrite_ignores_readback :
  forall dc bundle dev log,
    device bundle = Some dev -> acknowledges dev ->
    1 <= T7_FLASH_BLOCK_WRITE_SIZE dc ->
    fst (checkImageWrite dc bundle log) = Resolved (VBundle bundle).
Proof.
  intros dc bundle dev log Hdev Hack Hsize. unfold checkImageWrite.
  destruct (readImage_acknowledged dc bundle dev log Hdev Hack Hsize)
    as [log' ->].
  reflexivity.
Qed.

(** C1 on a flash that reads 0 everywhere: the header region is read in
    one transaction and the image region in two, every word read back is
    0 and not 0xFFFFFFFF, and [checkErase] resolves with the bundle. *)
Theorem checkErase_accepts_unerased_flash :
  let dev := constantDevice 0 in
  let bundle := bundleWith dev in
  fst (checkErase testConst bundle []) = Resolved (VBundle bundle)
  /\ List.length (snd (checkErase testConst bundle [])) = 3%nat
  /\ dev (firstn 1 (snd (checkErase testConst bundle [])))
     = Ack [0; 0; 0; 0; 0; 0; 0; 0]
  /\ isAllZeroed (VArray [0; 0; 0; 0; 0; 0; 0; 0]) = false.
Proof. repeat split. Qed.

(** C7 on an image whose words are all 0xDEADBEEF and a flash that reads
    0xCAFEBABE everywhere: [checkImageWrite] resolves with the bundle,
    although already word 0 differs. *)
Theorem checkImageWrite_accepts_mismatch :
  let image := List.concat (repeat [xde; xad; xbe; xef] 16) in
  let dev := constantDevice 3405691582 in
  let bundle := bundleWithImage dev image in
  fst (checkImageWrite testConst bundle []) = Resolved (VBundle bundle)
  /\ readUInt32BE image 0 = Some 3735928559
  /\ dev (firstn 1 (snd (checkImageWrite testConst bundle [])))
     = Ack (repeat 3405691582 8).
Proof. repeat split. Qed.

(** ** The compatibility gate *)

Lemma allowed_device_spec dc x :
  negb (indexOf (ALLOWED_IMAGE_INFO_DEVICE_TYPES dc) x =? -1) = true
  <-> x = T7_TARGET_OLD dc \/ x = T7_TARGET dc.
Proof.
  unfold ALLOWED_IMAGE_INFO_DEVICE_TYPES. cbn [indexOf].
  destruct (Z.eqb_spec (T7_TARGET_OLD dc) x) as [Ho | Ho];
    destruct (Z.eqb_spec (T7_TARGET dc) x) as [Hn | Hn]; cbn;
    intuition (try congruence; try discriminate).
Qed.

(** C6.  [checkCompatibility] makes no call on the device.  It resolves
    with the bundle exactly when the header code is the T7 code, the
    intended device is one of the two accepted tags and the contained
    version equals ([==]) the version of the bundle; otherwise it rejects
    with an [Error].  A wrong header code is reported as
    "Invalid header code.", a wrong device type under a right header code
    as "Incorrect device type.", and a wrong version under a right header
    code and device type as "Incorrect version."; the three messages
    differ. *)
Theorem checkCompatibility_gate :
  forall dc info image dev v ser log,
    let bundle :=
      {| firmwareImageInformation := Some info;
         firmwareImage := image;
         device := dev;
         version := v;
         serial := ser |} in
    let headerOk := headerCode info = T7_HEAD_FIRST_FOUR_BYTES dc in
    let deviceOk :=
      intendedDevice info = T7_TARGET_OLD dc
      \/ intendedDevice info = T7_TARGET dc in
    let versionOk :=
      exists n,
        v = Some n /\ num_eqb (spelled (containedVersion info)) n = true in
    let outcome := fst (checkCompatibility dc bundle log) in
    snd (checkCompatibility dc bundle log) = log
    /\ (outcome = Resolved (VBundle bundle)
        <-> headerOk /\ deviceOk /\ versionOk)
    /\ (outcome = Resolved (VBundle bundle)
        \/ exists message, outcome = Rejected (Error message))
    /\ (~ headerOk -> outcome = Rejected (Error "Invalid header code."))
    /\ (headerOk -> ~ deviceOk ->
        outcome = Rejected (Error "Incorrect device type."))
    /\ (headerOk -> deviceOk -> ~ versionOk ->
        outcome = Rejected (Error "Incorrect version."))
    /\ ("Invalid header code." <> "Incorrect device type."
        /\ "Invalid header code." <> "Incorrect version."
        /\ "Incorrect device type." <> "Incorrect version.")%string.
Proof.
  intros dc info image dev v ser log bundle headerOk deviceOk versionOk outcome.
  assert (Hversion :
            match v with
            | Some n => num_eqb (spelled (containedVersion info)) n
            | None => false
            end = true <-> versionOk).
  { unfold versionOk. destruct v as [n |].
    - split; [eauto | intros (m & Hm & Heq); inversion Hm; subst; exact Heq].
    - split; [discriminate | intros (m & Hm & _); discriminate]. }
  pose proof (allowed_device_spec dc (intendedDevice info)) as Hdevice.
  fold deviceOk in Hdevice.
  assert (Hheader :
            (headerCode info =? T7_HEAD_FIRST_FOUR_BYTES dc) = true
            <-> headerOk) by apply Z.eqb_eq.
  subst outcome. unfold checkCompatibility.
  cbn [firmwareImageInformation version bundle].
  destruct (headerCode info =? T7_HEAD_FIRST_FOUR_BYTES dc);
    destruct (negb (indexOf _ _ =? -1));
    destruct (match v with Some _ => _ | None => _ end);
    cbn [andb negb fst snd];
    repeat apply conj;
    try reflexivity; try discriminate; try tauto;
    try (left; reflexivity); try (right; eexists; reflexivity);
    try (split; [discriminate | intros (? & ? & ?); intuition discriminate]);
    try (intros; exfalso; intuition discriminate).
Qed.

Lemma checkCompatibility_gate_witness :
  fst (checkCompatibility testConst
         {| firmwareImageInformation :=
              Some (informationWith 1279936088 100007001
                      (fin (10068 # 10000)));
            firmwareImage := None;
            device := None;
            version := Some (fin (10067 # 10000));
            serial := None |}
         [])
  = Rejected (Error "Incorrect version.").
Proof.
  pose proof (checkCompatibility_gate testConst
                (informationWith 1279936088 100007001 (fin (10068 # 10000)))
                None None (Some (fin (10067 # 10000))) None []) as H.
  cbv zeta in H.
  destruct H as (_ & _ & _ & _ & _ & Hversion & _).
  apply Hversion.
  - reflexivity.
  - right. reflexivity.
  - intros (n & Hn & Heq). inversion Hn; subst n. discriminate Heq.
Defined.

(** ** The version in the path *)

Lemma isDigit_cases c :
  isDigit c = true ->
  In c (list_ascii_of_string "0123456789").
Proof.
  destruct c as [[] [] [] [] [] [] [] []]; cbn; intros H;
    try discriminate H; tauto.
Qed.

Ltac digit_cases c H :=
  apply isDigit_cases in H; cbn in H;
  repeat (destruct H as [H | H]; [subst c |]); [.. | contradiction].

Lemma digit_not_space c : isDigit c = true -> isWhiteSpace c = false.
Proof. intros H. digit_cases c H; reflexivity. Qed.

Lemma digit_value c :
  isDigit c = true -> digitValue c = Some (Z.of_nat (nat_of_ascii c) - 48).
Proof. intros H. digit_cases c H; reflexivity. Qed.

Lemma trimLeft_digits l :
  forallb isDigit l = true -> trimLeft l = l.
Proof.
  destruct l as [| c l]; [reflexivity |]. cbn. intros H.
  apply andb_prop in H. destruct H as [Hc _].
  rewrite (digit_not_space c Hc). reflexivity.
Qed.

Lemma trim_digits l :
  forallb isDigit l = true -> trim l = l.
Proof.
  intros H. unfold trim. rewrite (trimLeft_digits l H).
  rewrite trimLeft_digits; [apply rev_involutive |].
  rewrite forallb_forall in *. intros c Hc. apply H, in_rev, Hc.
Qed.

Lemma takeDigits_digits l :
  forallb isDigit l = true ->
  takeDigits l = (map (fun c => Z.of_nat (nat_of_ascii c) - 48) l, []).
Proof.
  induction l as [| c l IH]; [reflexivity |]. cbn [forallb takeDigits map].
  intros H. apply andb_prop in H. destruct H as [Hc Hl].
  rewrite (digit_value c Hc), (IH Hl). reflexivity.
Qed.

Lemma digitsValue_map l acc :
  fold_left (fun a d => a * 10 + d)
    (map (fun c => Z.of_nat (nat_of_ascii c) - 48) l) acc
  = fold_left (fun a c => a * 10 + (Z.of_nat (nat_of_ascii c) - 48)) l acc.
Proof.
  revert acc. induction l as [| c l IH]; intros acc; [reflexivity |].
  cbn. apply IH.
Qed.

Lemma parseHex_digits c l :
  forallb isDigit (c :: l) = true -> parseHex (c :: l) = None.
Proof.
  cbn [forallb]. intros H. apply andb_prop in H. destruct H as [Hc Hl].
  destruct l as [| x [| y l]];
    [digit_cases c Hc; reflexivity | digit_cases c Hc; reflexivity |].
  cbn [forallb] in Hl. apply andb_prop in Hl. destruct Hl as [Hx _].
  digit_cases c Hc; try reflexivity.
  digit_cases x Hx; reflexivity.
Qed.

Lemma parseUnsignedDecimal_digits c l :
  forallb isDigit (c :: l) = true ->
  parseUnsignedDecimal (c :: l)
  = Some (Fin (inject_Z
                 (digitsValue 10
                    (map (fun c => Z.of_nat (nat_of_ascii c) - 48) (c :: l)))
               * 1)).
Proof.
  intros H. unfold parseUnsignedDecimal.
  destruct (list_eq_dec ascii_dec (c :: l) _) as [Heq | _].
  { exfalso. rewrite Heq in H. discriminate H. }
  rewrite (takeDigits_digits _ H). rewrite app_nil_r.
  reflexivity.
Qed.

Lemma binary64_Qeq (p q : Q) : p == q -> binary64 p = binary64 q.
Proof.
  intros H. unfold binary64. rewrite (Qred_complete p q H). reflexivity.
Qed.

Lemma Number_decimal s :
  decimalInteger s -> Number s = binary64 (inject_Z (decimalValue s)).
Proof.
  intros [Hne Hdigits]. unfold Number, decimalValue.
  rewrite (trim_digits _ Hdigits).
  destruct (list_ascii_of_string s) as [| c l] eqn:Hs.
  { exfalso. apply Hne.
    rewrite <- (string_of_list_ascii_of_string s), Hs. reflexivity. }
  rewrite (parseHex_digits c l Hdigits).
  assert (Hsign : match c :: l with
                  | "+"%char :: r => (false, r)
                  | "-"%char :: r => (true, r)
                  | _ => (false, c :: l)
                  end = (false, c :: l)).
  { cbn [forallb] in Hdigits. apply andb_prop in Hdigits.
    destruct Hdigits as [Hc _]. digit_cases c Hc; reflexivity. }
  rewrite Hsign. rewrite (parseUnsignedDecimal_digits c l Hdigits).
  unfold rounded, digitsValue. rewrite digitsValue_map.
  apply binary64_Qeq. apply Qmult_1_r.
Qed.

(** When the file holds a whole header and the part of the path between
    its first and its second underscore is a decimal integer,
    [readFirmwareFile] resolves with a bundle whose version is the number
    that this part spells, divided by 10000. *)
Lemma readFirmwareFile_version :
  forall dc fileSrc imageFile information field,
    parseImageInformation dc imageFile = Some information ->
    nth_error (split "_" fileSrc) 1 = Some field ->
    decimalInteger field ->
    exists bundle,
      readFirmwareFile dc fileSrc (inr imageFile) = Resolved bundle
      /\ version bundle
         = Some (num_div (binary64 (inject_Z (decimalValue field))) 10000).
Proof.
  intros dc fileSrc imageFile information field Hparse Hfield Hdecimal.
  unfold readFirmwareFile. rewrite Hparse. eexists. split; [reflexivity |].
  cbn [version]. unfold versionOfPath. rewrite Hfield.
  rewrite (Number_decimal field Hdecimal). reflexivity.
Qed.

(** The name that the upgrade script of the repository uses gives
    1.0067. *)
Example version_of_script_name :
  versionOfPath "T7firmware_010067_2014-02-24.bin"
  = binary64 (10067 # 10000).
Proof. vm_compute. reflexivity. Qed.

(** The name that the unit test of [readFirmwareFile] uses, for which it
    expects the version 10, gives [NaN]. *)
Example version_of_test_name :
  versionOfPath "T7_firmware_100000_200000.bin" = NaN.
Proof. vm_compute. reflexivity. Qed.

(** The path is split as a whole: an underscore in a directory name
    moves the field. *)
Example version_of_path_with_directory :
  versionOfPath "/data/fw_files/T7firmware_010067_2014-02-24.bin" = NaN.
Proof. vm_compute. reflexivity. Qed.

(** C8.  For the file name [T7_firmware_010067_2014-02-24.bin]
    [readFirmwareFile] resolves with a bundle whose version is [NaN], and
    not 1.0067: the part of the name between the first and the second
    underscore is [firmware]. *)
Theorem version_of_T7_firmware_name :
  exists bundle,
    readFirmwareFile testConst "T7_firmware_010067_2014-02-24.bin"
      (inr sampleFile)
    = Resolved bundle
    /\ version bundle = Some NaN
    /\ version bundle <> Some (fin (10067 # 10000))
    /\ version bundle <> Some (binary64 (10067 # 10000)).
Proof.
  eexists. split; [vm_compute; reflexivity |].
  split; [reflexivity |]. split; [discriminate |].
  vm_compute. discriminate.
Qed.

(** C9.  When [fs.readFile] reports an error, the promise of
    [readFirmwareFile] is neither rejected nor resolved: it stays
    pending. *)
Theorem readFirmwareFile_io_error :
  forall dc fileSrc err, readFirmwareFile dc fileSrc (inl err) = Pending.
Proof. reflexivity. Qed.

(* ================================================================== *)
(** * Further properties *)

(** ** [range] with a step *)





(* ------------------------------------------------------------------ *)
(** ** The pages that [eraseFlash] erases *)

Section Erasing.

Variables (dc : DriverConst) (dev : Device) (key startAddress : Z).

#[local] Abbreviation erasePage :=
  (fun (page : Z) (log : Log) =>
     let log' :=
       log ++ [CWriteMany [T7_MA_EXF_KEY dc; T7_MA_EXF_ERASE dc]
                 [key; startAddress + page * T7_FLASH_PAGE_SIZE dc]] in
     match dev log' with
     | Nak err => (@Failed unit err, log')
     | Ack _ => (Next tt, log')
     end).

(** The pages are written one after the other until one is rejected. *)
Lemma eachSeries_erase :
  forall n from log,
    match
      eachSeries (map Z.of_nat (seq from n)) erasePage log
    with
    | (Next _, log') =>
        log' = log ++ map (pageWrite dc key startAddress) (seq from n)
        /\ forall j, (j < n)%nat ->
                     exists results,
                       dev (log ++ map (pageWrite dc key startAddress)
                                     (seq from (S j)))
                       = Ack results
    | (Failed err, log') =>
        exists k,
          (k < n)%nat
          /\ log' = log ++ map (pageWrite dc key startAddress) (seq from (S k))
          /\ dev log' = Nak err
          /\ forall j, (j < k)%nat ->
                       exists results,
                         dev (log ++ map (pageWrite dc key startAddress)
                                       (seq from (S j)))
                         = Ack results
    | (Raised _, _) => False
    end.
Proof.
  induction n as [| n IH]; intros from log.
  - cbn. rewrite app_nil_r. split; [reflexivity |]. intros j Hj. lia.
  - cbn [seq map eachSeries].
    fold (pageWrite dc key startAddress from).
    destruct (dev (log ++ [pageWrite dc key startAddress from]))
      as [results | err] eqn:Hreply.
    + specialize (IH (S from) (log ++ [pageWrite dc key startAddress from])).
      destruct (eachSeries _ _ _) as [[[] | err | e] log'].
      * destruct IH as [-> Hacks]. rewrite <- app_assoc.
        split; [reflexivity |].
        intros [| j] Hj.
        -- cbn. eauto.
        -- destruct (Hacks j ltac:(lia)) as [r Hr]. exists r.
           rewrite <- Hr. cbn [seq map]. rewrite <- app_assoc. reflexivity.
      * destruct IH as (k & Hk & -> & Hnak & Hacks).
        exists (S k). rewrite <- app_assoc in *.
        repeat apply conj; try assumption; try lia; try reflexivity.
        intros [| j] Hj.
        -- cbn. eauto.
        -- destruct (Hacks j ltac:(lia)) as [r Hr]. exists r.
           rewrite <- Hr. cbn [seq map]. rewrite <- app_assoc. reflexivity.
      * exact IH.
    + exists 0%nat. cbn. repeat apply conj; try lia; try reflexivity.
      exact Hreply.
Qed.

End Erasing.

Lemma eraseFlash_with_device :
  forall dc bundle dev startAddress numPages key log,
    device bundle = Some dev ->
    eraseFlash dc bundle startAddress numPages key log
    = match
        eachSeries (map Z.of_nat (seq 0 (Z.to_nat numPages)))
          (fun (page : Z) (log : Log) =>
             let log' :=
               log ++ [CWriteMany [T7_MA_EXF_KEY dc; T7_MA_EXF_ERASE dc]
                         [key; startAddress + page * T7_FLASH_PAGE_SIZE dc]] in
             match dev log' with
             | Nak err => (@Failed unit err, log')
             | Ack _ => (Next tt, log')
             end)
          log
      with
      | (Next _, log') => (Resolved bundle, log')
      | (Failed err, log') => (Rejected (Error (decimal (Zpos err))), log')
      | (Raised e, log') => (Thrown e, log')
      end.
Proof.
  intros dc bundle dev startAddress numPages key log Hdev.
  unfold eraseFlash. rewrite range_pages, Hdev. reflexivity.
Qed.

(** Without a handle the first page throws, and nothing is sent. *)
Lemma eraseFlash_without_device :
  forall dc bundle startAddress numPages key log,
    device bundle = None ->
    eraseFlash dc bundle startAddress numPages key log
    = if (Z.to_nat numPages =? 0)%nat then (Resolved bundle, log)
      else (Thrown TypeError, log).
Proof.
  intros dc bundle startAddress numPages key log Hdev.
  unfold eraseFlash. rewrite range_pages, Hdev.
  destruct (Z.to_nat numPages); reflexivity.
Qed.

(** What every erase sends, and what it has sent when it resolves. *)
Lemma eraseFlash_log :
  forall dc bundle startAddress numPages key log,
    exists k,
      (k <= Z.to_nat numPages)%nat
      /\ snd (eraseFlash dc bundle startAddress numPages key log)
         = log ++ pageWrites dc key startAddress k
      /\ forall b,
          fst (eraseFlash dc bundle startAddress numPages key log)
          = Resolved b ->
          b = bundle /\ k = Z.to_nat numPages.
Proof.
  intros dc bundle startAddress numPages key log. unfold pageWrites.
  destruct (device bundle) as [dev |] eqn:Hdev.
  - rewrite (eraseFlash_with_device _ _ _ _ _ _ _ Hdev).
    pose proof (eachSeries_erase dc dev key startAddress (Z.to_nat numPages)
                  0%nat log) as H.
    destruct (eachSeries _ _ _) as [[[] | err | x] log']; cbn [fst snd].
    + destruct H as [-> _]. exists (Z.to_nat numPages).
      repeat apply conj; try reflexivity; try lia.
      intros b Hb. inversion Hb. auto.
    + destruct H as (k & Hk & -> & _). exists (S k).
      repeat apply conj; try reflexivity; try lia. discriminate.
    + contradiction.
  - rewrite (eraseFlash_without_device _ _ _ _ _ _ Hdev).
    exists 0%nat. cbn [seq map]. rewrite app_nil_r.
    destruct (Nat.eqb_spec (Z.to_nat numPages) 0) as [Hz | Hnz];
      cbn [fst snd]; repeat apply conj; try reflexivity; try lia.
    + intros b Hb. inversion Hb. split; [reflexivity | lia].
    + discriminate.
Qed.

(** X2.  With a device handle, [eraseFlash] resolves exactly when the
    device acknowledges the erase of every one of the [numPages] pages,
    each write made after the ones before it were acknowledged; it then
    resolves with the bundle it was given, after exactly [numPages] writes
    of the key and of the addresses [startAddress + i * T7_FLASH_PAGE_SIZE],
    in order. *)
Theorem eraseFlash_resolves_iff_acknowledged :
  forall dc bundle dev startAddress numPages key log,
    device bundle = Some dev ->
    (fst (eraseFlash dc bundle startAddress numPages key log)
     = Resolved bundle
     <-> forall j, (j < Z.to_nat numPages)%nat ->
                   exists results,
                     dev (log ++ pageWrites dc key startAddress (S j))
                     = Ack results)
    /\ (fst (eraseFlash dc bundle startAddress numPages key log)
        = Resolved bundle ->
        snd (eraseFlash dc bundle startAddress numPages key log)
        = log ++ pageWrites dc key startAddress (Z.to_nat numPages)).
Proof.
  intros dc bundle dev startAddress numPages key log Hdev.
  unfold pageWrites.
  rewrite (eraseFlash_with_device _ _ _ _ _ _ _ Hdev).
  pose proof (eachSeries_erase dc dev key startAddress (Z.to_nat numPages)
                0%nat log) as H.
  destruct (eachSeries _ _ _) as [[[] | err | x] log']; cbn [fst snd].
  - destruct H as [-> Hacks]. repeat apply conj; auto.
  - destruct H as (k & Hk & -> & Hnak & _).
    repeat apply conj; try discriminate.
    intros Hacks. destruct (Hacks k Hk) as [results Hack]. congruence.
  - contradiction.
Qed.

Lemma eraseFlash_resolves_iff_acknowledged_witness :
  fst (eraseFlash testConst (bundleWith (constantDevice 0)) 4096 2 1001 [])
  = Resolved (bundleWith (constantDevice 0))
  /\ snd (eraseFlash testConst (bundleWith (constantDevice 0)) 4096 2 1001 [])
     = [CWriteMany [61800; 61820] [1001; 4096];
        CWriteMany [61800; 61820] [1001; 4128]].
Proof.
  destruct (eraseFlash_resolves_iff_acknowledged testConst
              (bundleWith (constantDevice 0)) (constantDevice 0) 4096 2 1001 []
              eq_refl) as [Hiff Hlog].
  assert (Hres : fst (eraseFlash testConst (bundleWith (constantDevice 0))
                        4096 2 1001 [])
                 = Resolved (bundleWith (constantDevice 0))).
  { apply Hiff. intros j Hj. apply constantDevice_acknowledges. }
  split; [exact Hres |]. rewrite (Hlog Hres). reflexivity.
Defined.

(** X3.  A page whose erase the device rejects ends [eraseFlash]: when
    the device has acknowledged the pages before page [k] and rejects the
    write of page [k], the promise is rejected with an [Error] whose
    message is the error code, the rejected write is the last call made,
    and no later page is written. *)
Theorem eraseFlash_stops_at_rejected_page :
  forall dc bundle dev startAddress numPages key log k err,
    device bundle = Some dev ->
    (k < Z.to_nat numPages)%nat ->
    (forall j, (j < k)%nat ->
               exists results,
                 dev (log ++ pageWrites dc key startAddress (S j))
                 = Ack results) ->
    dev (log ++ pageWrites dc key startAddress (S k)) = Nak err ->
    eraseFlash dc bundle startAddress numPages key log
    = (Rejected (Error (decimal (Zpos err))),
       log ++ pageWrites dc key startAddress (S k)).
Proof.
  intros dc bundle dev startAddress numPages key log k err Hdev Hk Hacks
    Hnak.
  unfold pageWrites in *.
  rewrite (eraseFlash_with_device _ _ _ _ _ _ _ Hdev).
  pose proof (eachSeries_erase dc dev key startAddress (Z.to_nat numPages)
                0%nat log) as H.
  destruct (eachSeries _ _ _) as [[[] | err' | x] log'].
  - destruct H as [_ Hall]. destruct (Hall k Hk) as [results Hack].
    congruence.
  - destruct H as (k' & Hk' & -> & Hnak' & Hacks').
    destruct (Nat.lt_trichotomy k' k) as [Hlt | [-> | Hgt]].
    + destruct (Hacks k' Hlt) as [results Hack]. congruence.
    + rewrite Hnak in Hnak'. inversion Hnak'. reflexivity.
    + destruct (Hacks' k Hgt) as [results Hack]. congruence.
  - contradiction.
Qed.

Lemma eraseFlash_stops_at_rejected_page_witness :
  eraseFlash testConst (bundleWith (scriptedDevice [Ack []; Nak 7; Ack []]))
    4096 3 1001 []
  = (Rejected (Error "7"),
     [CWriteMany [61800; 61820] [1001; 4096];
      CWriteMany [61800; 61820] [1001; 4128]]).
Proof.
  apply (eraseFlash_stops_at_rejected_page testConst
           (bundleWith (scriptedDevice [Ack []; Nak 7; Ack []]))
           (scriptedDevice [Ack []; Nak 7; Ack []]) 4096 3 1001 [] 1%nat
           7%positive).
  - reflexivity.
  - cbn. lia.
  - intros j Hj. assert (j = 0%nat) as -> by lia. exists []. reflexivity.
  - reflexivity.
Defined.

(** X4.  Whatever the device does, [eraseImage] sends nothing but erase
    writes with the key of the image region to the first pages of that
    region, in order and at most [T7_IMG_FLASH_PAGE_ERASE] of them; it
    resolves only after it has written all of them, and then with the
    bundle it was given. *)
Theorem eraseImage_erases_image_region :
  forall dc bundle log,
    exists k,
      (k <= Z.to_nat (T7_IMG_FLASH_PAGE_ERASE dc))%nat
      /\ snd (eraseImage dc bundle log)
         = log ++ pageWrites dc (T7_EFkey_ExtFirmwareImage dc)
                    (T7_EFAdd_ExtFirmwareImage dc) k
      /\ forall v,
          fst (eraseImage dc bundle log) = Resolved v ->
          v = VBundle bundle /\ k = Z.to_nat (T7_IMG_FLASH_PAGE_ERASE dc).
Proof.
  intros dc bundle log. unfold eraseImage.
  destruct (eraseFlash_log dc bundle (T7_EFAdd_ExtFirmwareImage dc)
              (T7_IMG_FLASH_PAGE_ERASE dc) (T7_EFkey_ExtFirmwareImage dc) log)
    as (k & Hk & Hlog & Hres).
  exists k.
  destruct (eraseFlash _ _ _ _ _ _) as [[b | e | | e |] log'];
    cbn [fst snd] in *; repeat apply conj; try assumption;
    try discriminate.
  intros v Hv. inversion Hv. split; [reflexivity |].
  apply (Hres b eq_refl).
Qed.

(** X5.  Whatever the device does, [eraseImageInformation] sends nothing
    but erase writes with the key of the header region to the first pages
    of that region, in order and at most [T7_HDR_FLASH_PAGE_ERASE] of
    them; it resolves only after it has written all of them, and then with
    the bundle it was given. *)
Theorem eraseImageInformation_erases_header_region :
  forall dc bundle log,
    exists k,
      (k <= Z.to_nat (T7_HDR_FLASH_PAGE_ERASE dc))%nat
      /\ snd (eraseImageInformation dc bundle log)
         = log ++ pageWrites dc (T7_EFkey_ExtFirmwareImgInfo dc)
                    (T7_EFAdd_ExtFirmwareImgInfo dc) k
      /\ forall v,
          fst (eraseImageInformation dc bundle log) = Resolved v ->
          v = VBundle bundle /\ k = Z.to_nat (T7_HDR_FLASH_PAGE_ERASE dc).
Proof.
  intros dc bundle log. unfold eraseImageInformation.
  destruct (eraseFlash_log dc bundle (T7_EFAdd_ExtFirmwareImgInfo dc)
              (T7_HDR_FLASH_PAGE_ERASE dc) (T7_EFkey_ExtFirmwareImgInfo dc)
              log)
    as (k & Hk & Hlog & Hres).
  exists k.
  destruct (eraseFlash _ _ _ _ _ _) as [[b | e | | e |] log'];
    cbn [fst snd] in *; repeat apply conj; try assumption;
    try discriminate.
  intros v Hv. inversion Hv. split; [reflexivity |].
  apply (Hres b eq_refl).
Qed.

(* ------------------------------------------------------------------ *)
(** ** Rejections and exceptions of the flash engine *)

Section Outcomes.

Variables (dc : DriverConst) (bundle : Bundle) (key : option Z)
          (isReadOp : bool) (ptrAddress flashAddress : Z).

#[local] Abbreviation call :=
  (rwManyCall dc key isReadOp ptrAddress flashAddress).
#[local] Abbreviation run :=
  (reduceFrom dc bundle key isReadOp ptrAddress flashAddress).

(** With a handle, the run ends with the first transaction the device
    rejects, and all transactions before it were acknowledged. *)
Lemma reduce_outcome :
  forall dev,
    device bundle = Some dev ->
    forall ops memo log,
      match run ops memo log with
      | (Next _, log') =>
          log' = log ++ map call ops
          /\ forall j, (j < List.length ops)%nat ->
                       exists results,
                         dev (log ++ map call (firstn (S j) ops))
                         = Ack results
      | (Failed err, log') =>
          exists k,
            (k < List.length ops)%nat
            /\ log' = log ++ map call (firstn (S k) ops)
            /\ dev log' = Nak err
            /\ forall j, (j < k)%nat ->
                         exists results,
                           dev (log ++ map call (firstn (S j) ops))
                           = Ack results
      | (Raised _, _) => False
      end.
Proof.
  intros dev Hdev. induction ops as [| e ops IH]; intros memo log.
  - cbn. rewrite app_nil_r. split; [reflexivity |]. intros j Hj. lia.
  - rewrite reduceFrom_cons. unfold runExecution. rewrite Hdev.
    change (CRwMany
              (executionFrames dc key isReadOp ptrAddress flashAddress e))
      with (call e).
    destruct (dev (log ++ [call e])) as [results | err] eqn:Hreply.
    + specialize (IH (memo ++ results) (log ++ [call e])).
      destruct (run ops _ _) as [[memory | err | x] log'].
      * destruct IH as [-> Hacks]. rewrite <- app_assoc.
        split; [reflexivity |].
        intros [| j] Hj.
        -- cbn. eauto.
        -- cbn [List.length] in Hj.
           destruct (Hacks j ltac:(lia)) as [r Hr]. exists r.
           rewrite <- Hr. cbn [firstn map]. rewrite <- app_assoc.
           reflexivity.
      * destruct IH as (k & Hk & -> & Hnak & Hacks).
        exists (S k). rewrite <- app_assoc in *. cbn [List.length].
        repeat apply conj; try assumption; try lia; try reflexivity.
        intros [| j] Hj.
        -- cbn. eauto.
        -- destruct (Hacks j ltac:(lia)) as [r Hr]. exists r.
           rewrite <- Hr. cbn [firstn map]. rewrite <- app_assoc.
           reflexivity.
      * exact IH.
    + exists 0%nat. cbn [List.length firstn map].
      repeat apply conj; try lia; try reflexivity. exact Hreply.
Qed.

(** Without a handle, the first closure throws and nothing is sent. *)
Lemma reduce_without_device :
  device bundle = None ->
  forall ops memo log,
    run ops memo log
    = match ops with
      | [] => (Next memo, log)
      | _ :: _ => (Raised TypeError, log)
      end.
Proof.
  intros Hdev [| e ops] memo log; [reflexivity |].
  rewrite reduceFrom_cons. unfold runExecution. rewrite Hdev. reflexivity.
Qed.

End Outcomes.

(** X6.  A transaction that the device rejects ends a flash operation:
    when the chunk list is built, the device has acknowledged the
    transactions of the chunks before chunk [k] and rejects the
    transaction of chunk [k], the promise is rejected with the error code
    of the device, the rejected transaction is the last call made, and no
    later chunk is sent. *)
Theorem flash_operation_stops_at_rejection :
  forall dc bundle dev start len size ptr flash isReadOp key data log ops k
         err,
    device bundle = Some dev ->
    size <> 0 ->
    executeOperations start len size isReadOp data = inr ops ->
    (k < List.length ops)%nat ->
    (forall j, (j < k)%nat ->
               exists results,
                 dev (log ++ map (rwManyCall dc key isReadOp ptr flash)
                               (firstn (S j) ops))
                 = Ack results) ->
    dev (log ++ map (rwManyCall dc key isReadOp ptr flash) (firstn (S k) ops))
    = Nak err ->
    createFlashOperation dc bundle start len size ptr flash isReadOp key data
      log
    = (Rejected (LinkError err),
       log ++ map (rwManyCall dc key isReadOp ptr flash) (firstn (S k) ops)).
Proof.
  intros dc bundle dev start len size ptr flash isReadOp key data log ops k
    err Hdev Hsize Hops Hk Hacks Hnak.
  unfold createFlashOperation.
  replace (size =? 0) with false by (symmetry; apply Z.eqb_neq; exact Hsize).
  cbn [andb]. rewrite Hops. unfold reduceOperations.
  pose proof (reduce_outcome dc bundle key isReadOp ptr flash dev Hdev ops []
                log) as H.
  destruct (reduceFrom _ _ _ _ _ _ _ _ _) as [[memory | err' | x] log'].
  - destruct H as [_ Hall]. destruct (Hall k Hk) as [results Hack].
    congruence.
  - destruct H as (k' & Hk' & -> & Hnak' & Hacks').
    destruct (Nat.lt_trichotomy k' k) as [Hlt | [-> | Hgt]].
    + destruct (Hacks k' Hlt) as [results Hack]. congruence.
    + rewrite Hnak in Hnak'. inversion Hnak'. reflexivity.
    + destruct (Hacks' k Hgt) as [results Hack]. congruence.
  - contradiction.
Qed.

Lemma flash_operation_stops_at_rejection_witness :
  createFlashOperation testConst
    (bundleWith (scriptedDevice [Ack [1; 2]; Nak 9; Ack [5]]))
    0 5 2 61810 61812 true None None []
  = (Rejected (LinkError 9),
     [CRwMany {| addresses := [61810; 61812];
                 directions := [LJM_WRITE; LJM_READ];
                 numValues := [1; 2];
                 values := [VNum 0; VNull; VNull] |};
      CRwMany {| addresses := [61810; 61812];
                 directions := [LJM_WRITE; LJM_READ];
                 numValues := [1; 2];
                 values := [VNum 8; VNull; VNull] |}]).
Proof.
  apply (flash_operation_stops_at_rejection testConst
           (bundleWith (scriptedDevice [Ack [1; 2]; Nak 9; Ack [5]]))
           (scriptedDevice [Ack [1; 2]; Nak 9; Ack [5]])
           0 5 2 61810 61812 true None None []
           [createExecution 0 2 None; createExecution 8 2 None;
            createExecution 16 1 None]
           1%nat 9%positive).
  - reflexivity.
  - lia.
  - reflexivity.
  - cbn. lia.
  - intros j Hj. assert (j = 0%nat) as -> by lia. exists [1; 2]. reflexivity.
  - reflexivity.
Defined.

(** Only [getdata] makes the building of the chunk list throw. *)
Lemma fullChunks_throws :
  forall n isReadOp size data ops addr offset e,
    fullChunks n isReadOp size data ops addr offset = inl e ->
    isReadOp = false /\ exists position, getdata data 8 position = inl e.
Proof.
  induction n as [| n IH]; intros isReadOp size data ops addr offset e H;
    cbn [fullChunks] in H; [discriminate |].
  destruct isReadOp.
  - apply IH in H. destruct H as [H _]. discriminate.
  - destruct (getdata data 8 offset) as [e' | ws] eqn:Hget.
    + inversion H; subst. eauto.
    + apply IH in H. exact H.
Qed.

Lemma executeOperations_throws :
  forall start len size isReadOp data e,
    executeOperations start len size isReadOp data = inl e ->
    isReadOp = false
    /\ exists numIntegers position,
        getdata data numIntegers position = inl e.
Proof.
  intros start len size isReadOp data e H. unfold executeOperations in H.
  destruct (fullChunks _ _ _ _ _ _ _) as [e' | [[full addr] offset]] eqn:Hfull.
  - inversion H; subst. apply fullChunks_throws in Hfull.
    destruct Hfull as [Hwrite [position Hget]]. eauto.
  - destruct (_ && _); [| discriminate].
    destruct isReadOp; [discriminate |].
    destruct (getdata data (Z.rem len size) offset) as [e' | ws] eqn:Hget;
      [| discriminate].
    inversion H; subst. eauto.
Qed.

(** X7.  A flash operation that throws has sent nothing: it throws either
    from [getdata] while it builds the list of chunks of a write, before
    the first transaction, or at the first chunk because the bundle holds
    no device handle. *)
Theorem flash_operation_throws_before_sending :
  forall dc bundle start len size ptr flash isReadOp key data log e,
    fst (createFlashOperation dc bundle start len size ptr flash isReadOp key
           data log)
    = Thrown e ->
    snd (createFlashOperation dc bundle start len size ptr flash isReadOp key
           data log)
    = log
    /\ ((isReadOp = false
         /\ exists numIntegers position,
             getdata data numIntegers position = inl e)
        \/ (device bundle = None /\ e = TypeError)).
Proof.
  intros dc bundle start len size ptr flash isReadOp key data log e.
  unfold createFlashOperation.
  destruct (_ && _).
  { destruct isReadOp; [discriminate |].
    destruct (fullChunks _ _ _ _ _ _ _) as [e' | r] eqn:Hfull;
      [| discriminate].
    cbn [fst snd]. intros Heq. inversion Heq; subst.
    apply fullChunks_throws in Hfull.
    destruct Hfull as [_ [position Hget]]. split; [reflexivity |].
    left. eauto. }
  destruct (executeOperations _ _ _ _ _) as [x | ops] eqn:Hops.
  { cbn [fst snd]. intros Heq. inversion Heq; subst.
    apply executeOperations_throws in Hops. auto. }
  unfold reduceOperations.
  destruct (device bundle) as [dev |] eqn:Hdev.
  - pose proof (reduce_outcome dc bundle key isReadOp ptr flash dev Hdev ops []
                  log) as H.
    destruct (reduceFrom _ _ _ _ _ _ _ _ _) as [[memory | err | x] log'];
      cbn [fst snd]; try discriminate. contradiction.
  - rewrite (reduce_without_device dc bundle key isReadOp ptr flash Hdev).
    destruct ops; cbn [fst snd]; [discriminate |].
    intros Heq. inversion Heq; subst. auto.
Qed.

Lemma flash_operation_throws_before_sending_witness :
  snd (createFlashOperation testConst (bundleWith (constantDevice 0))
         0 1 0 61830 61832 false (Some 5) (Some (countingBytes 40 0)) [])
  = []
  /\ ((false = false
       /\ exists numIntegers position,
           getdata (Some (countingBytes 40 0)) numIntegers position
           = inl RangeError)
      \/ (device (bundleWith (constantDevice 0)) = None
          /\ RangeError = TypeError)).
Proof.
  apply (flash_operation_throws_before_sending testConst
           (bundleWith (constantDevice 0)) 0 1 0 61830 61832 false (Some 5)
           (Some (countingBytes 40 0)) [] RangeError).
  vm_compute. reflexivity.
Defined.

(** X8.  A flash operation of no length, with a chunk size that is not
    negative, makes no transaction and resolves at once with the bundle,
    whatever the bundle, the key and the data are. *)
Theorem flash_operation_of_no_length :
  forall dc bundle start len size ptr flash isReadOp key data log,
    len <= 0 -> 0 <= size ->
    createFlashOperation dc bundle start len size ptr flash isReadOp key data
      log
    = (Resolved (VBundle bundle), log).
Proof.
  intros dc bundle start len size ptr flash isReadOp key data log Hlen Hsize.
  unfold createFlashOperation.
  replace (0 <? len) with false by (symmetry; apply Z.ltb_ge; lia).
  rewrite andb_false_r. unfold executeOperations.
  assert (Hq : len / size <= 0).
  { destruct (Z.eq_dec size 0) as [-> | Hnz].
    - rewrite Z.div_0_r. lia.
    - apply Z.div_le_upper_bound; lia. }
  replace (Z.to_nat (len / size)) with 0%nat by lia. cbn [fullChunks].
  assert (Hr : Z.rem len size <= 0).
  { destruct (Z.eq_dec size 0) as [-> | Hnz].
    - rewrite Z.rem_0_r_ext by reflexivity. lia.
    - apply Z.rem_nonpos; lia. }
  replace (Z.rem len size >? 0) with false
    by (symmetry; rewrite Z.gtb_ltb; apply Z.ltb_ge; lia).
  reflexivity.
Qed.

Lemma flash_operation_of_no_length_witness :
  createFlashOperation testConst (bundleWithImage (constantDevice 0) [])
    4096 0 8 61830 61832 false (Some 1001) (Some []) []
  = (Resolved (VBundle (bundleWithImage (constantDevice 0) [])), []).
Proof.
  apply (flash_operation_of_no_length testConst
           (bundleWithImage (constantDevice 0) []) 4096 0 8 61830 61832 false
           (Some 1001) (Some []) []); lia.
Defined.

(* ------------------------------------------------------------------ *)
(** ** The words that [getdata] cuts out, and the words a write sends *)

Lemma firstn_plus {A : Type} (a b : nat) (l : list A) :
  firstn (a + b) l = firstn a l ++ firstn b (skipn a l).
Proof.
  revert l. induction a as [| a IH]; intros [| x l]; cbn;
    try reflexivity.
  - destruct b; reflexivity.
  - rewrite IH. reflexivity.
Qed.

Lemma skipn_nth_error {A : Type} (j : nat) (l : list A) (x : A) :
  nth_error l j = Some x -> skipn j l = x :: skipn (S j) l.
Proof.
  revert l. induction j as [| j IH]; intros [| y l] H; cbn in *;
    try discriminate.
  - inversion H. reflexivity.
  - rewrite (IH l H). destruct l; reflexivity.
Qed.

Lemma words_length_below :
  forall m buffer,
    (List.length buffer < 4 * m)%nat ->
    List.length (words buffer) = (List.length buffer / 4)%nat.
Proof.
  induction m as [| m IH]; intros buffer Hlen; [lia |].
  destruct buffer as [| b0 [| b1 [| b2 [| b3 rest]]]]; try reflexivity.
  cbn [words List.length] in *. rewrite IH by lia.
  replace (S (S (S (S (List.length rest)))))
    with (1 * 4 + List.length rest)%nat by lia.
  rewrite Nat.div_add_l by lia. reflexivity.
Qed.

Lemma words_length buffer :
  Z.of_nat (List.length (words buffer)) = Z.of_nat (List.length buffer) / 4.
Proof.
  rewrite (words_length_below (S (List.length buffer))) by lia.
  apply (Nat2Z.inj_div _ 4).
Qed.

(** The word at a byte offset that is a multiple of four. *)
Lemma readUInt32BE_words :
  forall j buffer,
    readUInt32BE buffer (4 * Z.of_nat j) = nth_error (words buffer) j.
Proof.
  intros j buffer. unfold readUInt32BE.
  replace (4 * Z.of_nat j <? 0) with false by (symmetry; apply Z.ltb_ge; lia).
  replace (Z.to_nat (4 * Z.of_nat j)) with (4 * j)%nat by lia.
  revert buffer. induction j as [| j IH]; intros buffer.
  - destruct buffer as [| b0 [| b1 [| b2 [| b3 rest]]]]; reflexivity.
  - replace (4 * S j)%nat with (4 * j + 4)%nat by lia.
    rewrite <- skipn_skipn.
    destruct buffer as [| b0 [| b1 [| b2 [| b3 rest]]]];
      cbn [skipn words nth_error];
      try (rewrite skipn_nil; reflexivity).
    apply IH.
Qed.

Lemma getdata_loop_words :
  forall buffer k n i retArray,
    getdata_loop (Some buffer) n (Z.of_nat i) (4 * Z.of_nat k) retArray
    = if ((n =? 0) || (k + i + n <=? List.length (words buffer)))%nat
      then inr (retArray ++ firstn n (skipn (k + i) (words buffer)))
      else inl RangeError.
Proof.
  intros buffer k. induction n as [| n IH]; intros i retArray;
    cbn [getdata_loop].
  - cbn. rewrite app_nil_r. reflexivity.
  - replace (Z.of_nat i * 4 + 4 * Z.of_nat k) with (4 * Z.of_nat (k + i))
      by lia.
    rewrite readUInt32BE_words.
    destruct (nth_error (words buffer) (k + i)) as [word |] eqn:Hword.
    + replace (Z.of_nat i + 1) with (Z.of_nat (S i)) by lia.
      rewrite IH.
      assert (Hin : (k + i < List.length (words buffer))%nat)
        by (apply nth_error_Some; congruence).
      rewrite (skipn_nth_error _ _ _ Hword). cbn [firstn Nat.eqb orb].
      replace (k + S i)%nat with (S (k + i)) by lia.
      rewrite <- app_assoc. cbn [app].
      destruct (Nat.leb_spec (k + i + S n) (List.length (words buffer)))
        as [Hle | Hgt].
      * replace (S (k + i) + n <=? List.length (words buffer))%nat with true
          by (symmetry; apply Nat.leb_le; lia).
        rewrite orb_true_r. reflexivity.
      * replace (S (k + i) + n <=? List.length (words buffer))%nat with false
          by (symmetry; apply Nat.leb_gt; lia).
        rewrite orb_false_r.
        destruct n as [| n]; [lia | reflexivity].
    + apply nth_error_None in Hword. cbn [Nat.eqb orb].
      replace (k + i + S n <=? List.length (words buffer))%nat with false
        by (symmetry; apply Nat.leb_gt; lia).
      reflexivity.
Qed.

Lemma getdata_words :
  forall buffer n k,
    getdata (Some buffer) (Z.of_nat n) (4 * Z.of_nat k)
    = if ((n =? 0) || (k + n <=? List.length (words buffer)))%nat
      then inr (firstn n (skipn k (words buffer)))
      else inl RangeError.
Proof.
  intros buffer n k. unfold getdata.
  rewrite Nat2Z.id. change 0 with (Z.of_nat 0) at 1.
  rewrite (getdata_loop_words buffer k n 0 []). cbn [app].
  rewrite !Nat.add_0_r. reflexivity.
Qed.

(** X9.  At a byte offset that is a multiple of four, [getdata] returns
    the [n] consecutive big-endian words of the buffer from that offset
    on, and it throws a [RangeError] exactly when [n] is not zero and the
    buffer does not hold [n] whole words from there. *)
Theorem getdata_consecutive_words :
  forall buffer n k,
    getdata (Some buffer) (Z.of_nat n) (4 * Z.of_nat k)
    = if (n =? 0)%nat
         || (4 * (Z.of_nat k + Z.of_nat n) <=? Z.of_nat (List.length buffer))
      then inr (firstn n (skipn k (words buffer)))
      else inl RangeError.
Proof.
  intros buffer n k. rewrite getdata_words.
  pose proof (words_length buffer) as Hlen.
  pose proof (Z.div_mod (Z.of_nat (List.length buffer)) 4 ltac:(lia)) as Hdm.
  pose proof (Z.mod_pos_bound (Z.of_nat (List.length buffer)) 4 ltac:(lia))
    as Hmod.
  destruct (Nat.leb_spec (k + n) (List.length (words buffer)));
    destruct (Z.leb_spec (4 * (Z.of_nat k + Z.of_nat n))
                (Z.of_nat (List.length buffer)));
    try reflexivity; lia.
Qed.

Section Writing.

Variables (dc : DriverConst) (key : option Z) (ptrAddress flashAddress : Z).

#[local] Abbreviation sent :=
  (fun e => wordsWritten (rwManyCall dc key false ptrAddress flashAddress e)).

Lemma wordsWritten_write address innerSize ws :
  sent (createExecution address innerSize (Some ws)) = map VNum ws.
Proof. destruct key; reflexivity. Qed.

Lemma fullChunks_words :
  forall buffer size n ops addr k ops' addr' offset',
    fullChunks n false size (Some buffer) ops addr (4 * Z.of_nat k)
    = inr (ops', addr', offset') ->
    exists chunks,
      ops' = ops ++ chunks
      /\ List.concat (map sent chunks)
         = map VNum (firstn (8 * n) (skipn k (words buffer)))
      /\ offset' = 4 * Z.of_nat (k + 8 * n).
Proof.
  intros buffer size. induction n as [| n IH];
    intros ops addr k ops' addr' offset' H; cbn [fullChunks] in H.
  - injection H as <- <- <-. exists [].
    rewrite app_nil_r, Nat.mul_0_r, Nat.add_0_r.
    repeat apply conj; reflexivity.
  - change 8 with (Z.of_nat 8) in H at 1.
    rewrite getdata_words in H.
    destruct ((8 =? 0)%nat || (k + 8 <=? List.length (words buffer)))%nat;
      [| discriminate].
    replace (4 * Z.of_nat k + 32) with (4 * Z.of_nat (k + 8)) in H by lia.
    apply IH in H. destruct H as (chunks & -> & Hsent & ->).
    exists (createExecution addr size
              (Some (firstn 8 (skipn k (words buffer)))) :: chunks).
    rewrite <- app_assoc. repeat apply conj; try reflexivity.
    + cbn [map List.concat]. rewrite wordsWritten_write, Hsent.
      rewrite <- map_app. f_equal.
      replace (8 * S n)%nat with (8 + 8 * n)%nat by lia.
      rewrite firstn_plus, skipn_skipn. do 3 f_equal. lia.
    + f_equal. lia.
Qed.

(** With the chunk size 8 the chunks carry the first [len] words of the
    data, in order, when the data hold them. *)
Lemma executeOperations_words :
  forall buffer start len,
    0 <= len -> 4 * len <= Z.of_nat (List.length buffer) ->
    exists ops,
      executeOperations start len 8 false (Some buffer) = inr ops
      /\ List.concat (map sent ops)
         = map VNum (firstn (Z.to_nat len) (words buffer)).
Proof.
  intros buffer start len Hlen Hdata.
  assert (Hbuilt : exists ops,
             executeOperations start len 8 false (Some buffer) = inr ops).
  { destruct (Z.eq_dec len 0) as [-> | Hnz].
    - eexists. reflexivity.
    - apply executeOperations_write_built_eight; lia. }
  destruct Hbuilt as [ops Hops]. exists ops. split; [exact Hops |].
  unfold executeOperations in Hops.
  rewrite Z.rem_mod_nonneg in Hops by lia.
  pose proof (Z.div_pos len 8 ltac:(lia) ltac:(lia)) as Hq.
  pose proof (Z.mod_pos_bound len 8 ltac:(lia)) as Hr.
  pose proof (Z.div_mod len 8 ltac:(lia)) as Hdm.
  change 0 with (4 * Z.of_nat 0) in Hops at 1.
  destruct (fullChunks _ _ _ _ _ _ _) as [e | [[full addr] offset]] eqn:Hfull;
    [discriminate |].
  apply fullChunks_words in Hfull.
  destruct Hfull as (chunks & -> & Hsent & ->). cbn [app] in Hops.
  cbn [skipn] in Hsent.
  destruct (Z.gtb_spec (len mod 8) 0) as [Htail | Hnotail]; cbn [andb] in Hops.
  - replace (len mod 8) with (Z.of_nat (Z.to_nat (len mod 8))) in Hops at 1
      by lia.
    rewrite getdata_words in Hops.
    destruct ((_ =? 0)%nat || _)%nat; [| discriminate].
    inversion Hops; subst ops.
    rewrite map_app, concat_app, Hsent. cbn [map List.concat].
    rewrite wordsWritten_write, app_nil_r, <- map_app. f_equal.
    replace (Z.to_nat len)
      with (8 * Z.to_nat (len / 8) + Z.to_nat (len mod 8))%nat by lia.
    rewrite firstn_plus. reflexivity.
  - inversion Hops; subst ops. rewrite Hsent. do 2 f_equal. lia.
Qed.

End Writing.

(** *** Where the building of the chunk list of a write throws *)

Lemma getdata_loop_error :
  forall buffer n i offset retArray e,
    getdata_loop (Some buffer) n i offset retArray = inl e -> e = RangeError.
Proof.
  intros buffer. induction n as [| n IH]; intros i offset retArray e H;
    cbn [getdata_loop] in H; [discriminate |].
  destruct (readUInt32BE buffer (i * 4 + offset)).
  - apply IH in H. exact H.
  - inversion H. reflexivity.
Qed.

Lemma fullChunks_error :
  forall buffer size n ops addr offset e,
    fullChunks n false size (Some buffer) ops addr offset = inl e ->
    e = RangeError.
Proof.
  intros buffer size n ops addr offset e H.
  apply fullChunks_throws in H. destruct H as [_ [position H]].
  unfold getdata in H. apply getdata_loop_error in H. exact H.
Qed.

(** Full chunks that are built lie inside the data. *)
Lemma fullChunks_inside :
  forall buffer size n ops addr k r,
    fullChunks n false size (Some buffer) ops addr (4 * Z.of_nat k) = inr r ->
    n = 0%nat \/ (k + 8 * n <= List.length (words buffer))%nat.
Proof.
  intros buffer size. induction n as [| n IH]; intros ops addr k r H;
    [left; reflexivity |].
  right. cbn [fullChunks] in H.
  change 8 with (Z.of_nat 8) in H at 1. rewrite getdata_words in H.
  destruct (Nat.leb_spec (k + 8) (List.length (words buffer))) as [Hin | Hout];
    cbn [Nat.eqb orb] in H; [| discriminate].
  replace (4 * Z.of_nat k + 32) with (4 * Z.of_nat (k + 8)) in H by lia.
  apply IH in H. lia.
Qed.

(** With a zero chunk size and a positive length, a write throws from
    [getdata] in its first loop and sends nothing: a [RangeError] at the
    end of the data, a [TypeError] when there are no data. *)
Lemma write_with_zero_chunk_size_throws :
  forall dc bundle start len ptr flash key data log,
    0 < len ->
    createFlashOperation dc bundle start len 0 ptr flash false key data log
    = (Thrown match data with
              | Some _ => RangeError
              | None => TypeError
              end,
       log).
Proof.
  intros dc bundle start len ptr flash key data log Hlen.
  unfold createFlashOperation.
  replace (0 <? len) with true by (symmetry; apply Z.ltb_lt; exact Hlen).
  cbn [Z.eqb andb]. destruct data as [buffer |]; [| reflexivity].
  change 0 with (4 * Z.of_nat 0) at 2.
  destruct (fullChunks _ _ _ _ _ _ _) as [e | r] eqn:Hfull.
  - apply fullChunks_error in Hfull. subst e. reflexivity.
  - apply fullChunks_inside in Hfull. exfalso.
    pose proof (words_length_below (S (List.length buffer)) buffer
                  ltac:(lia)) as Hwords.
    pose proof (Nat.div_mod_eq (List.length buffer) 32) as H32.
    pose proof (Nat.mod_upper_bound (List.length buffer) 32 ltac:(lia)).
    pose proof (Nat.div_mod_eq (List.length buffer) 4) as H4.
    pose proof (Nat.mod_upper_bound (List.length buffer) 4 ltac:(lia)).
    destruct Hfull as [Hzero | Hin]; lia.
Qed.

(** A write of the whole of its data, in chunks of fewer than eight words
    of which at least one is full, throws while it builds its chunk list
    and sends nothing: the chunks are cut out of the data eight words at
    a time. *)
Lemma write_in_small_chunks_throws :
  forall dc bundle start len size key buffer log,
    1 <= size < 8 -> size <= len ->
    Z.of_nat (List.length buffer) = 4 * len ->
    writeFlash dc bundle start len size key (Some buffer) log
    = (Thrown RangeError, log).
Proof.
  intros dc bundle start len size key buffer log Hsize Hlen Hdata.
  unfold writeFlash, createFlashOperation.
  replace (size =? 0) with false by (symmetry; apply Z.eqb_neq; lia).
  cbn [andb]. unfold executeOperations.
  rewrite Z.rem_mod_nonneg by lia.
  pose proof (Z.div_mod len size ltac:(lia)) as Hdm.
  pose proof (Z.mod_pos_bound len size ltac:(lia)) as Hr.
  assert (Hq : 1 <= len / size)
    by (apply Z.div_le_lower_bound; lia).
  pose proof (words_length buffer) as Hwords.
  rewrite Hdata, Z.mul_comm, Z.div_mul in Hwords by lia.
  change 0 with (4 * Z.of_nat 0) at 1.
  destruct (fullChunks _ _ _ _ _ _ _) as [e | [[full addr] offset]] eqn:Hfull.
  - apply fullChunks_error in Hfull. subst e. reflexivity.
  - pose proof (fullChunks_inside _ _ _ _ _ _ _ Hfull) as Hin.
    apply (fullChunks_words dc key (T7_MA_EXF_pWRITE dc)
             (T7_MA_EXF_WRITE dc)) in Hfull.
    destruct Hfull as (chunks & _ & _ & ->).
    assert (Htail : 0 < len mod size) by nia.
    replace (len mod size >? 0) with true
      by (symmetry; apply Z.gtb_lt; exact Htail).
    cbn [andb].
    replace (len mod size) with (Z.of_nat (Z.to_nat (len mod size))) at 1
      by lia.
    rewrite getdata_words.
    replace (Z.to_nat (len mod size) =? 0)%nat with false
      by (symmetry; apply Nat.eqb_neq; lia).
    replace (0 + 8 * Z.to_nat (len / size) + Z.to_nat (len mod size)
             <=? List.length (words buffer))%nat
      with false by (symmetry; apply Nat.leb_gt; nia).
    reflexivity.
Qed.

Lemma writeFlash_words :
  forall dc bundle dev start len key buffer log,
    device bundle = Some dev -> acknowledges dev ->
    0 <= len -> 4 * len <= Z.of_nat (List.length buffer) ->
    exists calls,
      writeFlash dc bundle start len 8 key (Some buffer) log
      = (Resolved (VBundle bundle), log ++ calls)
      /\ List.concat (map wordsWritten calls)
         = map VNum (firstn (Z.to_nat len) (words buffer)).
Proof.
  intros dc bundle dev start len key buffer log Hdev Hack Hlen Hdata.
  destruct (executeOperations_words dc key (T7_MA_EXF_pWRITE dc)
              (T7_MA_EXF_WRITE dc) buffer start len Hlen Hdata)
    as (ops & Hops & Hsent).
  exists (map (rwManyCall dc key false (T7_MA_EXF_pWRITE dc)
                 (T7_MA_EXF_WRITE dc)) ops).
  split.
  - unfold writeFlash, createFlashOperation. cbn [Z.eqb andb].
    rewrite Hops. unfold reduceOperations.
    destruct (reduce_acknowledged dc bundle key false (T7_MA_EXF_pWRITE dc)
                (T7_MA_EXF_WRITE dc) dev Hdev Hack ops [] log) as [memory ->].
    reflexivity.
  - rewrite map_map. exact Hsent.
Qed.

(** X10.  With the chunk size 8, a write to a device that acknowledges
    every transaction resolves with the bundle, and the values its
    transactions hand to the window register are, put end to end, the
    first [len] big-endian words of the data: every word is sent once, in
    the order of the data. *)
Theorem writeFlash_sends_data_in_order :
  forall dc bundle dev start len key buffer log,
    device bundle = Some dev -> acknowledges dev ->
    0 <= len -> 4 * len <= Z.of_nat (List.length buffer) ->
    exists calls,
      writeFlash dc bundle start len 8 key (Some buffer) log
      = (Resolved (VBundle bundle), log ++ calls)
      /\ List.concat (map wordsWritten calls)
         = map VNum (firstn (Z.to_nat len) (words buffer)).
Proof.
  intros dc bundle dev start len key buffer log.
  apply writeFlash_words.
Qed.

Lemma writeFlash_sends_data_in_order_witness :
  exists calls,
    writeFlash testConst (bundleWith (constantDevice 0)) 4096 9 8 (Some 1001)
      (Some (countingBytes 36 0)) []
    = (Resolved (VBundle (bundleWith (constantDevice 0))), [] ++ calls)
    /\ List.concat (map wordsWritten calls)
       = map VNum (firstn (Z.to_nat 9) (words (countingBytes 36 0))).
Proof.
  apply (writeFlash_sends_data_in_order testConst
           (bundleWith (constantDevice 0)) (constantDevice 0) 4096 9
           (Some 1001) (countingBytes 36 0) []).
  - reflexivity.
  - apply constantDevice_acknowledges.
  - lia.
  - vm_compute. discriminate.
Defined.

Lemma firstn_words_all (buffer : list byte) (m : Z) :
  Z.of_nat (List.length buffer) = 4 * m ->
  Z.of_nat (List.length buffer) / 4 = m
  /\ firstn (Z.to_nat m) (words buffer) = words buffer.
Proof.
  intros Hlen. pose proof (words_length buffer) as Hw.
  assert (Hm : Z.of_nat (List.length buffer) / 4 = m).
  { rewrite Hlen, Z.mul_comm. apply Z.div_mul. lia. }
  split; [exact Hm |]. apply firstn_all2. lia.
Qed.

Lemma writeImage_words :
  forall dc bundle dev image log,
    device bundle = Some dev -> acknowledges dev ->
    firmwareImage bundle = Some image ->
    T7_FLASH_BLOCK_WRITE_SIZE dc = 8 ->
    Z.of_nat (List.length image) mod 4 = 0 ->
    exists calls,
      writeImage dc bundle log = (Resolved (VBundle bundle), log ++ calls)
      /\ List.concat (map wordsWritten calls) = map VNum (words image).
Proof.
  intros dc bundle dev image log Hdev Hack Himage Hblock Hwhole.
  apply Z.mod_divide in Hwhole; [| lia]. destruct Hwhole as [m Hm].
  rewrite Z.mul_comm in Hm.
  destruct (firstn_words_all image m Hm) as [Hdiv Hall].
  destruct (writeFlash_words dc bundle dev
              (T7_EFAdd_ExtFirmwareImage dc) m
              (Some (T7_EFkey_ExtFirmwareImage dc)) image log Hdev Hack
              ltac:(lia) ltac:(lia)) as (calls & Hwrite & Hsent).
  exists calls. unfold writeImage. rewrite Himage, Hblock, Hdiv, Hwrite.
  split; [reflexivity |]. rewrite Hsent, Hall. reflexivity.
Qed.

(** X11.  With the block size 8 and an image of a whole number of words,
    [writeImage] on a device that acknowledges every transaction resolves
    with the bundle, and its transactions hand the words of the image to
    the window register, every word once and in order. *)
Theorem writeImage_sends_image :
  forall dc bundle dev image log,
    device bundle = Some dev -> acknowledges dev ->
    firmwareImage bundle = Some image ->
    T7_FLASH_BLOCK_WRITE_SIZE dc = 8 ->
    Z.of_nat (List.length image) mod 4 = 0 ->
    exists calls,
      writeImage dc bundle log = (Resolved (VBundle bundle), log ++ calls)
      /\ List.concat (map wordsWritten calls) = map VNum (words image).
Proof.
  intros dc bundle dev image log. apply writeImage_words.
Qed.

Lemma writeImage_sends_image_witness :
  exists calls,
    writeImage testConst
      (bundleWithImage (constantDevice 0) (countingBytes 40 0)) []
    = (Resolved
         (VBundle (bundleWithImage (constantDevice 0) (countingBytes 40 0))),
       [] ++ calls)
    /\ List.concat (map wordsWritten calls)
       = map VNum (words (countingBytes 40 0)).
Proof.
  apply (writeImage_sends_image testConst
           (bundleWithImage (constantDevice 0) (countingBytes 40 0))
           (constantDevice 0) (countingBytes 40 0) []).
  - reflexivity.
  - apply constantDevice_acknowledges.
  - reflexivity.
  - reflexivity.
  - reflexivity.
Defined.

Lemma writeImageInformation_words :
  forall dc bundle dev information log,
    device bundle = Some dev -> acknowledges dev ->
    firmwareImageInformation bundle = Some information ->
    T7_FLASH_BLOCK_WRITE_SIZE dc = 8 ->
    Z.of_nat (List.length (rawImageInfo information)) mod 4 = 0 ->
    exists calls,
      writeImageInformation dc bundle log
      = (Resolved (VBundle bundle), log ++ calls)
      /\ List.concat (map wordsWritten calls)
         = map VNum (words (rawImageInfo information)).
Proof.
  intros dc bundle dev information log Hdev Hack Hinfo Hblock Hwhole.
  apply Z.mod_divide in Hwhole; [| lia]. destruct Hwhole as [m Hm].
  rewrite Z.mul_comm in Hm.
  destruct (firstn_words_all (rawImageInfo information) m Hm)
    as [Hdiv Hall].
  destruct (writeFlash_words dc bundle dev
              (T7_EFAdd_ExtFirmwareImgInfo dc) m
              (Some (T7_EFkey_ExtFirmwareImgInfo dc))
              (rawImageInfo information) log Hdev Hack
              ltac:(lia) ltac:(lia)) as (calls & Hwrite & Hsent).
  exists calls. unfold writeImageInformation.
  rewrite Hinfo. cbn zeta. rewrite Hblock, Hdiv, Hwrite.
  split; [reflexivity |]. rewrite Hsent, Hall. reflexivity.
Qed.

(** X12.  With the block size 8 and a header of a whole number of words,
    [writeImageInformation] on a device that acknowledges every
    transaction resolves with the bundle, and its transactions hand the
    words of the raw header to the window register, every word once and
    in order. *)
Theorem writeImageInformation_sends_header :
  forall dc bundle dev information log,
    device bundle = Some dev -> acknowledges dev ->
    firmwareImageInformation bundle = Some information ->
    T7_FLASH_BLOCK_WRITE_SIZE dc = 8 ->
    Z.of_nat (List.length (rawImageInfo information)) mod 4 = 0 ->
    exists calls,
      writeImageInformation dc bundle log
      = (Resolved (VBundle bundle), log ++ calls)
      /\ List.concat (map wordsWritten calls)
         = map VNum (words (rawImageInfo information)).
Proof.
  intros dc bundle dev information log. apply writeImageInformation_words.
Qed.

Lemma writeImageInformation_sends_header_witness :
  exists calls,
    writeImageInformation testConst
      {| firmwareImageInformation := Some sampleInformation;
         firmwareImage := None;
         device := Some (constantDevice 0);
         version := None;
         serial := None |} []
    = (Resolved
         (VBundle {| firmwareImageInformation := Some sampleInformation;
                     firmwareImage := None;
                     device := Some (constantDevice 0);
                     version := None;
                     serial := None |}),
       [] ++ calls)
    /\ List.concat (map wordsWritten calls)
       = map VNum (words (rawImageInfo sampleInformation)).
Proof.
  apply (writeImageInformation_sends_header testConst
           {| firmwareImageInformation := Some sampleInformation;
              firmwareImage := None;
              device := Some (constantDevice 0);
              version := None;
              serial := None |}
           (constantDevice 0) sampleInformation []).
  - reflexivity.
  - apply constantDevice_acknowledges.
  - reflexivity.
  - reflexivity.
  - reflexivity.
Defined.

(* ------------------------------------------------------------------ *)
(** ** How the reads and the two checks can end *)

(** A read resolves with the bundle, is rejected with an error code of
    the device, throws for want of a device handle, or never returns (a
    zero chunk size); its promise is never left pending. *)
Lemma readFlash_outcomes :
  forall dc bundle start len size log,
    match fst (readFlash dc bundle start len size log) with
    | Resolved v => v = VBundle bundle
    | Rejected e => exists err, e = LinkError err
    | Thrown e => e = TypeError /\ device bundle = None
    | Pending => False
    | Diverged => size = 0
    end.
Proof.
  intros dc bundle start len size log.
  unfold readFlash, createFlashOperation.
  destruct (Z.eqb_spec size 0) as [Hz | Hnz]; cbn [andb].
  - destruct (0 <? len); [exact Hz |].
    destruct (executeOperations_read_total start len size None) as [ops ->].
    unfold reduceOperations.
    destruct (device bundle) as [dev |] eqn:Hdev.
    + pose proof (reduce_outcome dc bundle None true (T7_MA_EXF_pREAD dc)
                    (T7_MA_EXF_READ dc) dev Hdev ops [] log) as H.
      destruct (reduceFrom _ _ _ _ _ _ _ _ _) as [[memory | err | x] log'];
        cbn [fst]; eauto. contradiction.
    + rewrite (reduce_without_device dc bundle None true _ _ Hdev).
      destruct ops; cbn [fst]; auto.
  - destruct (executeOperations_read_total start len size None) as [ops ->].
    unfold reduceOperations.
    destruct (device bundle) as [dev |] eqn:Hdev.
    + pose proof (reduce_outcome dc bundle None true (T7_MA_EXF_pREAD dc)
                    (T7_MA_EXF_READ dc) dev Hdev ops [] log) as H.
      destruct (reduceFrom _ _ _ _ _ _ _ _ _) as [[memory | err | x] log'];
        cbn [fst]; eauto. contradiction.
    + rewrite (reduce_without_device dc bundle None true _ _ Hdev).
      destruct ops; cbn [fst]; auto.
Qed.

Lemma readImage_outcomes :
  forall dc bundle log,
    match fst (readImage dc bundle log) with
    | Resolved v => v = VBundle bundle
    | Rejected e => exists err, e = LinkError err
    | Thrown e => e = TypeError /\ device bundle = None
    | Pending => False
    | Diverged => T7_FLASH_BLOCK_WRITE_SIZE dc = 0
    end.
Proof.
  intros dc bundle log. unfold readImage.
  pose proof (readFlash_outcomes dc bundle (T7_EFAdd_ExtFirmwareImage dc)
                (T7_IMG_FLASH_PAGE_ERASE dc * T7_FLASH_PAGE_SIZE dc / 4)
                (T7_FLASH_BLOCK_WRITE_SIZE dc) log) as H.
  destruct (readFlash _ _ _ _ _ _) as [[v | e | | e |] log'];
    cbn [fst] in *; auto.
Qed.

Lemma readImageInformation_outcomes :
  forall dc bundle log,
    match fst (readImageInformation dc bundle log) with
    | Resolved v => v = VBundle bundle
    | Rejected e => exists err, e = LinkError err
    | Thrown e => e = TypeError /\ device bundle = None
    | Pending => False
    | Diverged => T7_FLASH_BLOCK_WRITE_SIZE dc = 0
    end.
Proof.
  intros dc bundle log. unfold readImageInformation.
  pose proof (readFlash_outcomes dc bundle (T7_EFAdd_ExtFirmwareImgInfo dc)
                (T7_HDR_FLASH_PAGE_ERASE dc * T7_FLASH_PAGE_SIZE dc / 4)
                (T7_FLASH_BLOCK_WRITE_SIZE dc) log) as H.
  destruct (readFlash _ _ _ _ _ _) as [[v | e | | e |] log'];
    cbn [fst] in *; auto.
Qed.

(** X13.  Whatever the device reads back, [checkErase] never rejects with
    an [Error] of its own, so never with [Memory not zeroed.]: it
    resolves with the bundle, is rejected with an error code of the
    device or with the [TypeError] of a missing device handle, stays
    pending, throws that [TypeError], or does not return. *)
Theorem checkErase_outcomes :
  forall dc bundle log,
    match fst (checkErase dc bundle log) with
    | Resolved v => v = VBundle bundle
    | Rejected e => e = TypeError \/ exists err, e = LinkError err
    | Thrown e => e = TypeError
    | Pending => True
    | Diverged => T7_FLASH_BLOCK_WRITE_SIZE dc = 0
    end.
Proof.
  intros dc bundle log. unfold checkErase.
  pose proof (readImageInformation_outcomes dc bundle log) as Hfirst.
  destruct (readImageInformation dc bundle log) as [first log1].
  pose proof (readImage_outcomes dc bundle log1) as Hsecond.
  destruct first as [v | e | | e |]; cbn [fst] in Hfirst;
    try (cbn [fst]; tauto);
    destruct (readImage dc bundle log1) as [[v2 | e2 | | e2 |] log2];
    cbn [fst] in Hsecond; cbn [fst settle promise];
    subst; cbn [isAllZeroed negb fst promise settle]; tauto.
Qed.

(** X14.  Whatever the device reads back, [checkImageWrite] never rejects
    with an [Error] of its own, so never with [Unexpected image data at]:
    it resolves with the bundle, is rejected with an error code of the
    device, throws the [TypeError] of a missing device handle, or does not
    return; its promise is never left pending. *)
Theorem checkImageWrite_outcomes :
  forall dc bundle log,
    match fst (checkImageWrite dc bundle log) with
    | Resolved v => v = VBundle bundle
    | Rejected e => exists err, e = LinkError err
    | Thrown e => e = TypeError
    | Pending => False
    | Diverged => T7_FLASH_BLOCK_WRITE_SIZE dc = 0
    end.
Proof.
  intros dc bundle log. unfold checkImageWrite.
  pose proof (readImage_outcomes dc bundle log) as H.
  destruct (readImage dc bundle log) as [[v | e | | e |] log'];
    cbn [fst] in *; try tauto.
  subst v. reflexivity.
Qed.

(** X15.  When the read of the header region resolves and the device then
    rejects a transaction of the read of the image region, the promise of
    [checkErase] is never settled. *)
Theorem checkErase_hangs_on_rejected_image_read :
  forall dc bundle log v e,
    fst (readImageInformation dc bundle log) = Resolved v ->
    fst (readImage dc bundle (snd (readImageInformation dc bundle log)))
    = Rejected e ->
    fst (checkErase dc bundle log) = Pending.
Proof.
  intros dc bundle log v e Hfirst Hsecond. unfold checkErase.
  destruct (readImageInformation dc bundle log) as [first log1].
  cbn [fst snd] in *. subst first.
  destruct (readImage dc bundle log1) as [second log2].
  cbn [fst] in *. subst second. reflexivity.
Qed.

Lemma checkErase_hangs_on_rejected_image_read_witness :
  fst (checkErase testConst
         (bundleWith (scriptedDevice [Ack (repeat 4294967295 8); Nak 3])) [])
  = Pending.
Proof.
  apply (checkErase_hangs_on_rejected_image_read testConst
           (bundleWith (scriptedDevice [Ack (repeat 4294967295 8); Nak 3])) []
           (VBundle
              (bundleWith (scriptedDevice [Ack (repeat 4294967295 8); Nak 3])))
           (LinkError 3)).
  - vm_compute. reflexivity.
  - vm_compute. reflexivity.
Defined.

(** X16.  When the device rejects a transaction of the read of the header
    region, [checkErase] still reads the image region, and only then is
    its promise rejected, with the error code of the header read. *)
Theorem checkErase_reads_image_after_rejected_header_read :
  forall dc bundle log e,
    1 <= T7_FLASH_BLOCK_WRITE_SIZE dc ->
    fst (readImageInformation dc bundle log) = Rejected e ->
    fst (checkErase dc bundle log) = Rejected e
    /\ snd (checkErase dc bundle log)
       = snd (readImage dc bundle (snd (readImageInformation dc bundle log))).
Proof.
  intros dc bundle log e Hsize Hfirst. unfold checkErase.
  pose proof (readImageInformation_outcomes dc bundle log) as Hone.
  destruct (readImageInformation dc bundle log) as [first log1].
  cbn [fst snd] in *. subst first.
  pose proof (readImage_outcomes dc bundle log1) as Htwo.
  destruct (readImage dc bundle log1) as [[v2 | e2 | | e2 |] log2];
    cbn [fst snd] in *; try (split; reflexivity); try lia.
  subst v2. split; reflexivity.
Qed.

Lemma checkErase_reads_image_after_rejected_header_read_witness :
  fst (checkErase testConst (bundleWith (scriptedDevice [Nak 3])) [])
  = Rejected (LinkError 3)
  /\ List.length
       (snd (checkErase testConst (bundleWith (scriptedDevice [Nak 3])) []))
     = 3%nat.
Proof.
  destruct (checkErase_reads_image_after_rejected_header_read testConst
              (bundleWith (scriptedDevice [Nak 3])) [] (LinkError 3))
    as [Hfst Hsnd].
  - vm_compute. discriminate.
  - vm_compute. reflexivity.
  - split; [exact Hfst |]. rewrite Hsnd. vm_compute. reflexivity.
Defined.

(* ------------------------------------------------------------------ *)
(** ** What [readFirmwareFile] makes of the file *)

Lemma readUInt32BE_Some :
  forall buffer offset word,
    readUInt32BE buffer offset = Some word ->
    0 <= offset /\ offset + 4 <= Z.of_nat (List.length buffer).
Proof.
  intros buffer offset word. unfold readUInt32BE.
  destruct (Z.ltb_spec offset 0) as [Hneg | Hpos]; [discriminate |].
  pose proof (length_skipn (Z.to_nat offset) buffer) as Hlen.
  destruct (skipn (Z.to_nat offset) buffer) as [| b0 [| b1 [| b2 [| b3 rest]]]];
    try discriminate.
  cbn [List.length] in Hlen. intros _. lia.
Qed.

Lemma parseImageInformation_Some :
  forall dc imageFile information,
    parseImageInformation dc imageFile = Some information ->
    76 <= Z.of_nat (List.length imageFile)
    /\ rawImageInfo information = firstn 128 imageFile.
Proof.
  intros dc imageFile information. unfold parseImageInformation, bindOption.
  repeat match goal with
         | |- match ?x with Some _ => _ | None => _ end = Some _ -> _ =>
             let H := fresh "H" in destruct x eqn:H; [| discriminate]
         end.
  intros Heq. inversion Heq. cbn [rawImageInfo].
  split; [| reflexivity].
  match goal with
  | H : readUInt32BE imageFile 72 = Some _ |- _ =>
      apply readUInt32BE_Some in H; lia
  end.
Qed.

(** X17.  The bundle that [readFirmwareFile] resolves with splits the
    file: the raw header is the first 128 bytes (all of a shorter file),
    the image is the rest, and the two put end to end are the file; the
    bundle has no device and no serial number yet. *)
Theorem readFirmwareFile_splits_file :
  forall dc fileSrc imageFile bundle,
    readFirmwareFile dc fileSrc (inr imageFile) = Resolved bundle ->
    exists information image,
      firmwareImageInformation bundle = Some information
      /\ firmwareImage bundle = Some image
      /\ rawImageInfo information ++ image = imageFile
      /\ rawImageInfo information = firstn 128 imageFile
      /\ device bundle = None
      /\ serial bundle = None.
Proof.
  intros dc fileSrc imageFile bundle. unfold readFirmwareFile.
  destruct (parseImageInformation dc imageFile) as [information |] eqn:Hparse;
    [| discriminate].
  intros Heq. inversion Heq; subst bundle. cbn.
  apply parseImageInformation_Some in Hparse. destruct Hparse as [_ Hraw].
  exists information, (skipn 128 imageFile).
  repeat apply conj; try reflexivity; try assumption.
  rewrite Hraw. apply firstn_skipn.
Qed.

Lemma readFirmwareFile_splits_file_witness :
  exists information image,
    firmwareImageInformation
      {| firmwareImageInformation := Some sampleInformation;
         firmwareImage := Some [xde; xad; xbe; xef];
         device := None;
         version := Some (binary64 (10067 # 10000));
         serial := None |}
    = Some information
    /\ Some [xde; xad; xbe; xef] = Some image
    /\ rawImageInfo information ++ image = sampleFile
    /\ rawImageInfo information = firstn 128 sampleFile
    /\ @None Device = None
    /\ @None Z = None.
Proof.
  apply (readFirmwareFile_splits_file testConst
           "T7firmware_010067_2014-02-24.bin" sampleFile
           {| firmwareImageInformation := Some sampleInformation;
              firmwareImage := Some [xde; xad; xbe; xef];
              device := None;
              version := Some (binary64 (10067 # 10000));
              serial := None |}).
  vm_compute. reflexivity.
Defined.

(** X18.  A file of fewer than 76 bytes leaves the promise of
    [readFirmwareFile] pending, whatever the header offsets of
    [driver_const] are: the options word is read at the fixed byte offset
    72, the read throws inside the callback, and the deferred is neither
    resolved nor rejected. *)
Theorem readFirmwareFile_short_file :
  forall dc fileSrc imageFile,
    Z.of_nat (List.length imageFile) < 76 ->
    readFirmwareFile dc fileSrc (inr imageFile) = Pending.
Proof.
  intros dc fileSrc imageFile Hshort. unfold readFirmwareFile.
  destruct (parseImageInformation dc imageFile) as [information |] eqn:Hparse;
    [| reflexivity].
  apply parseImageInformation_Some in Hparse. lia.
Qed.

Lemma readFirmwareFile_short_file_witness :
  readFirmwareFile testConst "T7firmware_010067_2014-02-24.bin"
    (inr (firstn 75 sampleFile))
  = Pending.
Proof.
  apply (readFirmwareFile_short_file testConst
           "T7firmware_010067_2014-02-24.bin" (firstn 75 sampleFile)).
  vm_compute. reflexivity.
Defined.

(** X19.  When the file path gives no number for the version (its part
    between the first and the second underscore is missing or is no
    number, and the version is [NaN]), the bundle that [readFirmwareFile]
    resolves with never passes [checkCompatibility], whatever the header
    of the file says: the gate rejects it, and no call is made. *)
Theorem file_without_version_fails_gate :
  forall dc fileSrc imageFile bundle log,
    versionOfPath fileSrc = NaN ->
    readFirmwareFile dc fileSrc (inr imageFile) = Resolved bundle ->
    exists message,
      checkCompatibility dc bundle log = (Rejected (Error message), log).
Proof.
  intros dc fileSrc imageFile bundle log Hnan. unfold readFirmwareFile.
  destruct (parseImageInformation dc imageFile) as [information |];
    [| discriminate].
  intros Heq. inversion Heq; subst bundle.
  unfold checkCompatibility. cbn [firmwareImageInformation version].
  rewrite Hnan.
  assert (Hne : num_eqb (spelled (containedVersion information)) NaN = false)
    by (destruct (spelled (containedVersion information)); reflexivity).
  rewrite Hne, andb_false_r.
  destruct (negb _); [eauto |]. destruct (negb _); eauto.
Qed.

Lemma file_without_version_fails_gate_witness :
  exists message,
    checkCompatibility testConst
      {| firmwareImageInformation := Some sampleInformation;
         firmwareImage := Some [xde; xad; xbe; xef];
         device := None;
         version := Some NaN;
         serial := None |} []
    = (Rejected (Error message), []).
Proof.
  apply (file_without_version_fails_gate testConst "firmware.bin" sampleFile).
  - vm_compute. reflexivity.
  - vm_compute. reflexivity.
Defined.

(* ------------------------------------------------------------------ *)
(** ** Waiting for the device to come back *)

Lemma indexOf_lower (array : list Z) (x : Z) : -1 <= indexOf array x.
Proof.
  induction array as [| y rest IH]; cbn [indexOf]; [lia |].
  destruct (y =? x); [lia |].
  destruct (Z.eqb_spec (indexOf rest x) (-1)); lia.
Qed.

Lemma indexOf_absent (array : list Z) (x : Z) :
  indexOf array x = -1 <-> ~ In x array.
Proof.
  induction array as [| y rest IH]; cbn [indexOf In]; [tauto |].
  pose proof (indexOf_lower rest x) as Hlow.
  destruct (Z.eqb_spec y x) as [Heq | Hne].
  - split; [discriminate | tauto].
  - destruct (Z.eqb_spec (indexOf rest x) (-1)) as [Habs | Hin].
    + split; [tauto | reflexivity].
    + split; [lia | tauto].
Qed.

Lemma listed_In (target : Z) (serialNumbers : list Z) :
  listed (Some target) serialNumbers = true <-> In target serialNumbers.
Proof.
  unfold listed. pose proof (indexOf_absent serialNumbers target) as H.
  destruct (Z.eqb_spec (indexOf serialNumbers target) (-1)) as [Habs | Hin];
    cbn [negb].
  - split; [discriminate | tauto].
  - split; [intros _ | reflexivity].
    destruct (in_dec Z.eq_dec target serialNumbers); tauto.
Qed.

Section Enumeration.

Variables (host : Host) (bundle : Bundle).

Lemma polls_S (n : nat) :
  polls (S n)
  = [DriverListAll "LJM_dtT7" "LJM_ctUSB"; TimerSet EXPECTED_REBOOT_WAIT]
    ++ polls n.
Proof. reflexivity. Qed.

(** Polls that do not list the serial number are followed by the next
    poll, 5000 ms later. *)
Lemma checkForDevice_misses :
  forall target misses answers trace,
    Forall (fun serialNumbers => ~ In target serialNumbers) misses ->
    checkForDevice host bundle (Some target) (map inr misses ++ answers) trace
    = checkForDevice host bundle (Some target) answers
        (trace ++ polls (List.length misses)).
Proof.
  intros target. induction misses as [| miss misses IH];
    intros answers trace Hmisses.
  - cbn. rewrite app_nil_r. reflexivity.
  - inversion Hmisses as [| ? ? Hmiss Hrest]; subst.
    cbn [map app checkForDevice List.length].
    assert (Hnot : listed (Some target) miss = false).
    { destruct (listed (Some target) miss) eqn:Hl; [| reflexivity].
      apply listed_In in Hl. contradiction. }
    rewrite Hnot, (IH _ _ Hrest), polls_S, <- !app_assoc. reflexivity.
Qed.

Lemma waitForEnumeration_found :
  forall trace target misses serialNumbers later newDevice,
    serial bundle = Some target ->
    listings host = map inr misses ++ inr serialNumbers :: later ->
    Forall (fun listing => ~ In target listing) misses ->
    In target serialNumbers ->
    opening host = inr newDevice ->
    waitForEnumeration host bundle trace
    = (Resolved (VBundle (setDevice bundle newDevice)),
       trace ++ [TimerSet 5000] ++ polls (List.length misses)
       ++ [DriverListAll "LJM_dtT7" "LJM_ctUSB";
           DeviceOpenSync "LJM_dtT7" "LJM_ctUSB" target]).
Proof.
  intros trace target misses serialNumbers later newDevice Hserial Hlist
    Hmisses Hfound Hopen.
  unfold waitForEnumeration. rewrite Hserial, Hlist.
  rewrite (checkForDevice_misses _ _ _ _ Hmisses). cbn [checkForDevice].
  apply listed_In in Hfound. rewrite Hfound, Hopen.
  rewrite <- !app_assoc. reflexivity.
Qed.

Lemma checkForDevice_outcomes :
  forall target answers trace,
    match fst (checkForDevice host bundle target answers trace) with
    | Resolved v =>
        exists newDevice serialNumber serialNumbers,
          opening host = inr newDevice
          /\ v = VBundle (setDevice bundle newDevice)
          /\ target = Some serialNumber
          /\ In (inr serialNumbers) answers
          /\ In serialNumber serialNumbers
    | Pending => True
    | Rejected _ | Thrown _ | Diverged => False
    end.
Proof.
  intros target. induction answers as [| answer later IH]; intros trace;
    cbn [checkForDevice]; [exact I |].
  destruct answer as [err | serialNumbers]; [exact I |].
  destruct (listed target serialNumbers) eqn:Hlisted.
  - destruct (opening host) as [e | newDevice] eqn:Hopen; [exact I |].
    cbn [fst]. destruct target as [serialNumber |]; [| discriminate].
    apply listed_In in Hlisted.
    exists newDevice, serialNumber, serialNumbers.
    repeat apply conj; try reflexivity; try assumption. left. reflexivity.
  - specialize (IH (trace ++ [DriverListAll "LJM_dtT7" "LJM_ctUSB"]
                      ++ [TimerSet EXPECTED_REBOOT_WAIT])).
    rewrite app_assoc in IH.
    destruct (fst (checkForDevice _ _ _ _ _)); try assumption.
    destruct IH as (d & s & l & H1 & H2 & H3 & H4 & H5).
    exists d, s, l. repeat apply conj; try assumption. right. assumption.
Qed.

End Enumeration.

(** X20.  When the first polls do not list the serial number of the
    bundle and the next one does, and the device can be opened,
    [waitForEnumeration] resolves with the bundle in which the device is
    the newly opened one and nothing else has changed; it first waits
    5000 ms, polls every 5000 ms, opens the device by its serial number
    at the first poll that lists it, and polls no more. *)
Theorem waitForEnumeration_finds_device :
  forall host bundle trace target misses serialNumbers later newDevice,
    serial bundle = Some target ->
    listings host = map inr misses ++ inr serialNumbers :: later ->
    Forall (fun listing => ~ In target listing) misses ->
    In target serialNumbers ->
    opening host = inr newDevice ->
    waitForEnumeration host bundle trace
    = (Resolved (VBundle (setDevice bundle newDevice)),
       trace ++ [TimerSet 5000] ++ polls (List.length misses)
       ++ [DriverListAll "LJM_dtT7" "LJM_ctUSB";
           DeviceOpenSync "LJM_dtT7" "LJM_ctUSB" target]).
Proof.
  intros host bundle trace target misses serialNumbers later newDevice.
  apply waitForEnumeration_found.
Qed.

Lemma waitForEnumeration_finds_device_witness :
  waitForEnumeration
    (testHost [inr []; inr [470010002]; inr [470010002; 470010001]])
    (bundleOf (constantDevice 0) 470010001) []
  = (Resolved
       (VBundle (bundleOf (constantDevice 1) 470010001)),
     [TimerSet 5000;
      DriverListAll "LJM_dtT7" "LJM_ctUSB"; TimerSet 5000;
      DriverListAll "LJM_dtT7" "LJM_ctUSB"; TimerSet 5000;
      DriverListAll "LJM_dtT7" "LJM_ctUSB";
      DeviceOpenSync "LJM_dtT7" "LJM_ctUSB" 470010001]).
Proof.
  apply (waitForEnumeration_finds_device
           (testHost [inr []; inr [470010002]; inr [470010002; 470010001]])
           (bundleOf (constantDevice 0) 470010001)
           [] 470010001 [[]; [470010002]] [470010002; 470010001] []
           (constantDevice 1)).
  - reflexivity.
  - reflexivity.
  - repeat constructor; cbn; lia.
  - cbn. lia.
  - reflexivity.
Defined.

Lemma waitForEnumeration_outcomes :
  forall host bundle trace,
    match fst (waitForEnumeration host bundle trace) with
    | Resolved v =>
        exists newDevice serialNumber serialNumbers,
          opening host = inr newDevice
          /\ v = VBundle (setDevice bundle newDevice)
          /\ serial bundle = Some serialNumber
          /\ In (inr serialNumbers) (listings host)
          /\ In serialNumber serialNumbers
    | Pending => True
    | Rejected _ | Thrown _ | Diverged => False
    end.
Proof.
  intros host bundle trace. unfold waitForEnumeration.
  apply checkForDevice_outcomes.
Qed.

(** X21.  The promise of [waitForEnumeration] is never rejected and the
    call never throws: whatever goes wrong, the promise stays pending.
    It resolves only with the bundle whose device is the newly opened
    one, after a poll has listed the serial number of the bundle. *)
Theorem waitForEnumeration_never_rejects :
  forall host bundle trace,
    match fst (waitForEnumeration host bundle trace) with
    | Resolved v =>
        exists newDevice serialNumber serialNumbers,
          opening host = inr newDevice
          /\ v = VBundle (setDevice bundle newDevice)
          /\ serial bundle = Some serialNumber
          /\ In (inr serialNumbers) (listings host)
          /\ In serialNumber serialNumbers
    | Pending => True
    | Rejected _ | Thrown _ | Diverged => False
    end.
Proof.
  intros host bundle trace. apply waitForEnumeration_outcomes.
Qed.

(** X22.  When [listAll] reports an error at a poll, before any poll has
    listed the serial number, [waitForEnumeration] polls no more and its
    promise stays pending, whatever later polls would have listed. *)
Theorem waitForEnumeration_hangs_after_listing_error :
  forall host bundle trace target misses err later,
    serial bundle = Some target ->
    listings host = map inr misses ++ inl err :: later ->
    Forall (fun listing => ~ In target listing) misses ->
    waitForEnumeration host bundle trace
    = (Pending,
       trace ++ [TimerSet 5000] ++ polls (List.length misses)
       ++ [DriverListAll "LJM_dtT7" "LJM_ctUSB"]).
Proof.
  intros host bundle trace target misses err later Hserial Hlist Hmisses.
  unfold waitForEnumeration. rewrite Hserial, Hlist.
  rewrite (checkForDevice_misses _ _ _ _ _ _ Hmisses). cbn [checkForDevice].
  rewrite <- !app_assoc. reflexivity.
Qed.

Lemma waitForEnumeration_hangs_after_listing_error_witness :
  waitForEnumeration
    (testHost [inr []; inl 1227%positive; inr [470010001]])
    (bundleOf (constantDevice 0) 470010001) []
  = (Pending,
     [TimerSet 5000;
      DriverListAll "LJM_dtT7" "LJM_ctUSB"; TimerSet 5000;
      DriverListAll "LJM_dtT7" "LJM_ctUSB"]).
Proof.
  apply (waitForEnumeration_hangs_after_listing_error
           (testHost [inr []; inl 1227%positive; inr [470010001]])
           (bundleOf (constantDevice 0) 470010001)
           [] 470010001 [[]] 1227%positive [inr [470010001]]).
  - reflexivity.
  - reflexivity.
  - repeat constructor; cbn; lia.
Defined.

(* ------------------------------------------------------------------ *)
(** ** The pipeline of [updateFirmware] *)

Lemma readFlash_sends :
  forall dc bundle dev start len size log,
    device bundle = Some dev -> acknowledges dev -> 1 <= size ->
    exists calls,
      readFlash dc bundle start len size log
      = (Resolved (VBundle bundle), log ++ calls).
Proof.
  intros dc bundle dev start len size log Hdev Hack Hsize.
  unfold readFlash, createFlashOperation.
  replace (size =? 0) with false by (symmetry; apply Z.eqb_neq; lia).
  cbn [andb].
  destruct (executeOperations_read_total start len size None) as [ops ->].
  unfold reduceOperations.
  destruct (reduce_acknowledged dc bundle None true (T7_MA_EXF_pREAD dc)
              (T7_MA_EXF_READ dc) dev Hdev Hack ops [] log) as [memory ->].
  eauto.
Qed.

Lemma checkErase_sends :
  forall dc bundle dev log,
    device bundle = Some dev -> acknowledges dev ->
    1 <= T7_FLASH_BLOCK_WRITE_SIZE dc ->
    exists calls,
      checkErase dc bundle log = (Resolved (VBundle bundle), log ++ calls).
Proof.
  intros dc bundle dev log Hdev Hack Hsize.
  unfold checkErase, readImageInformation, readImage.
  destruct (readFlash_sends dc bundle dev (T7_EFAdd_ExtFirmwareImgInfo dc)
              (T7_HDR_FLASH_PAGE_ERASE dc * T7_FLASH_PAGE_SIZE dc / 4)
              (T7_FLASH_BLOCK_WRITE_SIZE dc) log Hdev Hack Hsize)
    as [header ->].
  destruct (readFlash_sends dc bundle dev (T7_EFAdd_ExtFirmwareImage dc)
              (T7_IMG_FLASH_PAGE_ERASE dc * T7_FLASH_PAGE_SIZE dc / 4)
              (T7_FLASH_BLOCK_WRITE_SIZE dc) (log ++ header) Hdev Hack Hsize)
    as [image ->].
  exists (header ++ image). rewrite app_assoc. reflexivity.
Qed.

Lemma checkImageWrite_sends :
  forall dc bundle dev log,
    device bundle = Some dev -> acknowledges dev ->
    1 <= T7_FLASH_BLOCK_WRITE_SIZE dc ->
    exists calls,
      checkImageWrite dc bundle log
      = (Resolved (VBundle bundle), log ++ calls).
Proof.
  intros dc bundle dev log Hdev Hack Hsize.
  unfold checkImageWrite, readImage.
  destruct (readFlash_sends dc bundle dev (T7_EFAdd_ExtFirmwareImage dc)
              (T7_IMG_FLASH_PAGE_ERASE dc * T7_FLASH_PAGE_SIZE dc / 4)
              (T7_FLASH_BLOCK_WRITE_SIZE dc) log Hdev Hack Hsize)
    as [image ->].
  eauto.
Qed.

Lemma checkCompatibility_log :
  forall dc bundle log, snd (checkCompatibility dc bundle log) = log.
Proof.
  intros dc bundle log. unfold checkCompatibility.
  destruct (firmwareImageInformation bundle); [| reflexivity].
  cbn zeta. destruct (_ && _); [reflexivity |].
  destruct (negb _); [reflexivity |]. destruct (negb _); reflexivity.
Qed.

Lemma onFlash_stage stage bundle w outcome log :
  stage bundle (flashLog w) = (outcome, log) ->
  onFlash stage bundle w
  = (outcome, {| flashLog := log; hostTrace := hostTrace w |}).
Proof. intros H. unfold onFlash. rewrite H. reflexivity. Qed.

Lemma onHost_stage stage bundle w outcome trace :
  stage bundle (hostTrace w) = (outcome, trace) ->
  onHost stage bundle w
  = (outcome, {| flashLog := flashLog w; hostTrace := trace |}).
Proof. intros H. unfold onHost. rewrite H. reflexivity. Qed.

Lemma thenStage_resolved chain stage bundle bundle' w :
  reached chain = Resolved (VBundle bundle) ->
  stage bundle (world chain) = (Resolved (VBundle bundle'), w) ->
  thenStage chain stage
  = {| reached := Resolved (VBundle bundle');
       answer := answer chain;
       world := w |}.
Proof. intros Hr Hs. unfold thenStage. rewrite Hr, Hs. reflexivity. Qed.

Lemma thenStage_rejects chain stage bundle e w :
  reached chain = Resolved (VBundle bundle) ->
  stage bundle (world chain) = (Rejected e, w) ->
  thenStage chain stage
  = {| reached := Rejected e; answer := answer chain; world := w |}.
Proof. intros Hr Hs. unfold thenStage. rewrite Hr, Hs. reflexivity. Qed.

Lemma settle_twice {A : Type} (deferred : option (Outcome A))
    (o : Outcome A) :
  settle (settle deferred o) o = settle deferred o.
Proof. destruct deferred; reflexivity. Qed.

(** Once the chain has reached a rejected promise, every later link
    calls [reportError], and no later stage runs. *)
Lemma fold_thenStage_rejected :
  forall links chain e,
    reached chain = Rejected e ->
    fold_left thenStage links chain
    = {| reached := Rejected e;
         answer := match links with
                   | [] => answer chain
                   | _ :: _ => settle (answer chain) (Rejected e)
                   end;
         world := world chain |}.
Proof.
  induction links as [| link links IH]; intros chain e Hr.
  - destruct chain. cbn in *. subst. reflexivity.
  - cbn [fold_left]. rewrite (IH _ e).
    + unfold thenStage. rewrite Hr. cbn [answer world].
      destruct links; [reflexivity |]. rewrite settle_twice. reflexivity.
    + unfold thenStage. rewrite Hr. reflexivity.
Qed.

(** And a chain that has reached a promise that stays pending goes no
    further. *)
Lemma fold_thenStage_pending :
  forall links chain,
    reached chain = Pending -> fold_left thenStage links chain = chain.
Proof.
  induction links as [| link links IH]; intros chain Hr; [reflexivity |].
  cbn [fold_left]. unfold thenStage at 2. rewrite Hr. apply IH, Hr.
Qed.

(** The deferred of [updateFirmware] is not resolved inside the chain. *)
Lemma thenStage_unresolved chain stage :
  unresolved (answer chain) -> unresolved (answer (thenStage chain stage)).
Proof.
  intros H. unfold thenStage.
  destruct (reached chain) as [[bundle | l] | e | | e |]; cbn [answer];
    try assumption.
  - destruct (stage bundle (world chain)) as [[v | e | | e |] w];
      cbn [answer]; assumption.
  - destruct H as [-> | [e' ->]]; right; eexists; reflexivity.
Qed.

Lemma fold_thenStage_unresolved :
  forall links chain,
    unresolved (answer chain) ->
    unresolved (answer (fold_left thenStage links chain)).
Proof.
  induction links as [| link links IH]; intros chain H; [exact H |].
  cbn [fold_left]. apply IH, thenStage_unresolved, H.
Qed.

Lemma fold_thenStage_cons link links chain :
  fold_left thenStage (link :: links) chain
  = fold_left thenStage links (thenStage chain link).
Proof. reflexivity. Qed.

Lemma header_and_image_lengths (imageFile : list byte) :
  Z.of_nat (List.length imageFile) mod 4 = 0 ->
  Z.of_nat (List.length (firstn 128 imageFile)) mod 4 = 0
  /\ Z.of_nat (List.length (skipn 128 imageFile)) mod 4 = 0.
Proof.
  intros Hwhole. rewrite length_firstn, length_skipn.
  apply Z.mod_divide in Hwhole; [| lia]. destruct Hwhole as [m Hm].
  split; apply Z.mod_divide; try lia.
  - destruct (Nat.le_ge_cases 128 (List.length imageFile)) as [Hle | Hge].
    + exists 32. lia.
    + exists m. lia.
  - destruct (Nat.le_ge_cases 128 (List.length imageFile)) as [Hle | Hge].
    + exists (m - 32). lia.
    + exists 0. lia.
Qed.

(** X23.  When every stage succeeds, the promise of [updateFirmware] is
    never settled.  The file holds a header that passes the gate, the
    device acknowledges every flash call (block size 8, a file of a whole
    number of words), the restart is acknowledged, the device comes back
    under its serial number and reports the version of the file: then
    the two regions are erased, all host calls of the pipeline are made,
    in order, up to the read of the new firmware version, and the
    promise stays pending, because the last link of the chain only
    handles a rejection. *)
Theorem updateFirmware_success_never_settles :
  forall dc rc host dev fileSrc imageFile information w target misses
         serialNumbers later newDevice firmwareVersion,
    parseImageInformation dc imageFile = Some information ->
    Z.of_nat (List.length imageFile) mod 4 = 0 ->
    serialNumberRead host = inr target ->
    headerCode information = T7_HEAD_FIRST_FOUR_BYTES dc ->
    intendedDevice information = T7_TARGET_OLD dc
    \/ intendedDevice information = T7_TARGET dc ->
    num_eqb (spelled (containedVersion information)) (versionOfPath fileSrc)
    = true ->
    acknowledges dev ->
    T7_FLASH_BLOCK_WRITE_SIZE dc = 8 ->
    upgradeRequest host = None ->
    closing host = None ->
    listings host = map inr misses ++ inr serialNumbers :: later ->
    Forall (fun listing => ~ In target listing) misses ->
    In target serialNumbers ->
    opening host = inr newDevice ->
    firmwareVersionRead host = inr firmwareVersion ->
    num_eqb (versionOfPath fileSrc) firmwareVersion = true ->
    exists calls,
      updateFirmware dc rc host dev fileSrc (inr imageFile) w
      = (Pending,
         {| flashLog :=
              flashLog w
              ++ pageWrites dc (T7_EFkey_ExtFirmwareImage dc)
                   (T7_EFAdd_ExtFirmwareImage dc)
                   (Z.to_nat (T7_IMG_FLASH_PAGE_ERASE dc))
              ++ pageWrites dc (T7_EFkey_ExtFirmwareImgInfo dc)
                   (T7_EFAdd_ExtFirmwareImgInfo dc)
                   (Z.to_nat (T7_HDR_FLASH_PAGE_ERASE dc))
              ++ calls;
            hostTrace :=
              hostTrace w
              ++ [DeviceReadSync "SERIAL_NUMBER";
                  DeviceWrite (T7_MA_REQ_FWUPG rc) (T7_REQUEST_FW_UPGRADE rc);
                  DeviceCloseSync;
                  TimerSet 5000]
              ++ polls (List.length misses)
              ++ [DriverListAll "LJM_dtT7" "LJM_ctUSB";
                  DeviceOpenSync "LJM_dtT7" "LJM_ctUSB" target;
                  DeviceRead "FIRMWARE_VERSION"] |}).
Proof.
  intros dc rc host dev fileSrc imageFile information w target misses
    serialNumbers later newDevice firmwareVersion Hparse Hwhole Hserial
    Hcode Htarget Hversion Hack Hblock Hupgrade Hclosing Hlistings Hmisses
    Hlisted Hopening Hread Hnew.
  destruct (header_and_image_lengths imageFile Hwhole) as [Hheader Himage].
  pose proof (parseImageInformation_Some _ _ _ Hparse) as [_ Hraw].
  rewrite <- Hraw in Hheader.
  assert (Hsize : 1 <= T7_FLASH_BLOCK_WRITE_SIZE dc) by lia.
  unfold updateFirmware, readFirmwareFile. rewrite Hparse.
  set (read := {| firmwareImageInformation := Some information;
                  firmwareImage := Some (skipn 128 imageFile);
                  device := None;
                  version := Some (versionOfPath fileSrc);
                  serial := None |}).
  set (bundle := setDevice (setSerialNumber read target) dev).
  assert (Hdev : device bundle = Some dev) by reflexivity.
  unfold stages.
  (* injectDevice *)
  rewrite fold_thenStage_cons.
  erewrite thenStage_resolved with (bundle' := bundle);
    [| reflexivity
     | cbn [world]; apply onHost_stage; unfold injectDevice;
       rewrite Hserial; reflexivity].
  (* checkCompatibility *)
  rewrite fold_thenStage_cons.
  erewrite thenStage_resolved with (bundle' := bundle);
    [| reflexivity
     | cbn [world]; apply onFlash_stage; unfold checkCompatibility;
       cbn [bundle setDevice setSerialNumber read firmwareImageInformation
              version];
       apply Z.eqb_eq in Hcode; apply allowed_device_spec in Htarget;
       rewrite Hcode, Htarget, Hversion; reflexivity].
  (* eraseImage *)
  rewrite fold_thenStage_cons.
  erewrite thenStage_resolved with (bundle' := bundle);
    [| reflexivity
     | cbn [world]; apply onFlash_stage; unfold eraseImage;
       rewrite (eraseFlash_pages dc bundle dev _ _ _ _ Hdev Hack);
       reflexivity].
  (* eraseImageInformation *)
  rewrite fold_thenStage_cons.
  erewrite thenStage_resolved with (bundle' := bundle);
    [| reflexivity
     | cbn [world]; apply onFlash_stage; unfold eraseImageInformation;
       rewrite (eraseFlash_pages dc bundle dev _ _ _ _ Hdev Hack);
       reflexivity].
  cbn [flashLog hostTrace].
  change (map _ (seq 0 (Z.to_nat (T7_IMG_FLASH_PAGE_ERASE dc))))
    with (pageWrites dc (T7_EFkey_ExtFirmwareImage dc)
            (T7_EFAdd_ExtFirmwareImage dc)
            (Z.to_nat (T7_IMG_FLASH_PAGE_ERASE dc))).
  change (map _ (seq 0 (Z.to_nat (T7_HDR_FLASH_PAGE_ERASE dc))))
    with (pageWrites dc (T7_EFkey_ExtFirmwareImgInfo dc)
            (T7_EFAdd_ExtFirmwareImgInfo dc)
            (Z.to_nat (T7_HDR_FLASH_PAGE_ERASE dc))).
  set (erased :=
         (flashLog w
          ++ pageWrites dc (T7_EFkey_ExtFirmwareImage dc)
               (T7_EFAdd_ExtFirmwareImage dc)
               (Z.to_nat (T7_IMG_FLASH_PAGE_ERASE dc)))
         ++ pageWrites dc (T7_EFkey_ExtFirmwareImgInfo dc)
              (T7_EFAdd_ExtFirmwareImgInfo dc)
              (Z.to_nat (T7_HDR_FLASH_PAGE_ERASE dc))).
  (* checkErase *)
  destruct (checkErase_sends dc bundle dev erased Hdev Hack Hsize)
    as [checked Hchecked].
  rewrite fold_thenStage_cons.
  erewrite thenStage_resolved with (bundle' := bundle);
    [| reflexivity
     | cbn [world]; apply onFlash_stage; exact Hchecked].
  (* writeImage *)
  destruct (writeImage_words dc bundle dev (skipn 128 imageFile)
              (erased ++ checked) Hdev Hack eq_refl Hblock Himage)
    as (image & Himg & _).
  rewrite fold_thenStage_cons.
  erewrite thenStage_resolved with (bundle' := bundle);
    [| reflexivity
     | cbn [world]; apply onFlash_stage; exact Himg].
  (* writeImageInformation *)
  destruct (writeImageInformation_words dc bundle dev information
              ((erased ++ checked) ++ image) Hdev Hack eq_refl Hblock Hheader)
    as (header & Hhdr & _).
  rewrite fold_thenStage_cons.
  erewrite thenStage_resolved with (bundle' := bundle);
    [| reflexivity
     | cbn [world]; apply onFlash_stage; exact Hhdr].
  (* checkImageWrite *)
  destruct (checkImageWrite_sends dc bundle dev
              (((erased ++ checked) ++ image) ++ header) Hdev Hack Hsize)
    as [verified Hverified].
  rewrite fold_thenStage_cons.
  erewrite thenStage_resolved with (bundle' := bundle);
    [| reflexivity
     | cbn [world]; apply onFlash_stage; exact Hverified].
  (* restartAndUpgrade *)
  rewrite fold_thenStage_cons.
  erewrite thenStage_resolved with (bundle' := bundle);
    [| reflexivity
     | cbn [world]; apply onHost_stage; unfold restartAndUpgrade;
       rewrite Hdev, Hupgrade, Hclosing; reflexivity].
  (* waitForEnumeration *)
  rewrite fold_thenStage_cons.
  erewrite thenStage_resolved with (bundle' := setDevice bundle newDevice);
    [| reflexivity
     | cbn [world]; apply onHost_stage;
       apply (waitForEnumeration_found host bundle _ target misses
                serialNumbers later newDevice eq_refl Hlistings Hmisses
                Hlisted Hopening)].
  (* checkNewFirmware *)
  rewrite fold_thenStage_cons.
  erewrite thenStage_resolved with (bundle' := setDevice bundle newDevice);
    [| reflexivity
     | cbn [world]; apply onHost_stage; unfold checkNewFirmware;
       cbn [setDevice device version bundle setSerialNumber read];
       rewrite Hread, Hnew; reflexivity].
  cbn [fold_left reached answer world promise flashLog hostTrace].
  exists (checked ++ image ++ header ++ verified).
  unfold erased. rewrite <- !app_assoc. reflexivity.
Qed.

Lemma updateFirmware_success_never_settles_witness :
  exists calls,
    updateFirmware testConst testRestartConst
      (testHost [inr []; inr [470010001]]) (constantDevice 0)
      "T7firmware_010067_2014-02-24.bin" (inr sampleFile)
      {| flashLog := []; hostTrace := [] |}
    = (Pending,
       {| flashLog :=
            []
            ++ pageWrites testConst 1001 4096 (Z.to_nat 2)
            ++ pageWrites testConst 1002 8192 (Z.to_nat 1)
            ++ calls;
          hostTrace :=
            []
            ++ [DeviceReadSync "SERIAL_NUMBER";
                DeviceWrite 61996 1279869267;
                DeviceCloseSync;
                TimerSet 5000]
            ++ polls (List.length [@nil Z])
            ++ [DriverListAll "LJM_dtT7" "LJM_ctUSB";
                DeviceOpenSync "LJM_dtT7" "LJM_ctUSB" 470010001;
                DeviceRead "FIRMWARE_VERSION"] |}).
Proof.
  apply (updateFirmware_success_never_settles testConst testRestartConst
           (testHost [inr []; inr [470010001]]) (constantDevice 0)
           "T7firmware_010067_2014-02-24.bin" sampleFile sampleInformation
           {| flashLog := []; hostTrace := [] |} 470010001 [[]] [470010001] []
           (constantDevice 1) (binary64 (10067 # 10000))).
  - vm_compute. reflexivity.
  - reflexivity.
  - reflexivity.
  - reflexivity.
  - right. reflexivity.
  - vm_compute. reflexivity.
  - apply constantDevice_acknowledges.
  - reflexivity.
  - reflexivity.
  - reflexivity.
  - reflexivity.
  - repeat constructor; cbn; lia.
  - cbn. lia.
  - reflexivity.
  - reflexivity.
  - vm_compute. reflexivity.
Defined.

(** X24.  When the bundle read from the file, with the device injected,
    does not pass [checkCompatibility], the promise of [updateFirmware]
    is rejected with the error of the gate, and nothing has been done to
    the device but the read of its serial number: no flash call is made,
    no restart is requested. *)
Theorem updateFirmware_incompatible_file :
  forall dc rc host dev fileSrc imageFile bundle w target e,
    readFirmwareFile dc fileSrc (inr imageFile) = Resolved bundle ->
    serialNumberRead host = inr target ->
    fst (checkCompatibility dc
           (setDevice (setSerialNumber bundle target) dev) (flashLog w))
    = Rejected e ->
    updateFirmware dc rc host dev fileSrc (inr imageFile) w
    = (Rejected e,
       {| flashLog := flashLog w;
          hostTrace := hostTrace w ++ [DeviceReadSync "SERIAL_NUMBER"] |}).
Proof.
  intros dc rc host dev fileSrc imageFile bundle w target e Hfile Hserial
    Hgate.
  unfold updateFirmware. rewrite Hfile. unfold stages.
  rewrite fold_thenStage_cons.
  erewrite thenStage_resolved
    with (bundle' := setDevice (setSerialNumber bundle target) dev);
    [| reflexivity
     | cbn [world]; apply onHost_stage; unfold injectDevice;
       rewrite Hserial; reflexivity].
  pose proof (checkCompatibility_log dc
                (setDevice (setSerialNumber bundle target) dev) (flashLog w))
    as Hlog.
  destruct (checkCompatibility dc _ (flashLog w)) as [outcome log] eqn:Hcheck.
  cbn [fst snd] in *. subst outcome log.
  rewrite fold_thenStage_cons.
  erewrite thenStage_rejects;
    [| reflexivity | cbn [world]; apply onFlash_stage; exact Hcheck].
  rewrite (fold_thenStage_rejected _ _ e) by reflexivity.
  reflexivity.
Qed.

Lemma updateFirmware_incompatible_file_witness :
  updateFirmware testConst testRestartConst
    (testHost [inr [470010001]]) (constantDevice 0)
    "firmware.bin" (inr sampleFile) {| flashLog := []; hostTrace := [] |}
  = (Rejected (Error "Incorrect version."),
     {| flashLog := []; hostTrace := [DeviceReadSync "SERIAL_NUMBER"] |}).
Proof.
  apply (updateFirmware_incompatible_file testConst testRestartConst
           (testHost [inr [470010001]]) (constantDevice 0) "firmware.bin"
           sampleFile
           {| firmwareImageInformation := Some sampleInformation;
              firmwareImage := Some [xde; xad; xbe; xef];
              device := None;
              version := Some NaN;
              serial := None |}
           {| flashLog := []; hostTrace := [] |} 470010001
           (Error "Incorrect version.")).
  - vm_compute. reflexivity.
  - reflexivity.
  - vm_compute. reflexivity.
Defined.

Lemma stages_end dc rc host dev :
  stages dc rc host dev
  = firstn 9 (stages dc rc host dev)
    ++ [onHost (waitForEnumeration host); onHost (checkNewFirmware host)].
Proof. reflexivity. Qed.

(** The stage that waits resolves only with a bundle that has a device. *)
Lemma thenStage_wait_resolved host chain v :
  reached (thenStage chain (onHost (waitForEnumeration host))) = Resolved v ->
  exists bundle newDevice, v = VBundle (setDevice bundle newDevice).
Proof.
  unfold thenStage.
  destruct (reached chain) as [[bundle | l] | e | | e |] eqn:Hreached;
    cbn [reached]; try discriminate; try congruence.
  unfold onHost.
  pose proof (waitForEnumeration_outcomes host bundle
                (hostTrace (world chain))) as H.
  destruct (waitForEnumeration host bundle (hostTrace (world chain)))
    as [[v' | e | | e |] trace]; cbn [fst reached] in *;
    try discriminate; try contradiction.
  destruct H as (newDevice & _ & _ & _ & Hv & _). subst v'.
  intros Heq. inversion Heq. eauto.
Qed.

(** X25.  The promise of [updateFirmware] is resolved in one case only,
    and then with an error: the whole pipeline has run up to the read of
    the new firmware version, and that last check has failed, because
    the read was refused or because the version read is not the version
    of the file.  A failure of any earlier stage rejects the promise, and
    a run without failure leaves it pending. *)
Theorem updateFirmware_resolves_only_with_final_error :
  forall dc rc host dev fileSrc file w e,
    fst (updateFirmware dc rc host dev fileSrc file w) = Resolved e ->
    ((exists err, firmwareVersionRead host = inl err /\ e = LinkError err)
     \/ (exists firmwareVersion,
           firmwareVersionRead host = inr firmwareVersion
           /\ e = Error "New firmware version does not reflect upgrade."))
    /\ exists trace,
        hostTrace (snd (updateFirmware dc rc host dev fileSrc file w))
        = trace ++ [DeviceRead "FIRMWARE_VERSION"].
Proof.
  intros dc rc host dev fileSrc file w e. unfold updateFirmware.
  rewrite stages_end, fold_left_app.
  match goal with
  | |- context [fold_left thenStage (firstn 9 ?l) ?start] =>
      pose proof (fold_thenStage_unresolved (firstn 9 l) start
                    (or_introl eq_refl)) as Hnine;
      generalize dependent (fold_left thenStage (firstn 9 l) start)
  end.
  intros nine Hnine. cbn [fold_left].
  pose proof (thenStage_unresolved nine (onHost (waitForEnumeration host))
                Hnine) as Hten.
  pose proof (thenStage_wait_resolved host nine) as Hbundle.
  set (ten := thenStage nine (onHost (waitForEnumeration host))) in *.
  clearbody ten. clear nine Hnine.
  unfold thenStage.
  destruct (reached ten) as [v | x | | x |] eqn:Hreached.
  - destruct (Hbundle v eq_refl) as (bundle & newDevice & ->).
    unfold onHost, checkNewFirmware. cbn [setDevice device version].
    destruct (firmwareVersionRead host) as [err | firmwareVersion].
    + cbn [reached answer world fst snd hostTrace].
      destruct Hten as [-> | [y ->]]; cbn [settle promise];
        intros Heq; inversion Heq.
      split; [left; eauto | eauto].
    + destruct (negb _); cbn [reached answer world fst snd hostTrace].
      * destruct Hten as [-> | [y ->]]; cbn [settle promise];
          intros Heq; inversion Heq.
        split; [right; eauto | eauto].
      * destruct Hten as [-> | [y ->]]; cbn [promise]; discriminate.
  - cbn [reached answer world fst].
    destruct Hten as [-> | [y ->]]; cbn [settle promise]; discriminate.
  - rewrite Hreached. cbn [fst].
    destruct Hten as [-> | [y ->]]; cbn [promise]; discriminate.
  - rewrite Hreached. cbn [fst]. discriminate.
  - rewrite Hreached. cbn [fst]. discriminate.
Qed.

Lemma updateFirmware_resolves_only_with_final_error_witness :
  fst (updateFirmware testConst testRestartConst
         {| serialNumberRead := inr 470010001;
            upgradeRequest := None;
            closing := None;
            listings := [inr [470010001]];
            opening := inr (constantDevice 1);
            firmwareVersionRead := inr (fin (10066 # 10000)) |}
         (constantDevice 0) "T7firmware_010067_2014-02-24.bin"
         (inr sampleFile) {| flashLog := []; hostTrace := [] |})
  = Resolved (Error "New firmware version does not reflect upgrade.")
  /\ exists trace,
      hostTrace
        (snd (updateFirmware testConst testRestartConst
                {| serialNumberRead := inr 470010001;
                   upgradeRequest := None;
                   closing := None;
                   listings := [inr [470010001]];
                   opening := inr (constantDevice 1);
                   firmwareVersionRead := inr (fin (10066 # 10000)) |}
                (constantDevice 0) "T7firmware_010067_2014-02-24.bin"
                (inr sampleFile) {| flashLog := []; hostTrace := [] |}))
      = trace ++ [DeviceRead "FIRMWARE_VERSION"].
Proof.
  assert (H : fst (updateFirmware testConst testRestartConst
                     {| serialNumberRead := inr 470010001;
                        upgradeRequest := None;
                        closing := None;
                        listings := [inr [470010001]];
                        opening := inr (constantDevice 1);
                        firmwareVersionRead := inr (fin (10066 # 10000)) |}
                     (constantDevice 0) "T7firmware_010067_2014-02-24.bin"
                     (inr sampleFile) {| flashLog := []; hostTrace := [] |})
              = Resolved
                  (Error "New firmware version does not reflect upgrade."))
    by (vm_compute; reflexivity).
  split; [exact H |].
  apply (updateFirmware_resolves_only_with_final_error _ _ _ _ _ _ _ _ H).
Defined.

(** X26.  When the promise of [readFirmwareFile] stays pending (the file
    cannot be read, or it is too short for the header), the promise of
    [updateFirmware] stays pending too, and no call is made: the device
    is not even asked for its serial number. *)
Theorem updateFirmware_pending_file :
  forall dc rc host dev fileSrc file w,
    readFirmwareFile dc fileSrc file = Pending ->
    updateFirmware dc rc host dev fileSrc file w = (Pending, w).
Proof.
  intros dc rc host dev fileSrc file w Hfile. unfold updateFirmware.
  rewrite Hfile, fold_thenStage_pending by reflexivity. reflexivity.
Qed.

Lemma updateFirmware_pending_file_witness :
  updateFirmware testConst testRestartConst (testHost [inr [470010001]])
    (constantDevice 0) "T7firmware_010067_2014-02-24.bin"
    (inl (IOError "ENOENT")) {| flashLog := []; hostTrace := [] |}
  = (Pending, {| flashLog := []; hostTrace := [] |}).
Proof.
  apply (updateFirmware_pending_file testConst testRestartConst
           (testHost [inr [470010001]]) (constantDevice 0)
           "T7firmware_010067_2014-02-24.bin" (inl (IOError "ENOENT"))
           {| flashLog := []; hostTrace := [] |}).
  reflexivity.
Defined.
